(** * Movie recommender: TF-IDF / cosine content filter and
      user-based collaborative filter (project.py)

    Shallow embedding of [compute_tfidf], [cosine_similarity],
    [content_based_recommendations] and [collaborative_recommendations].

    The four functions are embedded twice.

    The first embedding reads a Python [float] / numpy [float64] as a real
    number [R] (no rounding, no overflow), [math.log] as [ln], [math.sqrt]
    as [sqrt], a not-a-number result of [np.corrcoef] as [None], and
    [str.lower] as the folding of the letters A to Z.  It carries what is
    proved of the formulas: the TF-IDF weight, its sign, the sign of a
    cosine similarity, and of the shape of the results.

    The second embedding, the module [Runtime], takes the arithmetic from
    the interpreter: the float type, its operations and comparisons,
    [np.isnan], [np.corrcoef], [str.lower] and the iteration order of a
    set are the fields of a record, and the item ids that [iterrows] turns
    into floats are rounded to binary64.  It carries what is proved of the
    rows a call returns and of their order, which the rounded values
    decide; the binary64 floats of the kernel are one of its instances.

    Conventions of both.
    - Python [int] values are [Z]; positions produced by [enumerate] are [nat].
    - [str] values are [string] (byte strings, UTF-8); whitespace is the
      ASCII one.
    - A [dict] (also [Counter], [defaultdict]) is an association list with
      unique keys kept in insertion order, as Python iterates it.  A [set]
      is a duplicate-free list.
    - An exception is a [Raise] result; [print] appends to a list of lines;
      the tables a call receives are returned next to its value, so that an
      in-place update of a caller's table is visible. *)

From Stdlib Require Import List String Ascii ZArith Bool Arith Lia.
From Stdlib Require Import Reals Lra Permutation Sorted.
From Stdlib Require DecimalString.
From Stdlib Require Floats Uint63.
Import ListNotations.

Local Open Scope string_scope.
Local Open Scope list_scope.
Local Open Scope Z_scope.

Set Implicit Arguments.

(* ================================================================== *)
(** ** Exceptions *)

Inductive exn : Type :=
| ValueError
| ZeroDivisionError
| OverflowError
| KeyError
| IndexError.

Inductive result (A : Type) : Type :=
| Ok (a : A)
| Raise (e : exn).

Arguments Ok {A} a.
Arguments Raise {A} e.

Definition bind {A B : Type} (m : result A) (k : A -> result B) : result B :=
  match m with
  | Ok a => k a
  | Raise e => Raise e
  end.

Notation "x <- m ;; k" := (bind m (fun x => k))
  (at level 61, m at next level, right associativity).
Notation "' p <- m ;; k" := (bind m (fun x => let p := x in k))
  (at level 61, p pattern, m at next level, right associativity).

(** [[f(x) for x in l]] when [f] may raise: the first exception wins. *)
Fixpoint mapM {A B : Type} (f : A -> result B) (l : list A) : result (list B) :=
  match l with
  | [] => Ok []
  | x :: l' => y <- f x ;; ys <- mapM f l' ;; Ok (y :: ys)
  end.

(* ================================================================== *)
(** ** Float primitives *)

Definition Rltb (x y : R) : bool := if Rlt_dec x y then true else false.
Definition Rleb (x y : R) : bool := if Rle_dec x y then true else false.
Definition Reqb (x y : R) : bool := if Req_dec_T x y then true else false.

(** [x / y] on Python numbers. *)
Definition py_div (x y : R) : result R :=
  if Reqb y 0 then Raise ZeroDivisionError else Ok (x / y)%R.

(** [math.log(x)]. *)
Definition math_log (x : R) : result R :=
  if Rltb 0 x then Ok (ln x) else Raise ValueError.

(** [math.sqrt(x)]. *)
Definition math_sqrt (x : R) : result R :=
  if Rleb 0 x then Ok (sqrt x) else Raise ValueError.

(** [sum(l)]. *)
Definition sum (l : list R) : R := fold_left Rplus l 0%R.

(* ================================================================== *)
(** ** Strings *)

(** Whitespace of [str.split()] and [str.isspace()] in the ASCII range. *)
Definition is_space (c : ascii) : bool :=
  let n := nat_of_ascii c in
  ((9 <=? n) && (n <=? 13) || (28 <=? n) && (n <=? 32))%nat.

Fixpoint split_from (s : string) (tok : string) : list string :=
  match s with
  | EmptyString => if String.eqb tok "" then [] else [tok]
  | String c s' =>
      if is_space c
      then if String.eqb tok "" then split_from s' ""
           else tok :: split_from s' ""
      else split_from s' (tok ++ String c "")
  end.

(** [doc.split()]. *)
Definition split (doc : string) : list string := split_from doc "".

Definition lower_ascii (c : ascii) : ascii :=
  let n := nat_of_ascii c in
  if ((65 <=? n) && (n <=? 90))%nat then ascii_of_nat (n + 32) else c.

(** [s.lower()]. *)
Fixpoint lower (s : string) : string :=
  match s with
  | EmptyString => EmptyString
  | String c s' => String (lower_ascii c) (lower s')
  end.

(** [s.replace(a, b)] for one-character [a] and [b]. *)
Fixpoint replace_char (a b : ascii) (s : string) : string :=
  match s with
  | EmptyString => EmptyString
  | String c s' =>
      String (if Ascii.eqb c a then b else c) (replace_char a b s')
  end.

Fixpoint starts_with (p s : string) : bool :=
  match p, s with
  | EmptyString, _ => true
  | String _ _, EmptyString => false
  | String a p', String b s' => Ascii.eqb a b && starts_with p' s'
  end.

(** [p in s] on strings. *)
Fixpoint str_in (p s : string) : bool :=
  starts_with p s ||
  match s with
  | EmptyString => false
  | String _ s' => str_in p s'
  end.

(** [str(i)] and [f"{i}"] for an [int]. *)
Definition str_of_int (i : Z) : string :=
  DecimalString.NilZero.string_of_int (Z.to_int i).

(* ================================================================== *)
(** ** Dictionaries and sets *)

Section Dict.
Variables (K V : Type) (eqb : K -> K -> bool).

Definition dict : Type := list (K * V).

Fixpoint dict_get (d : dict) (k : K) : option V :=
  match d with
  | [] => None
  | (k', v) :: d' => if eqb k' k then Some v else dict_get d' k
  end.

(** [k in d]. *)
Definition dict_mem (d : dict) (k : K) : bool :=
  match dict_get d k with Some _ => true | None => false end.

(** [d[k] = v]: an existing key keeps its place, a new one goes last. *)
Fixpoint dict_set (d : dict) (k : K) (v : V) : dict :=
  match d with
  | [] => [(k, v)]
  | (k', v') :: d' =>
      if eqb k' k then (k', v) :: d' else (k', v') :: dict_set d' k v
  end.

(** [d[k]] on a plain [dict]. *)
Definition dict_index (d : dict) (k : K) : result V :=
  match dict_get d k with Some v => Ok v | None => Raise KeyError end.

Definition keys (d : dict) : list K := map fst d.
Definition values (d : dict) : list V := map snd d.
End Dict.

Section Sets.
Variables (K : Type) (eqb : K -> K -> bool).

Definition mem (k : K) (l : list K) : bool := existsb (eqb k) l.

(** [set(l)], also [Series.unique()]: first occurrences, in order. *)
Fixpoint unique_from (seen l : list K) : list K :=
  match l with
  | [] => []
  | x :: l' =>
      if mem x seen then unique_from seen l'
      else x :: unique_from (x :: seen) l'
  end.

Definition set_of (l : list K) : list K := unique_from [] l.

(** [a & b]. *)
Definition set_inter (a b : list K) : list K :=
  filter (fun x => mem x b) a.
End Sets.

(** [l[i]] for a position [i]. *)
Definition list_index {A : Type} (l : list A) (i : nat) : result A :=
  match nth_error l i with Some x => Ok x | None => Raise IndexError end.

(** [enumerate(l)]. *)
Fixpoint enumerate_from {A : Type} (i : nat) (l : list A) : list (nat * A) :=
  match l with
  | [] => []
  | x :: l' => (i, x) :: enumerate_from (S i) l'
  end.

Definition enumerate {A : Type} (l : list A) : list (nat * A) :=
  enumerate_from 0 l.

(** [l[:n]] for an [int] [n]: a negative [n] counts from the end. *)
Definition slice_to {A : Type} (n : Z) (l : list A) : list A :=
  if n <? 0
  then firstn (Z.to_nat (Z.of_nat (List.length l) + n)) l
  else firstn (Z.to_nat n) l.

(** [l.sort(key=key, reverse=True)]: stable, largest key first.  The
    insertion keeps an element in front of the later ones with the same key. *)
Section Sort.
Variables (A : Type) (key : A -> R).

Fixpoint insert_desc (x : A) (l : list A) : list A :=
  match l with
  | [] => [x]
  | y :: l' =>
      if Rltb (key x) (key y) then y :: insert_desc x l' else x :: y :: l'
  end.

Fixpoint sort_desc (l : list A) : list A :=
  match l with
  | [] => []
  | x :: l' => insert_desc x (sort_desc l')
  end.
End Sort.

(* ================================================================== *)
(** ** TF-IDF *)

(** [d[term] += 1] on a [defaultdict(int)]; also one step of [Counter]. *)
Definition incr (d : dict string Z) (term : string) : dict string Z :=
  match dict_get String.eqb d term with
  | Some c => dict_set String.eqb d term (c + 1)
  | None => dict_set String.eqb d term (0 + 1)
  end.

(** [Counter(tokens)]. *)
Definition Counter (tokens : list string) : dict string Z :=
  fold_left incr tokens [].

(** The document-frequency loop. *)
Definition doc_freq (doc_tokens : list (list string)) : dict string Z :=
  fold_left
    (fun term_doc_freq tokens =>
       fold_left incr (set_of String.eqb tokens) term_doc_freq)
    doc_tokens [].

(** [term_doc_freq[term]] on the [defaultdict(int)]. *)
Definition freq_of (term_doc_freq : dict string Z) (term : string) : Z :=
  match dict_get String.eqb term_doc_freq term with
  | Some c => c
  | None => 0
  end.

(** The inner loop building one vector. *)
Fixpoint tfidf_vector (n_docs : Z) (term_doc_freq : dict string Z)
    (items : list (string * Z)) (vector : dict string R)
  : result (dict string R) :=
  match items with
  | [] => Ok vector
  | (term, freq) :: items' =>
      q <- py_div (IZR n_docs) (IZR (1 + freq_of term_doc_freq term)) ;;
      idf <- math_log q ;;
      tfidf_vector n_docs term_doc_freq items'
        (dict_set String.eqb vector term (IZR freq * idf)%R)
  end.

Definition compute_tfidf (documents : list string)
  : result (list (dict string R)) :=
  let doc_tokens := map split documents in
  let term_doc_freq := doc_freq doc_tokens in
  let n_docs := Z.of_nat (List.length documents) in
  mapM (fun tokens =>
          let term_freq := Counter tokens in
          tfidf_vector n_docs term_doc_freq term_freq [])
       doc_tokens.

(* ================================================================== *)
(** ** Cosine similarity *)

Definition cosine_similarity (vec1 vec2 : dict string R) : result R :=
  let common_terms :=
    set_inter String.eqb (set_of String.eqb (keys vec1))
                         (set_of String.eqb (keys vec2)) in
  match common_terms with
  | [] => Ok 0%R
  | _ :: _ =>
      products <- mapM (fun term =>
                          a <- dict_index String.eqb vec1 term ;;
                          b <- dict_index String.eqb vec2 term ;;
                          Ok (a * b)%R)
                       common_terms ;;
      let dot_product := sum products in
      mag1 <- math_sqrt (sum (map (fun val => val ^ 2)%R (values vec1))) ;;
      mag2 <- math_sqrt (sum (map (fun val => val ^ 2)%R (values vec2))) ;;
      if Reqb mag1 0 || Reqb mag2 0 then Ok 0%R
      else py_div dot_product (mag1 * mag2)
  end.

(* ================================================================== *)
(** ** Tables *)

Module Movies.
(** A row of the catalog ([movies.csv]). *)
Record row : Type := { movieId : Z; title : string; genres : string }.
End Movies.

Module Ratings.
(** A row of the rating log ([ratings.csv]); the timestamp is never read. *)
Record row : Type := { userId : Z; movieId : Z; rating : R }.
End Ratings.

(** The caller's catalog table: its rows, which carry a default
    [RangeIndex], and the derived column ['genres_text'], absent until it is
    assigned. *)
Record MoviesDF : Type :=
  { rows : list Movies.row; genres_text : option (list string) }.

Definition RatingsDF : Type := list Ratings.row.

Module Content.
(** A row of the frame returned by the content recommender; [index] is the
    row label kept by [iloc], the position of the entry in the catalog. *)
Record row : Type :=
  { index : nat; title : string; genres : string; similarity : R }.
End Content.

Module Collab.
(** A row of the frame returned by the collaborative recommender. *)
Record row : Type :=
  { title : string; genres : string; predicted_rating : R }.
End Collab.

(** What a call leaves behind: the tables it was handed, the lines it
    printed, and its value.  [pd.DataFrame()] is the empty list of rows. *)
Record run (T A : Type) : Type :=
  { tables : T; stdout : list string; value : result A }.

(* ================================================================== *)
(** ** Content-based filtering *)

(** [for i, title in enumerate(...): if p(title): movie_idx = i; break]. *)
Fixpoint find_first (p : string -> bool) (i : nat) (titles : list string)
  : option (nat * string) :=
  match titles with
  | [] => None
  | title :: titles' =>
      if p title then Some (i, title) else find_first p (S i) titles'
  end.

(** The two lookup loops: the position found, and the line printed. *)
Definition find_movie (titles : list string) (movie_title : string)
  : option nat * list string :=
  match find_first (fun title => String.eqb (lower title) (lower movie_title))
                   0 titles with
  | Some (i, _) => (Some i, [])
  | None =>
      match find_first (fun title => str_in (lower movie_title) (lower title))
                       0 titles with
      | Some (i, title) => (Some i, [("Using closest match: " ++ title)%string])
      | None => (None, [])
      end
  end.

(** The ranking part, after the movie was found. *)
Definition rank_similar (catalog : list Movies.row)
    (tfidf_vectors : list (dict string R)) (movie_idx : nat) (n : Z)
  : result (list Content.row) :=
  similarities <-
    mapM (fun '(i, vec) =>
            v <- list_index tfidf_vectors movie_idx ;;
            score <- cosine_similarity v vec ;;
            Ok (i, score))
         (enumerate tfidf_vectors) ;;
  let similarities :=
    filter (fun '(i, score) => negb (Nat.eqb i movie_idx)) similarities in
  let similarities := sort_desc snd similarities in
  let top_indices := map fst (slice_to n similarities) in
  recommendations <- mapM (list_index catalog) top_indices ;;
  Ok (map (fun '(m, (i, score)) =>
             {| Content.index := i;
                Content.title := Movies.title m;
                Content.genres := Movies.genres m;
                Content.similarity := score |})
          (combine recommendations (slice_to n similarities))).

Definition content_based_recommendations (movies_df : MoviesDF)
    (movie_title : string) (n : Z) : run MoviesDF (list Content.row) :=
  let text := map (fun m => replace_char "|" " " (Movies.genres m))
                  (rows movies_df) in
  let movies_df := {| rows := rows movies_df; genres_text := Some text |} in
  match compute_tfidf text with
  | Raise e => {| tables := movies_df; stdout := []; value := Raise e |}
  | Ok tfidf_vectors =>
      let (movie_idx, out) :=
        find_movie (map Movies.title (rows movies_df)) movie_title in
      match movie_idx with
      | None =>
          {| tables := movies_df;
             stdout := out ++ [("Movie '" ++ movie_title ++ "' not found")%string];
             value := Ok [] |}
      | Some movie_idx =>
          {| tables := movies_df;
             stdout := out;
             value := rank_similar (rows movies_df) tfidf_vectors movie_idx n |}
      end
  end.

(* ================================================================== *)
(** ** Collaborative filtering *)

(** [np.corrcoef(x, y)[0, 1]]: covariances with [ddof = 1], divided by both
    standard deviations and clipped to [-1, 1]; [None] stands for [nan], the
    outcome of [0 / 0] when a sequence has no variance. *)
Definition mean (l : list R) : R := (sum l / INR (List.length l))%R.

Definition cov (xs ys : list R) : R :=
  (sum (map (fun '(x, y) => (x - mean xs) * (y - mean ys)) (combine xs ys))
   / (INR (List.length xs) - 1))%R.

Definition clip (lo hi x : R) : R := Rmax lo (Rmin hi x).

Definition corrcoef (xs ys : list R) : option R :=
  if Reqb (cov xs xs) 0 || Reqb (cov ys ys) 0 then None
  else Some (clip (-1) 1 (cov xs ys / sqrt (cov xs xs) / sqrt (cov ys ys))).

(** [df[df['movieId'] == movie_id]['rating'].values[0]]. *)
Definition first_rating (df : RatingsDF) (movie_id : Z) : result R :=
  match filter (fun r => Ratings.movieId r =? movie_id) df with
  | r :: _ => Ok (Ratings.rating r)
  | [] => Raise IndexError
  end.

(** The loop over [common_movies] filling the two rating arrays. *)
Fixpoint paired_ratings (user_common other_common : RatingsDF)
    (common_movies : list Z) : result (list R * list R) :=
  match common_movies with
  | [] => Ok ([], [])
  | movie_id :: rest =>
      user_rating <- first_rating user_common movie_id ;;
      other_rating <- first_rating other_common movie_id ;;
      ' (us, os) <- paired_ratings user_common other_common rest ;;
      Ok (user_rating :: us, other_rating :: os)
  end.

(** The loop over the other users, in the order of [unique()]. *)
Fixpoint find_similar_users (ratings_df : RatingsDF) (user_id : Z)
    (user_ratings : RatingsDF) (user_rated_movies : list Z)
    (users : list Z) : result (list (Z * R)) :=
  match users with
  | [] => Ok []
  | other_user :: users' =>
      let continue :=
        find_similar_users ratings_df user_id user_ratings user_rated_movies
                           users' in
      if other_user =? user_id then continue
      else
        let other_ratings :=
          filter (fun r => Ratings.userId r =? other_user) ratings_df in
        let common_movies :=
          set_inter Z.eqb (set_of Z.eqb (map Ratings.movieId other_ratings))
                    user_rated_movies in
        if Z.of_nat (List.length common_movies) <? 5 then continue
        else
          let user_common :=
            filter (fun r => mem Z.eqb (Ratings.movieId r) common_movies)
                   user_ratings in
          let other_common :=
            filter (fun r => mem Z.eqb (Ratings.movieId r) common_movies)
                   other_ratings in
          ' (user_ratings_array, other_ratings_array) <-
            paired_ratings user_common other_common common_movies ;;
          match corrcoef user_ratings_array other_ratings_array with
          | Some similarity =>
              similar_users <- continue ;;
              Ok ((other_user, similarity) :: similar_users)
          | None => continue
          end
  end.

(** An entry of [candidate_movies]. *)
Record candidate : Type := { score : R; weighted_sum : R }.

(** The body of the loop over [high_rated]: the entry is created when the
    movie is new, then both of its fields are increased.  The entry is
    looked up right after it was created, so the lookup finds it (lemma
    [accumulate_get]) and the last branch is never taken. *)
Definition accumulate (candidate_movies : dict Z candidate)
    (movie_id : Z) (rating similarity : R) : dict Z candidate :=
  let candidate_movies :=
    if dict_mem Z.eqb candidate_movies movie_id then candidate_movies
    else dict_set Z.eqb candidate_movies movie_id
                  {| score := 0; weighted_sum := 0 |} in
  match dict_get Z.eqb candidate_movies movie_id with
  | Some data =>
      dict_set Z.eqb candidate_movies movie_id
        {| score := score data + similarity;
           weighted_sum := weighted_sum data + rating * similarity |}
  | None => candidate_movies
  end.

(** The rows of one neighbour that are aggregated. *)
Definition high_rated (ratings_df : RatingsDF) (user_rated_movies : list Z)
    (similar_user : Z) : RatingsDF :=
  let similar_user_ratings :=
    filter (fun r => (Ratings.userId r =? similar_user)
                     && negb (mem Z.eqb (Ratings.movieId r) user_rated_movies))
           ratings_df in
  filter (fun r => Rleb 4 (Ratings.rating r)) similar_user_ratings.

(** The aggregation loop over the neighbours that were kept. *)
Definition aggregate (ratings_df : RatingsDF) (user_rated_movies : list Z)
    (neighbours : list (Z * R)) : dict Z candidate :=
  fold_left
    (fun candidate_movies '(similar_user, similarity) =>
       fold_left
         (fun candidate_movies r =>
            accumulate candidate_movies (Ratings.movieId r)
                       (Ratings.rating r) similarity)
         (high_rated ratings_df user_rated_movies similar_user)
         candidate_movies)
    neighbours [].

(** The predicted ratings, in the order of [candidate_movies.items()]. *)
Definition predict (candidate_movies : dict Z candidate) : list (Z * R) :=
  flat_map
    (fun '(movie_id, data) =>
       if Rltb 0 (score data)
       then [(movie_id, (weighted_sum data / score data)%R)]
       else [])
    candidate_movies.

(** The join with the catalog. *)
Definition movie_details (movies_df : MoviesDF) (top_movies : list (Z * R))
  : list Collab.row :=
  flat_map
    (fun '(movie_id, pred_rating) =>
       match filter (fun m => Movies.movieId m =? movie_id) (rows movies_df)
       with
       | [] => []
       | movie :: _ =>
           [ {| Collab.title := Movies.title movie;
                Collab.genres := Movies.genres movie;
                Collab.predicted_rating := pred_rating |} ]
       end)
    top_movies.

Definition collaborative_recommendations (ratings_df : RatingsDF)
    (movies_df : MoviesDF) (user_id : Z) (n : Z)
  : run (RatingsDF * MoviesDF) (list Collab.row) :=
  let users := set_of Z.eqb (map Ratings.userId ratings_df) in
  if negb (mem Z.eqb user_id users) then
    {| tables := (ratings_df, movies_df);
       stdout := [("User " ++ str_of_int user_id ++ " not found")%string];
       value := Ok [] |}
  else
    let user_ratings :=
      filter (fun r => Ratings.userId r =? user_id) ratings_df in
    let user_rated_movies := set_of Z.eqb (map Ratings.movieId user_ratings) in
    {| tables := (ratings_df, movies_df);
       stdout := [];
       value :=
         similar_users <-
           find_similar_users ratings_df user_id user_ratings
                              user_rated_movies users ;;
         let similar_users := sort_desc snd similar_users in
         let candidate_movies :=
           aggregate ratings_df user_rated_movies (slice_to 10 similar_users) in
         let predictions := sort_desc snd (predict candidate_movies) in
         let top_movies := slice_to n predictions in
         Ok (movie_details movies_df top_movies) |}.

(* ================================================================== *)
(** * What the specification says

    Definitions that follow the words of the specification; the theorems
    compare the embedding of the code with them. *)

(** ** Vectorizer (section 4.1) *)

(** tf(term, doc): the raw number of occurrences of the term among the
    whitespace tokens of the document. *)
Definition spec_tf (term doc : string) : Z :=
  Z.of_nat (count_occ string_dec (split doc) term).

(** df[term]: the number of documents that contain the term at least once. *)
Definition spec_df (term : string) (documents : list string) : Z :=
  Z.of_nat (List.length
              (filter (fun doc => mem String.eqb term (split doc)) documents)).

(** Weight(term, doc) = tf(term, doc) * ln(N / (1 + df[term])). *)
Definition spec_weight (documents : list string) (term doc : string) : R :=
  (IZR (spec_tf term doc)
   * ln (IZR (Z.of_nat (List.length documents))
         / (1 + IZR (spec_df term documents))))%R.

(** ** Title resolution (section 4.3) *)

(** The title equals the query, case-insensitively. *)
Definition exact_match (query title : string) : Prop :=
  lower title = lower query.

(** The title contains the query as a case-insensitive substring. *)
Definition substring_match (query title : string) : Prop :=
  exists pre post, lower title = (pre ++ lower query ++ post)%string.

(** Position [i] holds the first entry of [l], in catalog order, with [P]. *)
Definition first_at {A : Type} (P : A -> Prop) (l : list A) (i : nat) : Prop :=
  (exists x, nth_error l i = Some x /\ P x) /\
  (forall j y, (j < i)%nat -> nth_error l j = Some y -> ~ P y).

(** The three outcomes of the resolution. *)
Inductive resolution : Type :=
| Exact (i : nat)
| Closest (i : nat)
| NotFound.

(** Steps 1 to 3: an exact match wins, the first one in catalog order; else
    the first substring match; else the title is not found. *)
Inductive spec_resolve (titles : list string) (query : string)
  : resolution -> Prop :=
| resolve_exact (i : nat) :
    first_at (exact_match query) titles i ->
    spec_resolve titles query (Exact i)
| resolve_closest (i : nat) :
    (forall t, In t titles -> ~ exact_match query t) ->
    first_at (substring_match query) titles i ->
    spec_resolve titles query (Closest i)
| resolve_not_found :
    (forall t, In t titles -> ~ exact_match query t) ->
    (forall t, In t titles -> ~ substring_match query t) ->
    spec_resolve titles query NotFound.

(** The catalog position an outcome of the resolution stands for. *)
Definition resolved (r : resolution) : option nat :=
  match r with
  | Exact i => Some i
  | Closest i => Some i
  | NotFound => None
  end.

(** ** Ranking (sections 4.3 and 4.4) *)

(** "Sorted by score descending, stable": [a] may stand before [b] when its
    score is larger, or equal with [a] earlier in the order [before]. *)
Definition ranks_before {A : Type} (key : A -> R) (before : A -> A -> Prop)
    (a b : A) : Prop :=
  (key b < key a)%R \/ (key a = key b /\ before a b).

(** ** Collaborative filtering (section 4.4) *)

(** User [u] has a rating of item [m] in the log. *)
Definition rated_by (ratings_df : RatingsDF) (u m : Z) : Prop :=
  exists r, In r ratings_df /\ Ratings.userId r = u /\ Ratings.movieId r = m.

(** The rating of item [m] by user [u]: the one of the first such row. *)
Definition rating_of (ratings_df : RatingsDF) (u m : Z) : R :=
  match filter (fun r => (Ratings.userId r =? u) && (Ratings.movieId r =? m))
               ratings_df with
  | r :: _ => Ratings.rating r
  | [] => 0%R
  end.

(** [common] lists, once each, the items rated by both [u] and [target]. *)
Definition common_items (ratings_df : RatingsDF) (target u : Z)
    (common : list Z) : Prop :=
  NoDup common /\
  forall m, In m common <->
            rated_by ratings_df u m /\ rated_by ratings_df target m.

(** Steps 2 and 3: [u] is a candidate neighbour of [target], with
    correlation [s]. *)
Definition spec_neighbour (ratings_df : RatingsDF) (target u : Z) (s : R)
  : Prop :=
  u <> target /\
  In u (map Ratings.userId ratings_df) /\
  exists common,
    common_items ratings_df target u common /\
    (5 <= List.length common)%nat /\
    corrcoef (map (rating_of ratings_df target) common)
             (map (rating_of ratings_df u) common) = Some s.

(** The ratings >= 4.0 that user [u] gave to item [m], in log order. *)
Definition high_ratings_of (ratings_df : RatingsDF) (u m : Z) : list R :=
  map Ratings.rating
      (filter (fun r => (Ratings.userId r =? u) && (Ratings.movieId r =? m)
                        && Rleb 4 (Ratings.rating r))
              ratings_df).

(** Step 5: weight[item], the sum of s over the high ratings of the item
    by the neighbours (u, s). *)
Definition spec_weight_of (ratings_df : RatingsDF)
    (neighbours : list (Z * R)) (m : Z) : R :=
  sum (flat_map (fun '(u, s) => map (fun _ => s)
                                    (high_ratings_of ratings_df u m))
                neighbours).

(** Step 5: weighted_sum[item], the sum of s * rating over the same. *)
Definition spec_weighted_sum (ratings_df : RatingsDF)
    (neighbours : list (Z * R)) (m : Z) : R :=
  sum (flat_map (fun '(u, s) => map (fun x => s * x)%R
                                    (high_ratings_of ratings_df u m))
                neighbours).

(** Step 7: the join of a list of predictions with the catalog.  An item
    gets the title and genres of the first catalog row with its id; an item
    without such a row is left out. *)
Inductive joined (movies_df : MoviesDF)
  : list (Z * R) -> list Collab.row -> Prop :=
| joined_nil : joined movies_df [] []
| joined_found (m : Z) (p : R) (i : nat) (movie : Movies.row)
    (rest : list (Z * R)) (out : list Collab.row) :
    first_at (fun x => Movies.movieId x = m) (rows movies_df) i ->
    nth_error (rows movies_df) i = Some movie ->
    joined movies_df rest out ->
    joined movies_df ((m, p) :: rest)
           ({| Collab.title := Movies.title movie;
               Collab.genres := Movies.genres movie;
               Collab.predicted_rating := p |} :: out)
| joined_missing (m : Z) (p : R) (rest : list (Z * R))
    (out : list Collab.row) :
    (forall x, In x (rows movies_df) -> Movies.movieId x <> m) ->
    joined movies_df rest out ->
    joined movies_df ((m, p) :: rest) out.

(* ================================================================== *)
(** * Closed forms of the code

    What the loops of the code compute, written without loops and without
    the exception monad; each is proved equal to the embedding below. *)

(** ** Vectorizer and cosine similarity *)

(** Occurrences of a term in a list of tokens. *)
Definition count (term : string) (tokens : list string) : Z :=
  Z.of_nat (count_occ string_dec tokens term).

(** The inverse-document-frequency factor of a term. *)
Definition idf (documents : list string) (term : string) : R :=
  ln (IZR (Z.of_nat (List.length documents))
      / (1 + IZR (spec_df term documents))).

(** The vector of one document of a corpus. *)
Definition vector_of (documents : list string) (doc : string)
  : dict string R :=
  map (fun t => (t, (IZR (count t (split doc)) * idf documents t)%R))
      (set_of String.eqb (split doc)).

(** [v.get(t, 0)]: the coordinate of a sparse vector. *)
Definition get_or_zero (v : dict string R) (t : string) : R :=
  match dict_get String.eqb v t with Some a => a | None => 0%R end.

(** The cosine similarity as a number; [cosine_similarity] always returns
    it (lemma [cosine_similarity_total]). *)
Definition cosine (vec1 vec2 : dict string R) : R :=
  match cosine_similarity vec1 vec2 with
  | Ok c => c
  | Raise _ => 0%R
  end.

(** ** Content recommender *)

(** The column ['genres_text'] that the content recommender derives. *)
Definition genres_text_of (movies_df : MoviesDF) : list string :=
  map (fun m => replace_char "|" " " (Movies.genres m)) (rows movies_df).

(** What [find_movie] returns for each outcome of the resolution. *)
Definition found_by (titles : list string) (r : resolution)
  : option nat * list string :=
  match r with
  | Exact i => (Some i, [])
  | Closest i =>
      (Some i, [("Using closest match: " ++ nth i titles "")%string])
  | NotFound => (None, [])
  end.

(** The scores of all entries against entry [e], in catalog order. *)
Definition scored (vectors : list (dict string R)) (e : nat)
  : list (nat * R) :=
  map (fun '(i, vec) => (i, cosine (nth e vectors []) vec))
      (enumerate vectors).

(** The full ranking of the entries other than [e]. *)
Definition ranking_of (vectors : list (dict string R)) (e : nat)
  : list (nat * R) :=
  sort_desc snd
    (filter (fun '(i, score) => negb (Nat.eqb i e)) (scored vectors e)).

Definition no_movie : Movies.row :=
  {| Movies.movieId := 0; Movies.title := ""; Movies.genres := "" |}.

(** The output row made of a catalog position and its score. *)
Definition content_row (catalog : list Movies.row) (p : nat * R)
  : Content.row :=
  {| Content.index := fst p;
     Content.title := Movies.title (nth (fst p) catalog no_movie);
     Content.genres := Movies.genres (nth (fst p) catalog no_movie);
     Content.similarity := snd p |}.

(** ** Collaborative recommender *)

(** The rows, the rated items and the neighbours as the code computes them. *)
Definition user_rows (ratings_df : RatingsDF) (u : Z) : RatingsDF :=
  filter (fun r => Ratings.userId r =? u) ratings_df.

Definition rated_movies (ratings_df : RatingsDF) (u : Z) : list Z :=
  set_of Z.eqb (map Ratings.movieId (user_rows ratings_df u)).

Definition common_movies_of (ratings_df : RatingsDF) (target u : Z) : list Z :=
  set_inter Z.eqb (rated_movies ratings_df u) (rated_movies ratings_df target).

Definition similarity_of (ratings_df : RatingsDF) (target u : Z) : option R :=
  let common := common_movies_of ratings_df target u in
  if Z.of_nat (List.length common) <? 5 then None
  else corrcoef (map (rating_of ratings_df target) common)
                (map (rating_of ratings_df u) common).

Definition neighbours_of (ratings_df : RatingsDF) (target : Z)
    (users : list Z) : list (Z * R) :=
  flat_map
    (fun u =>
       if u =? target then []
       else match similarity_of ratings_df target u with
            | Some s => [(u, s)]
            | None => []
            end)
    users.

(** The neighbours that take part in the aggregation. *)
Definition top_neighbours (ratings_df : RatingsDF) (target : Z)
  : list (Z * R) :=
  slice_to 10
    (sort_desc snd
       (neighbours_of ratings_df target
          (set_of Z.eqb (map Ratings.userId ratings_df)))).

(** The rows that the aggregation loop visits, in order: item, rating and
    similarity of the neighbour. *)
Definition events (ratings_df : RatingsDF) (user_rated_movies : list Z)
    (neighbours : list (Z * R)) : list (Z * R * R) :=
  flat_map
    (fun '(u, s) =>
       map (fun r => (Ratings.movieId r, Ratings.rating r, s))
           (high_rated ratings_df user_rated_movies u))
    neighbours.

Definition score_of (d : dict Z candidate) (m : Z) : R :=
  match dict_get Z.eqb d m with Some c => score c | None => 0%R end.

Definition weighted_sum_of (d : dict Z candidate) (m : Z) : R :=
  match dict_get Z.eqb d m with Some c => weighted_sum c | None => 0%R end.

(** ** Cosine similarity, term by term *)

(** The shared terms, as [cosine_similarity] lists them. *)
Definition common_terms (vec1 vec2 : dict string R) : list string :=
  set_inter String.eqb (set_of String.eqb (keys vec1))
                       (set_of String.eqb (keys vec2)).

Definition dot_product (vec1 vec2 : dict string R) : R :=
  sum (map (fun t => (get_or_zero vec1 t * get_or_zero vec2 t)%R)
           (common_terms vec1 vec2)).

Definition magnitude (vec : dict string R) : R :=
  sqrt (sum (map (fun val => val ^ 2)%R (values vec))).

Definition cosine_closed (vec1 vec2 : dict string R) : R :=
  match common_terms vec1 vec2 with
  | [] => 0%R
  | _ :: _ =>
      if Reqb (magnitude vec1) 0 || Reqb (magnitude vec2) 0 then 0%R
      else (dot_product vec1 vec2 / (magnitude vec1 * magnitude vec2))%R
  end.

(** A vector with every weight multiplied by [c]. *)
Definition scale (c : R) (vec : dict string R) : dict string R :=
  map (fun '(t, w) => (t, (c * w)%R)) vec.

(** [a] stands before [b] in the list [l]. *)
Definition before_in {A : Type} (l : list A) (a b : A) : Prop :=
  exists l1 l2 l3, l = l1 ++ a :: l2 ++ b :: l3.

(* ================================================================== *)
(** * Sample tables *)

(** A small catalog and a small rating log for the examples. *)
Definition sample_catalog : MoviesDF :=
  {| rows :=
       [ {| Movies.movieId := 1; Movies.title := "Toy Story (1995)";
            Movies.genres := "Adventure|Animation|Children" |};
         {| Movies.movieId := 2; Movies.title := "Jumanji (1995)";
            Movies.genres := "Adventure|Children|Fantasy" |};
         {| Movies.movieId := 6; Movies.title := "Heat (1995)";
            Movies.genres := "Action|Crime|Thriller" |} ];
     genres_text := None |}.

Definition rating_row (u m : Z) (x : R) : Ratings.row :=
  {| Ratings.userId := u; Ratings.movieId := m; Ratings.rating := x |}.

(** User 2 shares five items with user 1, user 3 only four. *)
Definition sample_ratings : RatingsDF :=
  [ rating_row 1 11 1; rating_row 1 12 2; rating_row 1 13 3;
    rating_row 1 14 4; rating_row 1 15 5;
    rating_row 2 11 1; rating_row 2 12 2; rating_row 2 13 3;
    rating_row 2 14 4; rating_row 2 15 5;
    rating_row 2 6 5; rating_row 2 99 4.5; rating_row 2 1 3;
    rating_row 3 11 5; rating_row 3 12 4; rating_row 3 13 3;
    rating_row 3 14 1; rating_row 3 2 5 ].

(* ================================================================== *)
(** * The program over the arithmetic of the interpreter

    In the definitions above a [float] is a real number.  That reading fits
    what is claimed about the formula and the sign of a weight.  Which rows
    a call returns, and in which order, is decided by the binary64 values
    the interpreter computes: by [<] between two rounded scores, by [> 0] on
    a rounded weight, by [np.isnan], by [str.lower] on every cased letter,
    by the order in which a [set] is iterated, and by [==] between item ids
    that [iterrows] has turned into floats.

    The module [Runtime] embeds the same four functions with these
    operations as parameters: a record holds the float type, its arithmetic
    and comparisons, [str.lower], [np.corrcoef] and the iteration order of
    [set(a) & set(b)].  What is proved of [Runtime] holds of every such
    record, the binary64 arithmetic of CPython and numpy included;
    [real_python] and [real_numpy] are the records of the reading above, and
    [binary64] is numpy's arithmetic on the kernel's binary64 floats. *)

Module Runtime.

Unset Implicit Arguments.

(** What the content filter takes from the interpreter. *)
Record python : Type :=
  { (** the values of [float] *)
    float : Type;
    (** an [int] used as a float: the [0] that [return 0] yields and that
        a magnitude is compared with, [freq] in [freq * idf] *)
    of_int : Z -> float;
    (** [a / b] on two [int]s, [b] not 0 *)
    int_div : Z -> Z -> float;
    (** [x * y] *)
    fmul : float -> float -> float;
    (** [x / y], [y] not 0 *)
    fdiv : float -> float -> float;
    (** [math.log(x)], [x] nan or above 0 *)
    flog : float -> float;
    (** [math.sqrt(x)], [x] not below 0 *)
    fsqrt : float -> float;
    (** [x ** 2]: an [OverflowError] when the square is out of range *)
    fpow2 : float -> result float;
    (** [sum(l)] *)
    fsum : list float -> float;
    (** [x < y] *)
    flt : float -> float -> bool;
    (** [x == y] *)
    feq : float -> float -> bool;
    (** [x != x] *)
    isnan : float -> bool;
    (** [s.lower()] *)
    str_lower : string -> string;
    (** [a & b] for two sets, each given by its elements in the order they
        were added: the elements of the result in the order of its
        iteration *)
    set_and : list string -> list string -> list string }.

(** What the collaborative filter takes from numpy and pandas. *)
Record numpy : Type :=
  { (** the values of [float64] *)
    float64 : Type;
    (** an [int] used as a float: [0], and [4] for [4.0] *)
    np_of_int : Z -> float64;
    (** [x + y], [x * y], [x / y]: no exception, the result may be nan *)
    np_add : float64 -> float64 -> float64;
    np_mul : float64 -> float64 -> float64;
    np_div : float64 -> float64 -> float64;
    (** [x < y], [x <= y] *)
    np_lt : float64 -> float64 -> bool;
    np_le : float64 -> float64 -> bool;
    (** [np.isnan(x)] *)
    np_isnan : float64 -> bool;
    (** [np.corrcoef(x, y)[0, 1]], [None] when [np.isnan] holds of it *)
    np_corrcoef : list float64 -> list float64 -> option float64;
    (** [a & b] for two sets, each given by its elements in the order they
        were added: the elements of the result in the order of its
        iteration *)
    np_set_and : list Z -> list Z -> list Z }.

(** What is used of binary64 arithmetic.  The quotient of two positive
    [int]s [a / b] with [b <= a + 1] is at least 1/2, hence above 0 after
    rounding.  [<] is transitive, and a number (not nan) that is neither
    below [x] nor above [z] allows no [x < z].  A [set] is iterated in some
    order, each element once. *)
Record python_laws (py : python) : Prop :=
  { int_div_pos :
      forall a b : Z,
        0 < a -> 0 < b <= a + 1 ->
        flt py (of_int py 0) (int_div py a b) = true;
    flt_trans :
      forall x y z : float py,
        flt py x y = true -> flt py y z = true -> flt py x z = true;
    flt_cotrans :
      forall x y z : float py,
        isnan py y = false -> flt py x z = true ->
        flt py x y = true \/ flt py y z = true;
    set_and_perm :
      forall a b : list string,
        Permutation (set_and py a b) (set_inter String.eqb a b) }.

Record numpy_laws (np : numpy) : Prop :=
  { np_lt_trans :
      forall x y z : float64 np,
        np_lt np x y = true -> np_lt np y z = true -> np_lt np x z = true;
    np_lt_cotrans :
      forall x y z : float64 np,
        np_isnan np y = false -> np_lt np x z = true ->
        np_lt np x y = true \/ np_lt np y z = true;
    np_corrcoef_number :
      forall (xs ys : list (float64 np)) (s : float64 np),
        np_corrcoef np xs ys = Some s -> np_isnan np s = false;
    np_set_and_perm :
      forall a b : list Z,
        Permutation (np_set_and np a b) (set_inter Z.eqb a b) }.

Set Implicit Arguments.

(** The binary64 value of an [int], as the integer it is: [i] itself up to
    2^53 in magnitude, beyond that the nearest multiple of the spacing of
    the floats around [i], ties to the even one.  [row['movieId']] is such
    a value: [iterrows] yields each row as a [float64] Series. *)
Definition float64_of_int (i : Z) : Z :=
  let a := Z.abs i in
  if a <=? 2 ^ 53 then i
  else
    let ulp := 2 ^ (Z.log2 a - 52) in
    let q := a / ulp in
    let r := a mod ulp in
    let q' := if 2 * r <? ulp then q
              else if ulp <? 2 * r then q + 1
              else if Z.even q then q else q + 1 in
    Z.sgn i * (q' * ulp).

(** [l.sort(key=key, reverse=True)] by [<] on the keys: stable, largest key
    first.  The insertion keeps an element in front of the later ones that
    are not above it. *)
Section Sort.
Variables (F A : Type) (lt : F -> F -> bool) (key : A -> F).

Fixpoint insert_desc (x : A) (l : list A) : list A :=
  match l with
  | [] => [x]
  | y :: l' =>
      if lt (key x) (key y) then y :: insert_desc x l' else x :: y :: l'
  end.

Fixpoint sort_desc (l : list A) : list A :=
  match l with
  | [] => []
  | x :: l' => insert_desc x (sort_desc l')
  end.

(** "Sorted by score descending, stable": [a] may stand before [b] when its
    score is larger, or when neither score is below the other and [a] is
    earlier in the order [before]. *)
Definition ranks_before (before : A -> A -> Prop) (a b : A) : Prop :=
  lt (key b) (key a) = true \/
  (lt (key a) (key b) = false /\ lt (key b) (key a) = false /\ before a b).
End Sort.

Module Ratings.
(** A row of the rating log ([ratings.csv]); the timestamp is never read. *)
Record row (F : Type) : Type := { userId : Z; movieId : Z; rating : F }.
End Ratings.

Definition RatingsDF (F : Type) : Type := list (Ratings.row F).

Module Content.
(** A row of the frame returned by the content recommender. *)
Record row (F : Type) : Type :=
  { index : nat; title : string; genres : string; similarity : F }.
End Content.

Module Collab.
(** A row of the frame returned by the collaborative recommender. *)
Record row (F : Type) : Type :=
  { title : string; genres : string; predicted_rating : F }.
End Collab.

(** An entry of [candidate_movies]. *)
Record candidate (F : Type) : Type := { score : F; weighted_sum : F }.

(* ------------------------------------------------------------------ *)
(** ** TF-IDF, cosine similarity and the content filter *)

Section ContentFilter.
Variable py : python.

(** [a / b] on two [int]s. *)
Definition int_truediv (a b : Z) : result (float py) :=
  if b =? 0 then Raise ZeroDivisionError else Ok (int_div py a b).

(** [math.log(x)]: a [ValueError] unless [x] is nan or above 0. *)
Definition math_log (x : float py) : result (float py) :=
  if isnan py x || flt py (of_int py 0) x then Ok (flog py x)
  else Raise ValueError.

(** [math.sqrt(x)]: a [ValueError] when [x] is below 0. *)
Definition math_sqrt (x : float py) : result (float py) :=
  if flt py x (of_int py 0) then Raise ValueError else Ok (fsqrt py x).

(** [x / y] on two floats. *)
Definition py_div (x y : float py) : result (float py) :=
  if feq py y (of_int py 0) then Raise ZeroDivisionError
  else Ok (fdiv py x y).

(** The inner loop building one vector. *)
Fixpoint tfidf_vector (n_docs : Z) (term_doc_freq : dict string Z)
    (items : list (string * Z)) (vector : dict string (float py))
  : result (dict string (float py)) :=
  match items with
  | [] => Ok vector
  | (term, freq) :: items' =>
      q <- int_truediv n_docs (1 + freq_of term_doc_freq term) ;;
      idf <- math_log q ;;
      tfidf_vector n_docs term_doc_freq items'
        (dict_set String.eqb vector term (fmul py (of_int py freq) idf))
  end.

Definition compute_tfidf (documents : list string)
  : result (list (dict string (float py))) :=
  let doc_tokens := map split documents in
  let term_doc_freq := doc_freq doc_tokens in
  let n_docs := Z.of_nat (List.length documents) in
  mapM (fun tokens =>
          let term_freq := Counter tokens in
          tfidf_vector n_docs term_doc_freq term_freq [])
       doc_tokens.

Definition cosine_similarity (vec1 vec2 : dict string (float py))
  : result (float py) :=
  let common_terms :=
    set_and py (set_of String.eqb (keys vec1)) (set_of String.eqb (keys vec2)) in
  match common_terms with
  | [] => Ok (of_int py 0)
  | _ :: _ =>
      products <- mapM (fun term =>
                          a <- dict_index String.eqb vec1 term ;;
                          b <- dict_index String.eqb vec2 term ;;
                          Ok (fmul py a b))
                       common_terms ;;
      let dot_product := fsum py products in
      squares1 <- mapM (fpow2 py) (values vec1) ;;
      mag1 <- math_sqrt (fsum py squares1) ;;
      squares2 <- mapM (fpow2 py) (values vec2) ;;
      mag2 <- math_sqrt (fsum py squares2) ;;
      if feq py mag1 (of_int py 0) || feq py mag2 (of_int py 0)
      then Ok (of_int py 0)
      else py_div dot_product (fmul py mag1 mag2)
  end.

(** The two lookup loops: the position found, and the line printed. *)
Definition find_movie (titles : list string) (movie_title : string)
  : option nat * list string :=
  match find_first
          (fun title =>
             String.eqb (str_lower py title) (str_lower py movie_title))
          0 titles with
  | Some (i, _) => (Some i, [])
  | None =>
      match find_first
              (fun title =>
                 str_in (str_lower py movie_title) (str_lower py title))
              0 titles with
      | Some (i, title) => (Some i, [("Using closest match: " ++ title)%string])
      | None => (None, [])
      end
  end.

(** The ranking part, after the movie was found. *)
Definition rank_similar (catalog : list Movies.row)
    (tfidf_vectors : list (dict string (float py))) (movie_idx : nat) (n : Z)
  : result (list (Content.row (float py))) :=
  similarities <-
    mapM (fun '(i, vec) =>
            v <- list_index tfidf_vectors movie_idx ;;
            score <- cosine_similarity v vec ;;
            Ok (i, score))
         (enumerate tfidf_vectors) ;;
  let similarities :=
    filter (fun '(i, score) => negb (Nat.eqb i movie_idx)) similarities in
  let similarities := sort_desc (flt py) snd similarities in
  let top_indices := map fst (slice_to n similarities) in
  recommendations <- mapM (list_index catalog) top_indices ;;
  Ok (map (fun '(m, (i, score)) =>
             {| Content.index := i;
                Content.title := Movies.title m;
                Content.genres := Movies.genres m;
                Content.similarity := score |})
          (combine recommendations (slice_to n similarities))).

Definition content_based_recommendations (movies_df : MoviesDF)
    (movie_title : string) (n : Z)
  : run MoviesDF (list (Content.row (float py))) :=
  let text := map (fun m => replace_char "|" " " (Movies.genres m))
                  (rows movies_df) in
  let movies_df := {| rows := rows movies_df; genres_text := Some text |} in
  match compute_tfidf text with
  | Raise e => {| tables := movies_df; stdout := []; value := Raise e |}
  | Ok tfidf_vectors =>
      let (movie_idx, out) :=
        find_movie (map Movies.title (rows movies_df)) movie_title in
      match movie_idx with
      | None =>
          {| tables := movies_df;
             stdout := out ++ [("Movie '" ++ movie_title ++ "' not found")%string];
             value := Ok [] |}
      | Some movie_idx =>
          {| tables := movies_df;
             stdout := out;
             value := rank_similar (rows movies_df) tfidf_vectors movie_idx n |}
      end
  end.

(** *** What the specification says of the content filter *)

(** Weight(term, doc) = tf(term, doc) * ln(N / (1 + df[term])). *)
Definition spec_weight (documents : list string) (term doc : string)
  : float py :=
  fmul py (of_int py (spec_tf term doc))
       (flog py (int_div py (Z.of_nat (List.length documents))
                         (1 + spec_df term documents))).

(** The TfIdfVector of a document of a corpus: its distinct tokens, each
    with its weight. *)
Definition spec_vector (documents : list string) (doc : string)
  : dict string (float py) :=
  map (fun t => (t, spec_weight documents t doc))
      (set_of String.eqb (split doc)).

(** The coordinate of a term in a sparse vector. *)
Definition coordinate (vec : dict string (float py)) (t : string) : float py :=
  match dict_get String.eqb vec t with Some a => a | None => of_int py 0 end.

(** The dot product over the intersection of the key sets. *)
Definition dot_product (vecA vecB : dict string (float py)) : float py :=
  fsum py (map (fun t => fmul py (coordinate vecA t) (coordinate vecB t))
               (set_and py (set_of String.eqb (keys vecA))
                        (set_of String.eqb (keys vecB)))).

(** The L2 magnitude over all the terms of a vector; it exists when every
    square is in range. *)
Inductive magnitude (vec : dict string (float py)) : float py -> Prop :=
| magnitude_of (squares : list (float py)) :
    mapM (fpow2 py) (values vec) = Ok squares ->
    flt py (fsum py squares) (of_int py 0) = false ->
    magnitude vec (fsqrt py (fsum py squares)).

(** Section 4.2: 0 for vectors without a common term, 0 when a magnitude
    is 0, else the dot product divided by the product of the magnitudes. *)
Inductive spec_cosine (vecA vecB : dict string (float py))
  : float py -> Prop :=
| cosine_disjoint :
    (forall t, In t (keys vecA) -> ~ In t (keys vecB)) ->
    spec_cosine vecA vecB (of_int py 0)
| cosine_no_magnitude (t : string) (magA magB : float py) :
    In t (keys vecA) -> In t (keys vecB) ->
    magnitude vecA magA -> magnitude vecB magB ->
    feq py magA (of_int py 0) || feq py magB (of_int py 0) = true ->
    spec_cosine vecA vecB (of_int py 0)
| cosine_quotient (t : string) (magA magB : float py) :
    In t (keys vecA) -> In t (keys vecB) ->
    magnitude vecA magA -> magnitude vecB magB ->
    feq py magA (of_int py 0) || feq py magB (of_int py 0) = false ->
    feq py (fmul py magA magB) (of_int py 0) = false ->
    spec_cosine vecA vecB
                (fdiv py (dot_product vecA vecB) (fmul py magA magB)).

(** The title equals the query, case-insensitively. *)
Definition exact_match (query title : string) : Prop :=
  str_lower py title = str_lower py query.

(** The title contains the query as a case-insensitive substring. *)
Definition substring_match (query title : string) : Prop :=
  exists pre post,
    str_lower py title = (pre ++ str_lower py query ++ post)%string.

(** Steps 1 to 3: an exact match wins, the first one in catalog order; else
    the first substring match; else the title is not found. *)
Inductive spec_resolve (titles : list string) (query : string)
  : resolution -> Prop :=
| resolve_exact (i : nat) :
    first_at (exact_match query) titles i ->
    spec_resolve titles query (Exact i)
| resolve_closest (i : nat) :
    (forall t, In t titles -> ~ exact_match query t) ->
    first_at (substring_match query) titles i ->
    spec_resolve titles query (Closest i)
| resolve_not_found :
    (forall t, In t titles -> ~ exact_match query t) ->
    (forall t, In t titles -> ~ substring_match query t) ->
    spec_resolve titles query NotFound.

(** *** Closed forms *)

(** The full ranking of the entries other than [e], given the score of
    every entry against [e] in catalog order. *)
Definition ranking_of (sims : list (float py)) (e : nat)
  : list (nat * float py) :=
  sort_desc (flt py) snd
    (filter (fun '(i, score) => negb (Nat.eqb i e)) (enumerate sims)).

(** The output row made of a catalog position and its score. *)
Definition content_row (catalog : list Movies.row) (p : nat * float py)
  : Content.row (float py) :=
  {| Content.index := fst p;
     Content.title := Movies.title (nth (fst p) catalog no_movie);
     Content.genres := Movies.genres (nth (fst p) catalog no_movie);
     Content.similarity := snd p |}.
End ContentFilter.

(* ------------------------------------------------------------------ *)
(** ** The collaborative filter *)

Section CollaborativeFilter.
Variable np : numpy.

(** [df[df['movieId'] == movie_id]['rating'].values[0]]. *)
Definition first_rating (df : RatingsDF (float64 np)) (movie_id : Z)
  : result (float64 np) :=
  match filter (fun r => Ratings.movieId r =? movie_id) df with
  | r :: _ => Ok (Ratings.rating r)
  | [] => Raise IndexError
  end.

(** The loop over [common_movies] filling the two rating arrays. *)
Fixpoint paired_ratings (user_common other_common : RatingsDF (float64 np))
    (common_movies : list Z)
  : result (list (float64 np) * list (float64 np)) :=
  match common_movies with
  | [] => Ok ([], [])
  | movie_id :: rest =>
      user_rating <- first_rating user_common movie_id ;;
      other_rating <- first_rating other_common movie_id ;;
      ' (us, os) <- paired_ratings user_common other_common rest ;;
      Ok (user_rating :: us, other_rating :: os)
  end.

(** The loop over the other users, in the order of [unique()]. *)
Fixpoint find_similar_users (ratings_df : RatingsDF (float64 np))
    (user_id : Z) (user_ratings : RatingsDF (float64 np))
    (user_rated_movies : list Z) (users : list Z)
  : result (list (Z * float64 np)) :=
  match users with
  | [] => Ok []
  | other_user :: users' =>
      let continue :=
        find_similar_users ratings_df user_id user_ratings user_rated_movies
                           users' in
      if other_user =? user_id then continue
      else
        let other_ratings :=
          filter (fun r => Ratings.userId r =? other_user) ratings_df in
        let common_movies :=
          np_set_and np
            (set_of Z.eqb (map (@Ratings.movieId _) other_ratings))
            user_rated_movies in
        if Z.of_nat (List.length common_movies) <? 5 then continue
        else
          let user_common :=
            filter (fun r => mem Z.eqb (Ratings.movieId r) common_movies)
                   user_ratings in
          let other_common :=
            filter (fun r => mem Z.eqb (Ratings.movieId r) common_movies)
                   other_ratings in
          ' (user_ratings_array, other_ratings_array) <-
            paired_ratings user_common other_common common_movies ;;
          match np_corrcoef np user_ratings_array other_ratings_array with
          | Some similarity =>
              similar_users <- continue ;;
              Ok ((other_user, similarity) :: similar_users)
          | None => continue
          end
  end.

(** The body of the loop over [high_rated]; [movie_id] is the float that
    [row['movieId']] holds.  The entry is created when the movie is new,
    then both of its fields are increased. *)
Definition accumulate (candidate_movies : dict Z (candidate (float64 np)))
    (movie_id : Z) (rating similarity : float64 np)
  : dict Z (candidate (float64 np)) :=
  let candidate_movies :=
    if dict_mem Z.eqb candidate_movies movie_id then candidate_movies
    else dict_set Z.eqb candidate_movies movie_id
                  {| score := np_of_int np 0; weighted_sum := np_of_int np 0 |} in
  match dict_get Z.eqb candidate_movies movie_id with
  | Some data =>
      dict_set Z.eqb candidate_movies movie_id
        {| score := np_add np (score data) similarity;
           weighted_sum :=
             np_add np (weighted_sum data) (np_mul np rating similarity) |}
  | None => candidate_movies
  end.

(** The rows of one neighbour that are aggregated. *)
Definition high_rated (ratings_df : RatingsDF (float64 np))
    (user_rated_movies : list Z) (similar_user : Z)
  : RatingsDF (float64 np) :=
  let similar_user_ratings :=
    filter (fun r => (Ratings.userId r =? similar_user)
                     && negb (mem Z.eqb (Ratings.movieId r) user_rated_movies))
           ratings_df in
  filter (fun r => np_le np (np_of_int np 4) (Ratings.rating r))
         similar_user_ratings.

(** The aggregation loop over the neighbours that were kept. *)
Definition aggregate (ratings_df : RatingsDF (float64 np))
    (user_rated_movies : list Z) (neighbours : list (Z * float64 np))
  : dict Z (candidate (float64 np)) :=
  fold_left
    (fun candidate_movies '(similar_user, similarity) =>
       fold_left
         (fun candidate_movies r =>
            accumulate candidate_movies
                       (float64_of_int (Ratings.movieId r))
                       (Ratings.rating r) similarity)
         (high_rated ratings_df user_rated_movies similar_user)
         candidate_movies)
    neighbours [].

(** The predicted ratings, in the order of [candidate_movies.items()]. *)
Definition predict (candidate_movies : dict Z (candidate (float64 np)))
  : list (Z * float64 np) :=
  flat_map
    (fun '(movie_id, data) =>
       if np_lt np (np_of_int np 0) (score data)
       then [(movie_id, np_div np (weighted_sum data) (score data))]
       else [])
    candidate_movies.

(** The join with the catalog: [movies_df['movieId'] == movie_id] compares
    the ids of the catalog, as floats, with the float [movie_id]. *)
Definition movie_details (movies_df : MoviesDF)
    (top_movies : list (Z * float64 np))
  : list (Collab.row (float64 np)) :=
  flat_map
    (fun '(movie_id, pred_rating) =>
       match filter (fun m => float64_of_int (Movies.movieId m) =? movie_id)
                    (rows movies_df)
       with
       | [] => []
       | movie :: _ =>
           [ {| Collab.title := Movies.title movie;
                Collab.genres := Movies.genres movie;
                Collab.predicted_rating := pred_rating |} ]
       end)
    top_movies.

Definition collaborative_recommendations
    (ratings_df : RatingsDF (float64 np)) (movies_df : MoviesDF)
    (user_id : Z) (n : Z)
  : run (RatingsDF (float64 np) * MoviesDF) (list (Collab.row (float64 np))) :=
  let users := set_of Z.eqb (map (@Ratings.userId _) ratings_df) in
  if negb (mem Z.eqb user_id users) then
    {| tables := (ratings_df, movies_df);
       stdout := [("User " ++ str_of_int user_id ++ " not found")%string];
       value := Ok [] |}
  else
    let user_ratings :=
      filter (fun r => Ratings.userId r =? user_id) ratings_df in
    let user_rated_movies :=
      set_of Z.eqb (map (@Ratings.movieId _) user_ratings) in
    {| tables := (ratings_df, movies_df);
       stdout := [];
       value :=
         similar_users <-
           find_similar_users ratings_df user_id user_ratings
                              user_rated_movies users ;;
         let similar_users := sort_desc (np_lt np) snd similar_users in
         let candidate_movies :=
           aggregate ratings_df user_rated_movies (slice_to 10 similar_users) in
         let predictions :=
           sort_desc (np_lt np) snd (predict candidate_movies) in
         let top_movies := slice_to n predictions in
         Ok (movie_details movies_df top_movies) |}.

(** *** What the specification says of the collaborative filter *)

(** User [u] has a rating of item [m] in the log. *)
Definition rated_by (ratings_df : RatingsDF (float64 np)) (u m : Z) : Prop :=
  exists r, In r ratings_df /\ Ratings.userId r = u /\ Ratings.movieId r = m.

(** The rating of item [m] by user [u]: the one of the first such row. *)
Definition rating_of (ratings_df : RatingsDF (float64 np)) (u m : Z)
  : float64 np :=
  match filter (fun r => (Ratings.userId r =? u) && (Ratings.movieId r =? m))
               ratings_df with
  | r :: _ => Ratings.rating r
  | [] => np_of_int np 0
  end.

(** [common] lists, once each, the items rated by both [u] and [target]. *)
Definition common_items (ratings_df : RatingsDF (float64 np)) (target u : Z)
    (common : list Z) : Prop :=
  NoDup common /\
  forall m, In m common <->
            rated_by ratings_df u m /\ rated_by ratings_df target m.

(** The rows of a user, and the common items of two users in the order in
    which the set that holds them is iterated. *)
Definition user_rows (ratings_df : RatingsDF (float64 np)) (u : Z)
  : RatingsDF (float64 np) :=
  filter (fun r => Ratings.userId r =? u) ratings_df.

Definition rated_movies (ratings_df : RatingsDF (float64 np)) (u : Z)
  : list Z :=
  set_of Z.eqb (map (@Ratings.movieId _) (user_rows ratings_df u)).

Definition common_movies_of (ratings_df : RatingsDF (float64 np))
    (target u : Z) : list Z :=
  np_set_and np (rated_movies ratings_df u) (rated_movies ratings_df target).

(** Steps 2 and 3, as the code has them: [u] is a candidate neighbour of
    [target] with correlation [s] when it is another user of the log, the
    two share at least 5 items, and [np.corrcoef] over the paired ratings
    of the shared items is the number [s], not nan. *)
Definition spec_neighbour (ratings_df : RatingsDF (float64 np))
    (target u : Z) (s : float64 np) : Prop :=
  u <> target /\
  In u (map (@Ratings.userId _) ratings_df) /\
  (exists common,
      common_items ratings_df target u common /\
      (5 <= List.length common)%nat) /\
  np_corrcoef np
    (map (rating_of ratings_df target) (common_movies_of ratings_df target u))
    (map (rating_of ratings_df u) (common_movies_of ratings_df target u))
  = Some s.

(** The ratings >= 4.0 that user [u] gave to item [m], in log order. *)
Definition high_ratings_of (ratings_df : RatingsDF (float64 np)) (u m : Z)
  : list (float64 np) :=
  map (@Ratings.rating _)
      (filter (fun r => (Ratings.userId r =? u) && (Ratings.movieId r =? m)
                        && np_le np (np_of_int np 4) (Ratings.rating r))
              ratings_df).

(** Step 5: weight[item], s added once for each high rating of the item by
    a neighbour (u, s), neighbours in rank order, starting from 0. *)
Definition spec_weight_of (ratings_df : RatingsDF (float64 np))
    (neighbours : list (Z * float64 np)) (m : Z) : float64 np :=
  fold_left (np_add np)
    (flat_map (fun '(u, s) => map (fun _ => s)
                                  (high_ratings_of ratings_df u m))
              neighbours)
    (np_of_int np 0).

(** Step 5: weighted_sum[item], rating * s added for each of the same. *)
Definition spec_weighted_sum (ratings_df : RatingsDF (float64 np))
    (neighbours : list (Z * float64 np)) (m : Z) : float64 np :=
  fold_left (np_add np)
    (flat_map (fun '(u, s) => map (fun x => np_mul np x s)
                                  (high_ratings_of ratings_df u m))
              neighbours)
    (np_of_int np 0).

(** Step 7: the join of a list of predictions with the catalog.  An item
    gets the title and genres of the first catalog row with its id; an item
    without such a row is left out. *)
Inductive joined (movies_df : MoviesDF)
  : list (Z * float64 np) -> list (Collab.row (float64 np)) -> Prop :=
| joined_nil : joined movies_df [] []
| joined_found (m : Z) (p : float64 np) (i : nat) (movie : Movies.row)
    (rest : list (Z * float64 np)) (out : list (Collab.row (float64 np))) :
    first_at (fun x => Movies.movieId x = m) (rows movies_df) i ->
    nth_error (rows movies_df) i = Some movie ->
    joined movies_df rest out ->
    joined movies_df ((m, p) :: rest)
           ({| Collab.title := Movies.title movie;
               Collab.genres := Movies.genres movie;
               Collab.predicted_rating := p |} :: out)
| joined_missing (m : Z) (p : float64 np) (rest : list (Z * float64 np))
    (out : list (Collab.row (float64 np))) :
    (forall x, In x (rows movies_df) -> Movies.movieId x <> m) ->
    joined movies_df rest out ->
    joined movies_df ((m, p) :: rest) out.


(** The glossary's "undefined when either sequence is constant". *)
Definition constant (l : list (float64 np)) : Prop :=
  forall x y, In x l -> In y l -> x = y.

(** *** Closed forms *)

Definition similarity_of (ratings_df : RatingsDF (float64 np))
    (target u : Z) : option (float64 np) :=
  let common := common_movies_of ratings_df target u in
  if Z.of_nat (List.length common) <? 5 then None
  else np_corrcoef np (map (rating_of ratings_df target) common)
                      (map (rating_of ratings_df u) common).

Definition neighbours_of (ratings_df : RatingsDF (float64 np)) (target : Z)
    (users : list Z) : list (Z * float64 np) :=
  flat_map
    (fun u =>
       if u =? target then []
       else match similarity_of ratings_df target u with
            | Some s => [(u, s)]
            | None => []
            end)
    users.

(** The candidate neighbours in rank order, and those that take part in
    the aggregation. *)
Definition ranked_neighbours (ratings_df : RatingsDF (float64 np))
    (target : Z) : list (Z * float64 np) :=
  sort_desc (np_lt np) snd
    (neighbours_of ratings_df target
       (set_of Z.eqb (map (@Ratings.userId _) ratings_df))).

Definition top_neighbours (ratings_df : RatingsDF (float64 np)) (target : Z)
  : list (Z * float64 np) :=
  slice_to 10 (ranked_neighbours ratings_df target).

(** The rows that the aggregation loop visits, in order: the float of the
    item id, the rating and the similarity of the neighbour. *)
Definition events (ratings_df : RatingsDF (float64 np))
    (user_rated_movies : list Z) (neighbours : list (Z * float64 np))
  : list (Z * float64 np * float64 np) :=
  flat_map
    (fun '(u, s) =>
       map (fun r => (float64_of_int (Ratings.movieId r), Ratings.rating r, s))
           (high_rated ratings_df user_rated_movies u))
    neighbours.

Definition score_of (d : dict Z (candidate (float64 np))) (m : Z)
  : float64 np :=
  match dict_get Z.eqb d m with Some c => score c | None => np_of_int np 0 end.

Definition weighted_sum_of (d : dict Z (candidate (float64 np))) (m : Z)
  : float64 np :=
  match dict_get Z.eqb d m with
  | Some c => weighted_sum c
  | None => np_of_int np 0
  end.
End CollaborativeFilter.

(* ------------------------------------------------------------------ *)
(** ** Three interpreters *)

(** Exact arithmetic on real numbers, the reading of the first part. *)
Definition real_python : python :=
  {| float := R;
     of_int := IZR;
     int_div := fun a b => (IZR a / IZR b)%R;
     fmul := Rmult;
     fdiv := Rdiv;
     flog := ln;
     fsqrt := sqrt;
     fpow2 := fun x => Ok (x ^ 2)%R;
     fsum := sum;
     flt := Rltb;
     feq := Reqb;
     isnan := fun _ => false;
     str_lower := lower;
     set_and := set_inter String.eqb |}.

Definition real_numpy : numpy :=
  {| float64 := R;
     np_of_int := IZR;
     np_add := Rplus;
     np_mul := Rmult;
     np_div := Rdiv;
     np_lt := Rltb;
     np_le := Rleb;
     np_isnan := fun _ => false;
     np_corrcoef := corrcoef;
     np_set_and := set_inter Z.eqb |}.

(** numpy on the kernel's binary64 floats.  [np.corrcoef] as numpy
    computes it: the means by a sum from left to right, the deviations,
    their products summed and scaled by [1 / (n - 1)], the covariance
    divided by both standard deviations and clipped to [-1, 1]. *)
Definition b64_of_int (i : Z) : PrimFloat.float :=
  if i <? 0 then PrimFloat.opp (PrimFloat.of_uint63 (Uint63.of_Z (- i)))
  else PrimFloat.of_uint63 (Uint63.of_Z i).

Definition b64_sum (l : list PrimFloat.float) : PrimFloat.float :=
  fold_left PrimFloat.add l (b64_of_int 0).

Definition b64_mean (l : list PrimFloat.float) : PrimFloat.float :=
  PrimFloat.div (b64_sum l) (b64_of_int (Z.of_nat (List.length l))).

Definition b64_dot (xs ys : list PrimFloat.float) : PrimFloat.float :=
  b64_sum (map (fun '(x, y) => PrimFloat.mul x y) (combine xs ys)).

Definition b64_clip (x : PrimFloat.float) : PrimFloat.float :=
  if PrimFloat.ltb x (b64_of_int (-1)) then b64_of_int (-1)
  else if PrimFloat.ltb (b64_of_int 1) x then b64_of_int 1
  else x.

Definition b64_corrcoef (xs ys : list PrimFloat.float)
  : option PrimFloat.float :=
  let dx := map (fun x => PrimFloat.sub x (b64_mean xs)) xs in
  let dy := map (fun y => PrimFloat.sub y (b64_mean ys)) ys in
  let scale :=
    PrimFloat.div (b64_of_int 1)
                  (b64_of_int (Z.of_nat (List.length xs) - 1)) in
  let cxx := PrimFloat.mul (b64_dot dx dx) scale in
  let cyy := PrimFloat.mul (b64_dot dy dy) scale in
  let cxy := PrimFloat.mul (b64_dot dx dy) scale in
  let c := b64_clip (PrimFloat.div (PrimFloat.div cxy (PrimFloat.sqrt cxx))
                                   (PrimFloat.sqrt cyy)) in
  if PrimFloat.is_nan c then None else Some c.

Definition binary64 : numpy :=
  {| float64 := PrimFloat.float;
     np_of_int := b64_of_int;
     np_add := PrimFloat.add;
     np_mul := PrimFloat.mul;
     np_div := PrimFloat.div;
     np_lt := PrimFloat.ltb;
     np_le := PrimFloat.leb;
     np_isnan := PrimFloat.is_nan;
     np_corrcoef := b64_corrcoef;
     np_set_and := set_inter Z.eqb |}.
End Runtime.

(* ================================================================== *)
(** * Sample tables for the interpreters *)

(** A catalog in which the entries share genres to different degrees. *)
Definition genre_catalog : MoviesDF :=
  {| rows :=
       [ {| Movies.movieId := 1; Movies.title := "Toy Story (1995)";
            Movies.genres := "Adventure|Animation|Children" |};
         {| Movies.movieId := 2; Movies.title := "Jumanji (1995)";
            Movies.genres := "Adventure|Children|Fantasy" |};
         {| Movies.movieId := 6; Movies.title := "Heat (1995)";
            Movies.genres := "Action|Crime|Thriller" |};
         {| Movies.movieId := 10; Movies.title := "GoldenEye (1995)";
            Movies.genres := "Action|Adventure|Thriller" |};
         {| Movies.movieId := 16; Movies.title := "Casino (1995)";
            Movies.genres := "Crime|Drama" |} ];
     genres_text := None |}.

(** The rating log of [sample_ratings] with whole ratings, for any numpy:
    user 2 shares five items with user 1, user 3 only four. *)
Definition sample_log (np : Runtime.numpy)
  : Runtime.RatingsDF (Runtime.float64 np) :=
  map (fun '(u, m, x) =>
         {| Runtime.Ratings.userId := u; Runtime.Ratings.movieId := m;
            Runtime.Ratings.rating := Runtime.np_of_int np x |})
      [ (1, 11, 1); (1, 12, 2); (1, 13, 3); (1, 14, 4); (1, 15, 5);
        (2, 11, 1); (2, 12, 2); (2, 13, 3); (2, 14, 4); (2, 15, 5);
        (2, 6, 5); (2, 99, 4); (2, 1, 3);
        (3, 11, 5); (3, 12, 4); (3, 13, 3); (3, 14, 1); (3, 2, 5) ].

(** A log in binary64 in which user 1 gives the same rating, 0.7, to six
    items that user 2 rates differently; user 2 also rates item 6. *)
Definition constant_log : Runtime.RatingsDF PrimFloat.float :=
  let r u m x :=
    {| Runtime.Ratings.userId := u; Runtime.Ratings.movieId := m;
       Runtime.Ratings.rating := x |} in
  let c := PrimFloat.div (Runtime.b64_of_int 7) (Runtime.b64_of_int 10) in
  [ r 1 11 c; r 1 12 c; r 1 13 c; r 1 14 c; r 1 15 c; r 1 16 c;
    r 2 11 (Runtime.b64_of_int 1); r 2 12 (Runtime.b64_of_int 2);
    r 2 13 (Runtime.b64_of_int 3); r 2 14 (Runtime.b64_of_int 4);
    r 2 15 (Runtime.b64_of_int 5); r 2 16 (Runtime.b64_of_int 3);
    r 2 6 (Runtime.b64_of_int 5) ].

(** A log and a catalog with two item ids, 2^53 and 2^53 + 1, that have
    the same binary64 value.  User 1 has rated the first, user 2, who
    rates five other items as user 1 does, the second. *)
Definition big_id_log : Runtime.RatingsDF PrimFloat.float :=
  map (fun '(u, m, x) =>
         {| Runtime.Ratings.userId := u; Runtime.Ratings.movieId := m;
            Runtime.Ratings.rating := Runtime.b64_of_int x |})
      [ (1, 11, 1); (1, 12, 2); (1, 13, 3); (1, 14, 4); (1, 15, 5);
        (1, 2 ^ 53, 5);
        (2, 11, 1); (2, 12, 2); (2, 13, 3); (2, 14, 4); (2, 15, 5);
        (2, 2 ^ 53 + 1, 5) ].

Definition big_id_catalog : MoviesDF :=
  {| rows :=
       [ {| Movies.movieId := 2 ^ 53; Movies.title := "Seen";
            Movies.genres := "Drama" |};
         {| Movies.movieId := 2 ^ 53 + 1; Movies.title := "Unseen";
            Movies.genres := "Comedy" |} ];
     genres_text := None |}.

(** Three users in binary64: user 2 rates the five items of user 1 one
    point higher each, user 3 rates them the other way round; both give
    item 20 a 5. *)
Definition opposed_log : Runtime.RatingsDF PrimFloat.float :=
  map (fun '(u, m, x) =>
         {| Runtime.Ratings.userId := u; Runtime.Ratings.movieId := m;
            Runtime.Ratings.rating := Runtime.b64_of_int x |})
      [ (1, 11, 2); (1, 12, 1); (1, 13, 1); (1, 14, 1); (1, 15, 1);
        (2, 11, 3); (2, 12, 2); (2, 13, 2); (2, 14, 2); (2, 15, 2);
        (2, 20, 5);
        (3, 11, 1); (3, 12, 2); (3, 13, 2); (3, 14, 2); (3, 15, 2);
        (3, 20, 5) ].

(** [s.lower()] on UTF-8 text of the Latin-1 range: the letters A to Z
    and the letters of U+00C0 to U+00DE (all but the sign U+00D7), which
    UTF-8 writes as the byte 195 and a byte from 128 to 158, are folded. *)
Fixpoint lower_latin1 (s : string) : string :=
  match s with
  | EmptyString => EmptyString
  | String c s' =>
      if (nat_of_ascii c =? 195)%nat then
        match s' with
        | EmptyString => String c EmptyString
        | String d s'' =>
            let n := nat_of_ascii d in
            String c
              (String (if ((128 <=? n) && (n <=? 158) && negb (n =? 151))%nat
                       then ascii_of_nat (n + 32) else d)
                      (lower_latin1 s''))
        end
      else String (lower_ascii c) (lower_latin1 s')
  end.

(** An interpreter with another [str.lower]. *)
Definition with_lower (py : Runtime.python) (f : string -> string)
  : Runtime.python :=
  {| Runtime.float := Runtime.float py;
     Runtime.of_int := Runtime.of_int py;
     Runtime.int_div := Runtime.int_div py;
     Runtime.fmul := Runtime.fmul py;
     Runtime.fdiv := Runtime.fdiv py;
     Runtime.flog := Runtime.flog py;
     Runtime.fsqrt := Runtime.fsqrt py;
     Runtime.fpow2 := Runtime.fpow2 py;
     Runtime.fsum := Runtime.fsum py;
     Runtime.flt := Runtime.flt py;
     Runtime.feq := Runtime.feq py;
     Runtime.isnan := Runtime.isnan py;
     Runtime.str_lower := f;
     Runtime.set_and := Runtime.set_and py |}.

(** "École (2012)" and "école" in UTF-8. *)
Definition ecole_title : string :=
  String (ascii_of_nat 195) (String (ascii_of_nat 137) "cole (2012)").

Definition ecole_query : string :=
  String (ascii_of_nat 195) (String (ascii_of_nat 169) "cole").

(* ================================================================== *)
(** * Properties *)

Unset Implicit Arguments.

(** ** Small runs of the helpers *)

Example split_genres :
  split " Action  Adventure Sci-Fi " = ["Action"; "Adventure"; "Sci-Fi"].
Proof. reflexivity. Qed.

Example counter_example :
  Counter ["a"; "b"; "a"] = [("a", 2); ("b", 1)].
Proof. reflexivity. Qed.

Example slice_to_example :
  (slice_to 2 [1; 2; 3], slice_to 7 [1; 2; 3],
   slice_to (-1) [1; 2; 3], slice_to (-5) [1; 2; 3])
  = ([1; 2], [1; 2; 3], [1; 2], []).
Proof. reflexivity. Qed.

Example set_of_example : set_of Z.eqb [3; 1; 3; 2; 1] = [3; 1; 2].
Proof. reflexivity. Qed.

Example lower_example : lower "HeLLo [World]" = "hello [world]".
Proof. reflexivity. Qed.

Example str_in_example :
  (str_in "" "abc", str_in "bc" "abc", str_in "ac" "abc")
  = (true, true, false).
Proof. reflexivity. Qed.

Example find_movie_example :
  (find_movie (map Movies.title (rows sample_catalog)) "JUMANJI (1995)",
   find_movie (map Movies.title (rows sample_catalog)) "(1995)",
   find_movie (map Movies.title (rows sample_catalog)) "alien")
  = ((Some 1%nat, []),
     (Some 0%nat, ["Using closest match: Toy Story (1995)"]),
     (None, [])).
Proof. reflexivity. Qed.

Example doc_freq_example :
  doc_freq [["a"; "a"]; ["b"; "a"]] = [("a", 2); ("b", 1)].
Proof. reflexivity. Qed.


(** ** The result monad and the float tests *)

Lemma Rltb_true (x y : R) : Rltb x y = true <-> (x < y)%R.
Proof. unfold Rltb; destruct (Rlt_dec x y); split; intros; auto; discriminate. Qed.

Lemma Rltb_false (x y : R) : Rltb x y = false <-> (y <= x)%R.
Proof.
  unfold Rltb; destruct (Rlt_dec x y); split; intros; auto; try discriminate; lra.
Qed.

Lemma Rleb_true (x y : R) : Rleb x y = true <-> (x <= y)%R.
Proof. unfold Rleb; destruct (Rle_dec x y); split; intros; auto; discriminate. Qed.

Lemma Reqb_true (x y : R) : Reqb x y = true <-> x = y.
Proof. unfold Reqb; destruct (Req_dec_T x y); split; intros; auto; discriminate. Qed.

Lemma Reqb_false (x y : R) : Reqb x y = false <-> x <> y.
Proof.
  unfold Reqb; destruct (Req_dec_T x y); split; intros; auto;
    try discriminate; contradiction.
Qed.

Lemma py_div_ok (x y : R) : y <> 0%R -> py_div x y = Ok (x / y)%R.
Proof.
  intros H; unfold py_div.
  destruct (Reqb y 0) eqn:E; [apply Reqb_true in E; contradiction | reflexivity].
Qed.

Lemma math_log_ok (x : R) : (0 < x)%R -> math_log x = Ok (ln x).
Proof.
  intros H; unfold math_log.
  destruct (Rltb 0 x) eqn:E; [reflexivity | apply Rltb_false in E; lra].
Qed.

Lemma math_sqrt_ok (x : R) : (0 <= x)%R -> math_sqrt x = Ok (sqrt x).
Proof.
  intros H; unfold math_sqrt, Rleb.
  destruct (Rle_dec 0 x); [reflexivity | contradiction].
Qed.

Lemma mapM_ok {A B : Type} (f : A -> result B) (g : A -> B) (l : list A) :
  (forall x, In x l -> f x = Ok (g x)) -> mapM f l = Ok (map g l).
Proof.
  induction l as [|x l IH]; intros H; simpl; [reflexivity|].
  rewrite (H x (or_introl eq_refl)); simpl.
  rewrite IH by (intros y Hy; apply H; right; exact Hy).
  reflexivity.
Qed.

Lemma mapM_map {A B C : Type} (h : A -> B) (f : B -> result C) (l : list A) :
  mapM f (map h l) = mapM (fun x => f (h x)) l.
Proof.
  induction l as [|x l IH]; simpl; [reflexivity|].
  rewrite IH; reflexivity.
Qed.

Lemma sum_from (l : list R) (a : R) : fold_left Rplus l a = (a + sum l)%R.
Proof.
  unfold sum; revert a.
  induction l as [|x l IH]; intros a; simpl; [lra|].
  rewrite (IH (a + x)%R), (IH (0 + x)%R); lra.
Qed.

Lemma sum_cons (x : R) (l : list R) : sum (x :: l) = (x + sum l)%R.
Proof. unfold sum at 1; simpl; rewrite sum_from; lra. Qed.

Lemma sum_nonneg (l : list R) :
  (forall x, In x l -> (0 <= x)%R) -> (0 <= sum l)%R.
Proof.
  induction l as [|x l IH]; intros H.
  - unfold sum; simpl; lra.
  - rewrite sum_cons.
    assert (0 <= x)%R by (apply H; left; reflexivity).
    assert (0 <= sum l)%R by (apply IH; intros y Hy; apply H; right; exact Hy).
    lra.
Qed.

(** ** Dictionaries and sets *)

Section DictFacts.
Context {K V : Type} {eqb : K -> K -> bool}.
Hypothesis eqb_eq : forall a b, eqb a b = true <-> a = b.

Lemma eqb_refl' (a : K) : eqb a a = true.
Proof. apply eqb_eq; reflexivity. Qed.

Lemma eqb_neq (a b : K) : eqb a b = false <-> a <> b.
Proof.
  destruct (eqb a b) eqn:E; split; intros H; try discriminate; auto.
  - apply eqb_eq in E; contradiction.
  - intros Hab; apply eqb_eq in Hab; congruence.
Qed.

Lemma mem_In (k : K) (l : list K) : mem eqb k l = true <-> In k l.
Proof.
  unfold mem; rewrite existsb_exists; split.
  - intros [x [Hx E]]; apply eqb_eq in E; subst; exact Hx.
  - intros H; exists k; split; [exact H | apply eqb_refl'].
Qed.

Lemma mem_not_In (k : K) (l : list K) : mem eqb k l = false <-> ~ In k l.
Proof.
  rewrite <- mem_In; destruct (mem eqb k l); split; intros; auto;
    try discriminate; exfalso; auto.
Qed.

Lemma unique_from_In (l seen : list K) (x : K) :
  In x (unique_from eqb seen l) <-> In x l /\ ~ In x seen.
Proof.
  revert seen; induction l as [|y l IH]; intros seen; simpl.
  - tauto.
  - destruct (mem eqb y seen) eqn:E.
    + apply mem_In in E; rewrite IH; split.
      * tauto.
      * intros [[->|H] Hn]; [contradiction | tauto].
    + apply mem_not_In in E; simpl; rewrite IH; simpl; split.
      * intros [->|[H Hn]]; [tauto|]. split; [tauto|]. intros Hs; apply Hn; auto.
      * intros [[->|H] Hn]; [tauto|].
        destruct (eqb y x) eqn:Eyx.
        -- apply eqb_eq in Eyx; auto.
        -- apply eqb_neq in Eyx; right; split; [exact H|].
           intros [Hy|Hs]; [contradiction | contradiction].
Qed.

Lemma unique_from_NoDup (l seen : list K) : NoDup (unique_from eqb seen l).
Proof.
  revert seen; induction l as [|y l IH]; intros seen; simpl.
  - constructor.
  - destruct (mem eqb y seen); [apply IH|].
    constructor; [|apply IH].
    rewrite unique_from_In; simpl; tauto.
Qed.

Lemma unique_from_ext (l s1 s2 : list K) :
  (forall x, In x s1 <-> In x s2) ->
  unique_from eqb s1 l = unique_from eqb s2 l.
Proof.
  revert s1 s2; induction l as [|y l IH]; intros s1 s2 H; simpl; [reflexivity|].
  assert (E : mem eqb y s1 = mem eqb y s2).
  { destruct (mem eqb y s2) eqn:E2.
    - apply mem_In; apply H; apply mem_In; exact E2.
    - apply mem_not_In; rewrite H; apply mem_not_In; exact E2. }
  rewrite E; destruct (mem eqb y s2).
  - apply IH; exact H.
  - f_equal; apply IH; intros x; simpl; rewrite H; tauto.
Qed.

Lemma set_of_In (l : list K) (x : K) : In x (set_of eqb l) <-> In x l.
Proof. unfold set_of; rewrite unique_from_In; simpl; tauto. Qed.

Lemma set_of_NoDup (l : list K) : NoDup (set_of eqb l).
Proof. apply unique_from_NoDup. Qed.

Lemma set_inter_In (a b : list K) (x : K) :
  In x (set_inter eqb a b) <-> In x a /\ In x b.
Proof. unfold set_inter; rewrite filter_In, mem_In; tauto. Qed.

Lemma dict_get_None (d : dict K V) (k : K) :
  dict_get eqb d k = None <-> ~ In k (keys d).
Proof.
  induction d as [|[k' v] d IH]; simpl; [tauto|].
  destruct (eqb k' k) eqn:E.
  - apply eqb_eq in E; split; [discriminate | intros H; exfalso; auto].
  - apply eqb_neq in E; rewrite IH; tauto.
Qed.

Lemma dict_get_Some_In (d : dict K V) (k : K) (v : V) :
  dict_get eqb d k = Some v -> In (k, v) d.
Proof.
  induction d as [|[k' v'] d IH]; simpl; [discriminate|].
  destruct (eqb k' k) eqn:E.
  - apply eqb_eq in E; intros H; inversion H; subst; left; reflexivity.
  - intros H; right; apply IH; exact H.
Qed.

Lemma In_dict_get (d : dict K V) (k : K) (v : V) :
  NoDup (keys d) -> In (k, v) d -> dict_get eqb d k = Some v.
Proof.
  induction d as [|[k' v'] d IH]; simpl; [tauto|].
  intros Hnd [H|H].
  - inversion H; subst; rewrite eqb_refl'; reflexivity.
  - inversion Hnd as [|? ? Hnot Hnd']; subst.
    destruct (eqb k' k) eqn:E.
    + apply eqb_eq in E; subst; exfalso; apply Hnot.
      change k with (fst (k, v)); apply in_map; exact H.
    + apply IH; assumption.
Qed.

Lemma In_keys_get (d : dict K V) (k : K) :
  In k (keys d) -> exists v, dict_get eqb d k = Some v.
Proof.
  intros H; destruct (dict_get eqb d k) as [v|] eqn:E; [exists v; reflexivity|].
  apply dict_get_None in E; contradiction.
Qed.

Lemma dict_mem_In (d : dict K V) (k : K) :
  dict_mem eqb d k = true <-> In k (keys d).
Proof.
  unfold dict_mem; destruct (dict_get eqb d k) eqn:E.
  - split; [intros _|reflexivity].
    apply dict_get_Some_In in E; change k with (fst (k, v)); apply in_map; exact E.
  - apply dict_get_None in E; split; [discriminate | contradiction].
Qed.

Lemma dict_get_set (d : dict K V) (k k' : K) (v : V) :
  dict_get eqb (dict_set eqb d k v) k' =
  if eqb k k' then Some v else dict_get eqb d k'.
Proof.
  induction d as [|[k0 v0] d IH]; simpl.
  - reflexivity.
  - destruct (eqb k0 k) eqn:E0; simpl.
    + apply eqb_eq in E0; subst k0.
      destruct (eqb k k'); reflexivity.
    + destruct (eqb k0 k') eqn:E1.
      * apply eqb_eq in E1; subst k0.
        destruct (eqb k k') eqn:E2; [|reflexivity].
        apply eqb_eq in E2; subst; rewrite eqb_refl' in E0; discriminate.
      * exact IH.
Qed.

Lemma dict_set_fresh (d : dict K V) (k : K) (v : V) :
  ~ In k (keys d) -> dict_set eqb d k v = d ++ [(k, v)].
Proof.
  induction d as [|[k0 v0] d IH]; simpl; intros H; [reflexivity|].
  destruct (eqb k0 k) eqn:E.
  - apply eqb_eq in E; subst; exfalso; auto.
  - rewrite IH by tauto; reflexivity.
Qed.

Lemma keys_set_present (d : dict K V) (k : K) (v : V) :
  In k (keys d) -> keys (dict_set eqb d k v) = keys d.
Proof.
  induction d as [|[k0 v0] d IH]; simpl; intros H; [contradiction|].
  destruct (eqb k0 k) eqn:E; simpl; [reflexivity|].
  apply eqb_neq in E; f_equal; apply IH; destruct H; [contradiction | assumption].
Qed.

Lemma dict_ext (d : dict K V) (g : K -> V) :
  (forall k v, In (k, v) d -> v = g k) ->
  d = map (fun k => (k, g k)) (keys d).
Proof.
  induction d as [|[k v] d IH]; simpl; intros H; [reflexivity|].
  rewrite (H k v) by (left; reflexivity).
  f_equal; apply IH; intros k' v' Hin; apply H; right; exact Hin.
Qed.
End DictFacts.

(** ** The vectorizer in closed form *)

Lemma freq_of_incr (d : dict string Z) (t t' : string) :
  freq_of (incr d t) t' = freq_of d t' + (if String.eqb t t' then 1 else 0).
Proof.
  unfold freq_of, incr.
  destruct (dict_get String.eqb d t) as [c|] eqn:E;
    rewrite (dict_get_set String.eqb_eq);
    destruct (String.eqb t t') eqn:Ett.
  - apply String.eqb_eq in Ett; subst; rewrite E; reflexivity.
  - lia.
  - apply String.eqb_eq in Ett; subst; rewrite E; reflexivity.
  - lia.
Qed.

Lemma freq_of_fold_incr (l : list string) (d : dict string Z) (t : string) :
  freq_of (fold_left incr l d) t = freq_of d t + count t l.
Proof.
  revert d; induction l as [|x l IH]; intros d; simpl.
  - unfold count; simpl; lia.
  - rewrite IH, freq_of_incr; unfold count; simpl.
    destruct (string_dec x t) as [->|Hne].
    + rewrite String.eqb_refl; lia.
    + destruct (String.eqb x t) eqn:E; [apply String.eqb_eq in E; contradiction | lia].
Qed.

Lemma keys_incr (d : dict string Z) (t : string) :
  keys (incr d t) = if mem String.eqb t (keys d) then keys d else keys d ++ [t].
Proof.
  unfold incr.
  destruct (dict_get String.eqb d t) as [c|] eqn:E.
  - assert (H : In t (keys d)).
    { apply dict_get_Some_In in E; [|exact String.eqb_eq].
      change t with (fst (t, c)); apply in_map; exact E. }
    rewrite (keys_set_present String.eqb_eq) by exact H.
    apply (mem_In String.eqb_eq) in H; rewrite H; reflexivity.
  - apply (dict_get_None String.eqb_eq) in E.
    rewrite (dict_set_fresh String.eqb_eq) by exact E.
    apply (mem_not_In String.eqb_eq) in E; rewrite E.
    unfold keys; rewrite map_app; reflexivity.
Qed.

Lemma keys_fold_incr (l : list string) (d : dict string Z) :
  keys (fold_left incr l d) = keys d ++ unique_from String.eqb (keys d) l.
Proof.
  revert d; induction l as [|x l IH]; intros d; simpl.
  - rewrite app_nil_r; reflexivity.
  - rewrite IH, keys_incr.
    destruct (mem String.eqb x (keys d)) eqn:E; [reflexivity|].
    rewrite <- app_assoc; simpl; do 2 f_equal.
    apply (unique_from_ext String.eqb_eq).
    intros y; rewrite in_app_iff; simpl; tauto.
Qed.

Lemma Counter_keys (tokens : list string) :
  keys (Counter tokens) = set_of String.eqb tokens.
Proof. unfold Counter; rewrite keys_fold_incr; reflexivity. Qed.

Lemma Counter_closed (tokens : list string) :
  Counter tokens =
  map (fun t => (t, count t tokens)) (set_of String.eqb tokens).
Proof.
  rewrite <- Counter_keys.
  apply dict_ext; intros k v Hin.
  assert (Hnd : NoDup (keys (Counter tokens)))
    by (rewrite Counter_keys; apply set_of_NoDup; exact String.eqb_eq).
  pose proof (In_dict_get String.eqb_eq _ _ _ Hnd Hin) as Hget.
  pose proof (freq_of_fold_incr tokens [] k) as Hf.
  fold (Counter tokens) in Hf; unfold freq_of at 1 in Hf.
  rewrite Hget in Hf; simpl in Hf; exact Hf.
Qed.

Lemma count_set_of (t : string) (tokens : list string) :
  count t (set_of String.eqb tokens) =
  if mem String.eqb t tokens then 1 else 0.
Proof.
  unfold count.
  pose proof (set_of_NoDup String.eqb_eq tokens) as Hnd.
  rewrite (NoDup_count_occ string_dec) in Hnd; specialize (Hnd t).
  destruct (mem String.eqb t tokens) eqn:E.
  - apply (mem_In String.eqb_eq) in E.
    apply (set_of_In String.eqb_eq) in E.
    apply (count_occ_In string_dec) in E; lia.
  - apply (mem_not_In String.eqb_eq) in E.
    rewrite <- (set_of_In String.eqb_eq) in E.
    apply (count_occ_not_In string_dec) in E; lia.
Qed.

Lemma freq_of_doc_freq_from (doc_tokens : list (list string))
    (d : dict string Z) (t : string) :
  freq_of (fold_left
             (fun term_doc_freq tokens =>
                fold_left incr (set_of String.eqb tokens) term_doc_freq)
             doc_tokens d) t
  = freq_of d t
    + Z.of_nat (List.length (filter (fun tokens => mem String.eqb t tokens)
                                    doc_tokens)).
Proof.
  revert d; induction doc_tokens as [|ts l IH]; intros d; simpl; [lia|].
  rewrite IH, freq_of_fold_incr, count_set_of.
  destruct (mem String.eqb t ts); simpl List.length; lia.
Qed.

Lemma freq_of_doc_freq (documents : list string) (t : string) :
  freq_of (doc_freq (map split documents)) t = spec_df t documents.
Proof.
  unfold doc_freq, spec_df; rewrite freq_of_doc_freq_from.
  unfold freq_of at 1; simpl.
  induction documents as [|d l IH]; simpl; [reflexivity|].
  destruct (mem String.eqb t (split d)); simpl List.length; lia.
Qed.

Lemma spec_df_bounds (t : string) (documents : list string) :
  0 <= spec_df t documents <= Z.of_nat (List.length documents).
Proof.
  unfold spec_df; split; [lia|].
  apply inj_le, filter_length_le.
Qed.

Lemma tfidf_vector_closed (documents : list string)
    (items : list (string * Z)) (vector : dict string R) :
  documents <> [] ->
  NoDup (keys items) ->
  (forall t, In t (keys items) -> ~ In t (keys vector)) ->
  tfidf_vector (Z.of_nat (List.length documents))
               (doc_freq (map split documents)) items vector
  = Ok (vector
        ++ map (fun '(t, f) => (t, (IZR f * idf documents t)%R)) items).
Proof.
  intros Hne; revert vector.
  induction items as [|[t f] items IH]; intros vector Hnd Hfresh;
    cbn [tfidf_vector].
  - cbn [map]; rewrite app_nil_r; reflexivity.
  - rewrite freq_of_doc_freq.
    pose proof (spec_df_bounds t documents) as [Hlo _].
    assert (Hlen : (0 < List.length documents)%nat)
      by (destruct documents; [contradiction | simpl; lia]).
    assert (HN : (0 < IZR (Z.of_nat (List.length documents)))%R)
      by (apply IZR_lt; lia).
    assert (HD : (0 < IZR (1 + spec_df t documents))%R)
      by (apply IZR_lt; lia).
    rewrite py_div_ok by (apply Rgt_not_eq; exact HD); cbn [bind].
    rewrite math_log_ok by (apply Rdiv_lt_0_compat; assumption); cbn [bind].
    inversion Hnd as [|? ? Hnot Hnd']; subst.
    rewrite (dict_set_fresh String.eqb_eq)
      by (apply Hfresh; left; reflexivity).
    rewrite IH.
    + rewrite <- app_assoc; cbn [app map]; unfold idf; rewrite plus_IZR;
      reflexivity.
    + exact Hnd'.
    + intros t' Hin; unfold keys; rewrite map_app, in_app_iff; simpl.
      intros [H|[H|[]]].
      * apply (Hfresh t'); [right; exact Hin | exact H].
      * subst; contradiction.
Qed.

Lemma compute_tfidf_closed (documents : list string) :
  compute_tfidf documents = Ok (map (vector_of documents) documents).
Proof.
  unfold compute_tfidf; rewrite mapM_map.
  apply mapM_ok; intros doc Hin.
  rewrite tfidf_vector_closed.
  - simpl; rewrite Counter_closed, map_map; reflexivity.
  - intros ->; contradiction.
  - rewrite Counter_keys; apply set_of_NoDup; exact String.eqb_eq.
  - intros t _ [].
Qed.

Lemma vector_of_keys (documents : list string) (doc : string) :
  keys (vector_of documents doc) = set_of String.eqb (split doc).
Proof.
  unfold vector_of, keys; rewrite map_map; simpl; apply map_id.
Qed.

Lemma vector_of_get (documents : list string) (doc term : string) :
  dict_get String.eqb (vector_of documents doc) term =
  if mem String.eqb term (split doc)
  then Some (spec_weight documents term doc)
  else None.
Proof.
  destruct (mem String.eqb term (split doc)) eqn:E.
  - apply (In_dict_get String.eqb_eq).
    + rewrite vector_of_keys; apply set_of_NoDup; exact String.eqb_eq.
    + apply (mem_In String.eqb_eq) in E.
      apply (set_of_In String.eqb_eq) in E.
      unfold vector_of.
      apply (in_map (fun t => (t, (IZR (count t (split doc))
                                   * idf documents t)%R))) in E.
      exact E.
  - apply (dict_get_None String.eqb_eq).
    rewrite vector_of_keys, (set_of_In String.eqb_eq).
    apply (mem_not_In String.eqb_eq); exact E.
Qed.

Lemma spec_tf_pos (term doc : string) :
  In term (split doc) -> 0 < spec_tf term doc.
Proof.
  intros H; unfold spec_tf.
  apply (count_occ_In string_dec) in H; lia.
Qed.

Lemma spec_df_all (term : string) (documents : list string) :
  (forall d, In d documents -> In term (split d)) ->
  spec_df term documents = Z.of_nat (List.length documents).
Proof.
  intros H; unfold spec_df; f_equal.
  induction documents as [|d l IH]; simpl; [reflexivity|].
  assert (E : mem String.eqb term (split d) = true)
    by (apply (mem_In String.eqb_eq); apply H; left; reflexivity).
  rewrite E; simpl; f_equal; apply IH.
  intros d' Hd'; apply H; right; exact Hd'.
Qed.

Lemma ln_neg (x : R) : (0 < x < 1)%R -> (ln x < 0)%R.
Proof.
  intros [H0 H1]; rewrite <- ln_1; apply ln_increasing; assumption.
Qed.

Lemma ratio_below_one (n : R) : (0 < n)%R -> (0 < n / (1 + n) < 1)%R.
Proof.
  intros Hn; split.
  - apply Rdiv_lt_0_compat; lra.
  - apply (Rmult_lt_reg_r (1 + n)); [lra|].
    unfold Rdiv; rewrite Rmult_assoc, Rinv_l by lra; lra.
Qed.

(** ** Cosine similarity never raises *)

Lemma sum_squares_nonneg (l : list R) :
  (0 <= sum (map (fun val => val ^ 2)%R l))%R.
Proof.
  apply sum_nonneg; intros x Hx.
  apply in_map_iff in Hx; destruct Hx as [y [<- _]].
  apply pow2_ge_0.
Qed.

Lemma cosine_similarity_ok (vec1 vec2 : dict string R) :
  exists c,
    cosine_similarity vec1 vec2 = Ok c /\
    ((forall t a b,
         dict_get String.eqb vec1 t = Some a ->
         dict_get String.eqb vec2 t = Some b -> (0 <= a * b)%R) ->
     (0 <= c)%R).
Proof.
  unfold cosine_similarity.
  set (common := set_inter String.eqb (set_of String.eqb (keys vec1))
                           (set_of String.eqb (keys vec2))).
  assert (Hcommon : forall t, In t common ->
            In t (keys vec1) /\ In t (keys vec2)).
  { intros t Ht; unfold common in Ht.
    apply (set_inter_In String.eqb_eq) in Ht.
    rewrite !(set_of_In String.eqb_eq) in Ht; exact Ht. }
  destruct common as [|t0 rest] eqn:Ecommon.
  - exists 0%R; split; [reflexivity | intros _; lra].
  - rewrite (mapM_ok _ (fun t => (get_or_zero vec1 t * get_or_zero vec2 t)%R)).
    2:{ intros t Ht; apply Hcommon in Ht; destruct Ht as [H1 H2].
        apply (In_keys_get String.eqb_eq) in H1; destruct H1 as [a Ha].
        apply (In_keys_get String.eqb_eq) in H2; destruct H2 as [b Hb].
        unfold dict_index, get_or_zero; rewrite Ha, Hb; reflexivity. }
    cbn [bind].
    rewrite !math_sqrt_ok by apply sum_squares_nonneg; cbn [bind].
    set (m1 := sqrt (sum (map (fun val => val ^ 2)%R (values vec1)))).
    set (m2 := sqrt (sum (map (fun val => val ^ 2)%R (values vec2)))).
    set (dot := sum _).
    destruct (Reqb m1 0 || Reqb m2 0) eqn:Ez.
    + exists 0%R; split; [reflexivity | intros _; lra].
    + apply orb_false_iff in Ez; destruct Ez as [Ez1 Ez2].
      apply Reqb_false in Ez1; apply Reqb_false in Ez2.
      assert (H1 : (0 <= m1)%R) by apply sqrt_pos.
      assert (H2 : (0 <= m2)%R) by apply sqrt_pos.
      assert (Hm : (0 < m1 * m2)%R) by (apply Rmult_lt_0_compat; lra).
      rewrite py_div_ok by (apply Rgt_not_eq; exact Hm).
      eexists; split; [reflexivity|].
      intros Hsign.
      assert (Hdot : (0 <= dot)%R).
      { apply sum_nonneg; intros x Hx.
        apply in_map_iff in Hx; destruct Hx as [t [<- Ht]].
        apply Hcommon in Ht; destruct Ht as [K1 K2].
        apply (In_keys_get String.eqb_eq) in K1; destruct K1 as [a Ha].
        apply (In_keys_get String.eqb_eq) in K2; destruct K2 as [b Hb].
        unfold get_or_zero; rewrite Ha, Hb; apply (Hsign t); assumption. }
      apply Rmult_le_pos; [exact Hdot|].
      apply Rlt_le, Rinv_0_lt_compat; exact Hm.
Qed.

(** ** The vectorizer: the claims *)

(** C10. On the empty corpus [compute_tfidf] returns the empty list of
    vectors and raises nothing: no document is processed, so the logarithm
    of [0 / (1 + df)] is never taken. *)
Theorem compute_tfidf_empty_corpus : compute_tfidf [] = Ok [].
Proof. reflexivity. Qed.

(** C5. In a corpus of N documents (N >= 1 as soon as it has a document),
    the vector of a document gives each of its terms the weight
    tf * ln(N / (1 + df)), tf being the number of occurrences among the
    whitespace tokens of the document and df the number of documents that
    contain the term; for a term present in every document this is
    tf * ln(N / (N + 1)), a negative number, stored as it is. *)
Theorem compute_tfidf_weight :
  forall (documents : list string) (i : nat) (doc term : string),
    nth_error documents i = Some doc ->
    In term (split doc) ->
    exists vectors vector,
      compute_tfidf documents = Ok vectors /\
      List.length vectors = List.length documents /\
      nth_error vectors i = Some vector /\
      dict_get String.eqb vector term
        = Some (spec_weight documents term doc) /\
      ((forall d, In d documents -> In term (split d)) ->
       let N := IZR (Z.of_nat (List.length documents)) in
       spec_weight documents term doc
         = (IZR (spec_tf term doc) * ln (N / (N + 1)))%R /\
       (spec_weight documents term doc < 0)%R).
Proof.
  intros documents i doc term Hdoc Hterm.
  exists (map (vector_of documents) documents), (vector_of documents doc).
  split; [apply compute_tfidf_closed|].
  split; [apply length_map|].
  split; [rewrite nth_error_map, Hdoc; reflexivity|].
  split.
  - rewrite vector_of_get.
    apply (mem_In String.eqb_eq) in Hterm; rewrite Hterm; reflexivity.
  - intros Hall N.
    assert (HN : (0 < N)%R).
    { unfold N; apply IZR_lt.
      apply nth_error_In in Hdoc.
      destruct documents; [contradiction | simpl List.length; lia]. }
    assert (E : spec_weight documents term doc
                = (IZR (spec_tf term doc) * ln (N / (N + 1)))%R).
    { unfold spec_weight; rewrite (spec_df_all _ _ Hall); fold N.
      rewrite (Rplus_comm 1 N); reflexivity. }
    split; [exact E|].
    rewrite E.
    assert (Htf : (0 < IZR (spec_tf term doc))%R)
      by (apply IZR_lt, spec_tf_pos; exact Hterm).
    assert (Hln : (ln (N / (N + 1)) < 0)%R).
    { apply ln_neg; rewrite (Rplus_comm N 1); apply ratio_below_one; exact HN. }
    nra.
Qed.

Lemma compute_tfidf_weight_witness :
  exists vectors vector,
    compute_tfidf ["a b"; "a"] = Ok vectors /\
    nth_error vectors 0 = Some vector /\
    dict_get String.eqb vector "a"
      = Some (spec_weight ["a b"; "a"] "a" "a b") /\
    (spec_weight ["a b"; "a"] "a" "a b" < 0)%R.
Proof.
  destruct (compute_tfidf_weight ["a b"; "a"] 0%nat "a b" "a" eq_refl
              (or_introl eq_refl))
    as [vectors [vector [H1 [_ [H3 [H4 H5]]]]]].
  exists vectors, vector.
  split; [exact H1|].
  split; [exact H3|].
  split; [exact H4|].
  apply H5.
  intros d [<-|[<-|[]]]; simpl; auto.
Defined.

Lemma spec_weight_zero_iff (documents : list string) (term doc : string) :
  In doc documents ->
  In term (split doc) ->
  spec_weight documents term doc = 0%R <->
  spec_df term documents = Z.of_nat (List.length documents) - 1.
Proof.
  intros Hdoc Hterm.
  pose proof (spec_df_bounds term documents) as [Hlo Hhi].
  assert (Hlen : 0 < Z.of_nat (List.length documents))
    by (destruct documents; [contradiction | simpl List.length; lia]).
  assert (HN : (0 < IZR (Z.of_nat (List.length documents)))%R)
    by (apply IZR_lt; exact Hlen).
  assert (HD : (0 < 1 + IZR (spec_df term documents))%R)
    by (apply IZR_le in Hlo; lra).
  assert (Htf : (0 < IZR (spec_tf term doc))%R)
    by (apply IZR_lt, spec_tf_pos; exact Hterm).
  unfold spec_weight; split.
  - intros H.
    apply Rmult_integral in H; destruct H as [H|H]; [lra|].
    rewrite <- ln_1 in H.
    apply ln_inv in H; [| apply Rdiv_lt_0_compat; assumption | lra].
    assert (E : IZR (Z.of_nat (List.length documents))
                = (1 + IZR (spec_df term documents))%R).
    { apply (Rmult_eq_reg_r (/ (1 + IZR (spec_df term documents)))).
      - fold (Rdiv (IZR (Z.of_nat (List.length documents)))
                   (1 + IZR (spec_df term documents))).
        rewrite H, Rinv_r by lra; reflexivity.
      - apply Rinv_neq_0_compat; lra. }
    change 1%R with (IZR 1) in E; rewrite <- plus_IZR in E.
    apply eq_IZR in E; lia.
  - intros E; rewrite E, minus_IZR.
    replace (IZR (Z.of_nat (List.length documents))
             / (1 + (IZR (Z.of_nat (List.length documents)) - 1)))%R
      with 1%R by (field; lra).
    rewrite ln_1; ring.
Qed.

(** C6, as the code has it.  The vector of a document has one key for each
    distinct token of the document, whatever its weight: no term of the
    document is left out.  A term of the document has weight 0 exactly when
    it occurs in N - 1 of the N documents, and it is then a key mapped
    to 0. *)
Theorem compute_tfidf_keeps_every_term :
  forall (documents : list string) (i : nat) (doc : string),
    nth_error documents i = Some doc ->
    exists vectors vector,
      compute_tfidf documents = Ok vectors /\
      nth_error vectors i = Some vector /\
      keys vector = set_of String.eqb (split doc) /\
      forall term,
        In term (split doc) ->
        (dict_get String.eqb vector term = Some 0%R <->
         spec_df term documents = Z.of_nat (List.length documents) - 1).
Proof.
  intros documents i doc Hdoc.
  exists (map (vector_of documents) documents), (vector_of documents doc).
  split; [apply compute_tfidf_closed|].
  split; [rewrite nth_error_map, Hdoc; reflexivity|].
  split; [apply vector_of_keys|].
  intros term Hterm.
  rewrite vector_of_get.
  pose proof Hterm as Hmem.
  apply (mem_In String.eqb_eq) in Hmem; rewrite Hmem.
  rewrite <- (spec_weight_zero_iff documents term doc
                (nth_error_In _ _ Hdoc) Hterm).
  split; [intros H; inversion H; reflexivity | intros ->; reflexivity].
Qed.

Lemma compute_tfidf_keeps_every_term_witness :
  exists vectors vector,
    compute_tfidf ["x y"; "x"] = Ok vectors /\
    nth_error vectors 0 = Some vector /\
    keys vector = ["x"; "y"] /\
    (dict_get String.eqb vector "y" = Some 0%R <->
     spec_df "y" ["x y"; "x"] = 1).
Proof.
  destruct (compute_tfidf_keeps_every_term ["x y"; "x"] 0%nat "x y" eq_refl)
    as [vectors [vector [H1 [H2 [H3 H4]]]]].
  exists vectors, vector.
  split; [exact H1|].
  split; [exact H2|].
  split; [exact H3|].
  apply (H4 "y"); simpl; auto.
Defined.

(** C6 fails on the corpus ["a"; "a"; "b"]: "a" occurs in 2 of the 3
    documents, its factor is ln(3 / (1 + 2)) = 0, and it is a key of the
    first two vectors, with weight 0. *)
Lemma compute_tfidf_zero_weight_key :
  compute_tfidf ["a"; "a"; "b"]
  = Ok [ [("a", 0%R)]; [("a", 0%R)]; [("b", ln (3 / 2))] ]
  /\ dict_get String.eqb [("a", 0%R)] "a" = Some 0%R.
Proof.
  split; [|reflexivity].
  rewrite compute_tfidf_closed.
  unfold vector_of, idf; cbn [map].
  change (split "a") with ["a"]; change (split "b") with ["b"].
  cbn [set_of unique_from mem existsb map].
  change (count "a" ["a"]) with 1.
  change (count "b" ["b"]) with 1.
  change (spec_df "a" ["a"; "a"; "b"]) with 2.
  change (spec_df "b" ["a"; "a"; "b"]) with 1.
  cbn [List.length Z.of_nat Pos.of_succ_nat Pos.succ].
  replace (3 / (1 + 2))%R with 1%R by lra.
  replace (3 / (1 + 1))%R with (3 / 2)%R by lra.
  rewrite ln_1, Rmult_0_r, Rmult_1_l; reflexivity.
Qed.

(** C7. The vectors of two documents of one corpus have a cosine
    similarity that is computed without an exception and is >= 0: a term
    carries the same factor ln(N / (1 + df)) in both, so each product of
    the dot product is a square times two counts. *)
Theorem cosine_similarity_nonneg :
  forall (documents : list string) (i j : nat) (d1 d2 : string),
    nth_error documents i = Some d1 ->
    nth_error documents j = Some d2 ->
    exists vectors v1 v2 c,
      compute_tfidf documents = Ok vectors /\
      nth_error vectors i = Some v1 /\
      nth_error vectors j = Some v2 /\
      cosine_similarity v1 v2 = Ok c /\
      (0 <= c)%R.
Proof.
  intros documents i j d1 d2 H1 H2.
  destruct (cosine_similarity_ok (vector_of documents d1)
                                 (vector_of documents d2)) as [c [Hc Hsign]].
  exists (map (vector_of documents) documents),
         (vector_of documents d1), (vector_of documents d2), c.
  split; [apply compute_tfidf_closed|].
  split; [rewrite nth_error_map, H1; reflexivity|].
  split; [rewrite nth_error_map, H2; reflexivity|].
  split; [exact Hc|].
  apply Hsign; intros t a b Ha Hb.
  rewrite vector_of_get in Ha, Hb.
  destruct (mem String.eqb t (split d1)); [|discriminate].
  destruct (mem String.eqb t (split d2)); [|discriminate].
  inversion Ha; inversion Hb; subst; unfold spec_weight.
  set (L := ln _).
  assert (T1 : (0 <= IZR (spec_tf t d1))%R)
    by (apply IZR_le; unfold spec_tf; lia).
  assert (T2 : (0 <= IZR (spec_tf t d2))%R)
    by (apply IZR_le; unfold spec_tf; lia).
  replace (IZR (spec_tf t d1) * L * (IZR (spec_tf t d2) * L))%R
    with ((IZR (spec_tf t d1) * IZR (spec_tf t d2)) * (L * L))%R by ring.
  apply Rmult_le_pos; [apply Rmult_le_pos; assumption | nra].
Qed.

Lemma cosine_similarity_nonneg_witness :
  exists vectors v1 v2 c,
    compute_tfidf ["a b"; "b c"; "c"] = Ok vectors /\
    nth_error vectors 0 = Some v1 /\
    nth_error vectors 1 = Some v2 /\
    cosine_similarity v1 v2 = Ok c /\
    (0 <= c)%R.
Proof.
  apply (cosine_similarity_nonneg ["a b"; "b c"; "c"] 0%nat 1%nat "a b" "b c");
    reflexivity.
Defined.

(** ** Title lookup *)

Lemma starts_with_spec (p s : string) :
  starts_with p s = true <-> exists post, s = (p ++ post)%string.
Proof.
  revert s; induction p as [|a p IH]; intros s; simpl.
  - split; [intros _; exists s; reflexivity | reflexivity].
  - destruct s as [|b s].
    + split; [discriminate | intros [post H]; discriminate].
    + rewrite andb_true_iff, Ascii.eqb_eq, IH; split.
      * intros [-> [post ->]]; exists post; reflexivity.
      * intros [post H]; inversion H; subst; split; [reflexivity|].
        exists post; reflexivity.
Qed.

Lemma str_in_spec (p s : string) :
  str_in p s = true <-> exists pre post, s = (pre ++ p ++ post)%string.
Proof.
  induction s as [|b s IH].
  - simpl; rewrite orb_false_r, starts_with_spec; split.
    + intros [post H]; exists EmptyString, post; exact H.
    + intros [pre [post H]].
      destruct pre; simpl in H; [exists post; exact H | discriminate].
  - cbn [str_in]; rewrite orb_true_iff, starts_with_spec, IH; split.
    + intros [[post H] | [pre [post H]]].
      * exists EmptyString, post; exact H.
      * exists (String b pre), post; rewrite H; reflexivity.
    + intros [pre [post H]].
      destruct pre as [|c pre]; simpl in H.
      * left; exists post; exact H.
      * right; inversion H; subst; exists pre, post; reflexivity.
Qed.

Lemma find_first_None (p : string -> bool) (k : nat) (titles : list string) :
  find_first p k titles = None <-> forall t, In t titles -> p t = false.
Proof.
  revert k; induction titles as [|x l IH]; intros k; simpl.
  - split; [intros _ t [] | reflexivity].
  - destruct (p x) eqn:E.
    + split; [discriminate|].
      intros H; rewrite (H x (or_introl eq_refl)) in E; discriminate.
    + rewrite IH; split.
      * intros H t [<-|Ht]; [exact E | apply H; exact Ht].
      * intros H t Ht; apply H; right; exact Ht.
Qed.

Lemma find_first_Some (p : string -> bool) (k : nat) (titles : list string)
    (i : nat) (t : string) :
  find_first p k titles = Some (i, t) ->
  (k <= i)%nat /\
  nth_error titles (i - k) = Some t /\
  p t = true /\
  (forall j y, (j < i - k)%nat -> nth_error titles j = Some y -> p y = false).
Proof.
  revert k; induction titles as [|x l IH]; intros k; simpl; [discriminate|].
  destruct (p x) eqn:E.
  - intros H; inversion H; subst.
    rewrite Nat.sub_diag; simpl.
    repeat split; auto; intros j y Hj; lia.
  - intros H; apply IH in H; destruct H as [Hk [Hn [Hp Hmin]]].
    split; [lia|].
    replace (i - k)%nat with (S (i - S k)) by lia; simpl.
    repeat split; auto.
    intros [|j] y Hj Hy; simpl in Hy.
    + inversion Hy; subst; exact E.
    + apply (Hmin j); [lia | exact Hy].
Qed.

(** The loop finds the first position with a property that [p] decides. *)
Lemma find_first_first_at (p : string -> bool) (P : string -> Prop)
    (titles : list string) (i : nat) :
  (forall t, p t = true <-> P t) ->
  first_at P titles i ->
  exists t, find_first p 0 titles = Some (i, t) /\ nth_error titles i = Some t.
Proof.
  intros Hp [[x [Hx HPx]] Hmin].
  destruct (find_first p 0 titles) as [[i' t]|] eqn:E.
  - apply find_first_Some in E; destruct E as [_ [Hn [Hpt Hmin']]].
    rewrite Nat.sub_0_r in Hn, Hmin'.
    assert (i' = i).
    { destruct (Nat.lt_trichotomy i' i) as [H|[H|H]]; [|exact H|].
      - exfalso; apply (Hmin i' t H Hn); apply Hp; exact Hpt.
      - exfalso; specialize (Hmin' i x H Hx).
        apply Hp in HPx; congruence. }
    subst i'; exists t; split; [reflexivity | exact Hn].
  - exfalso.
    rewrite find_first_None in E.
    apply nth_error_In in Hx; specialize (E x Hx).
    apply Hp in HPx; congruence.
Qed.

Lemma exact_match_dec (query title : string) :
  String.eqb (lower title) (lower query) = true <-> exact_match query title.
Proof. apply String.eqb_eq. Qed.

Lemma substring_match_dec (query title : string) :
  str_in (lower query) (lower title) = true <-> substring_match query title.
Proof. apply str_in_spec. Qed.

Lemma not_true_false (b : bool) (P : Prop) :
  (b = true <-> P) -> ~ P -> b = false.
Proof. destruct b; intros [H _] Hn; [exfalso; auto | reflexivity]. Qed.

Lemma find_movie_spec (titles : list string) (movie_title : string)
    (r : resolution) :
  spec_resolve titles movie_title r ->
  find_movie titles movie_title = found_by titles r.
Proof.
  intros H; unfold find_movie; destruct H as [i Hi | i Hno Hi | Hno1 Hno2].
  - destruct (find_first_first_at _ _ titles i
                (exact_match_dec movie_title) Hi) as [t [E _]].
    rewrite E; reflexivity.
  - assert (E1 : find_first
                   (fun title => String.eqb (lower title) (lower movie_title))
                   0 titles = None).
    { apply find_first_None; intros t Ht.
      apply (not_true_false _ _ (exact_match_dec movie_title t)), Hno, Ht. }
    rewrite E1.
    destruct (find_first_first_at _ _ titles i
                (substring_match_dec movie_title) Hi) as [t [E Hn]].
    rewrite E; simpl.
    rewrite (nth_error_nth _ _ _ Hn); reflexivity.
  - assert (E1 : find_first
                   (fun title => String.eqb (lower title) (lower movie_title))
                   0 titles = None).
    { apply find_first_None; intros t Ht.
      apply (not_true_false _ _ (exact_match_dec movie_title t)), Hno1, Ht. }
    assert (E2 : find_first
                   (fun title => str_in (lower movie_title) (lower title))
                   0 titles = None).
    { apply find_first_None; intros t Ht.
      apply (not_true_false _ _ (substring_match_dec movie_title t)), Hno2, Ht. }
    rewrite E1, E2; reflexivity.
Qed.

(** Some outcome always applies: the resolution is total. *)
Lemma spec_resolve_total (titles : list string) (query : string) :
  exists r, spec_resolve titles query r.
Proof.
  assert (Hfirst : forall (p : string -> bool) (P : string -> Prop),
             (forall t, p t = true <-> P t) ->
             (exists i, first_at P titles i) \/
             (forall t, In t titles -> ~ P t)).
  { intros p P Hp.
    destruct (find_first p 0 titles) as [[i t]|] eqn:E.
    - left; exists i.
      apply find_first_Some in E; destruct E as [_ [Hn [Hpt Hmin]]].
      rewrite Nat.sub_0_r in Hn, Hmin; split.
      + exists t; split; [exact Hn | apply Hp; exact Hpt].
      + intros j y Hj Hy HP; apply Hp in HP.
        rewrite (Hmin j y Hj Hy) in HP; discriminate.
    - right; intros t Ht HP; apply Hp in HP.
      rewrite find_first_None in E; rewrite (E t Ht) in HP; discriminate. }
  destruct (Hfirst _ _ (exact_match_dec query)) as [[i Hi]|Hno1].
  - exists (Exact i); constructor; exact Hi.
  - destruct (Hfirst _ _ (substring_match_dec query)) as [[i Hi]|Hno2].
    + exists (Closest i); constructor; assumption.
    + exists NotFound; constructor; assumption.
Qed.

(** ** Sorting and slicing *)

Section SortFacts.
Context {A : Type} (key : A -> R).

Lemma insert_desc_perm (x : A) (l : list A) :
  Permutation (insert_desc key x l) (x :: l).
Proof.
  induction l as [|y l IH]; simpl; [apply Permutation_refl|].
  destruct (Rltb (key x) (key y)).
  - apply Permutation_trans with (y :: x :: l).
    + apply perm_skip; exact IH.
    + apply perm_swap.
  - apply Permutation_refl.
Qed.

Lemma sort_desc_perm (l : list A) : Permutation (sort_desc key l) l.
Proof.
  induction l as [|x l IH]; simpl; [apply perm_nil|].
  apply Permutation_trans with (x :: sort_desc key l).
  - apply insert_desc_perm.
  - apply perm_skip; exact IH.
Qed.

Lemma sort_desc_In (l : list A) (x : A) : In x (sort_desc key l) <-> In x l.
Proof.
  split; apply Permutation_in;
    [apply sort_desc_perm | apply Permutation_sym, sort_desc_perm].
Qed.

Variable before : A -> A -> Prop.

End SortFacts.

Lemma In_firstn {A : Type} (k : nat) (l : list A) (x : A) :
  In x (firstn k l) -> In x l.
Proof.
  revert k; induction l as [|y l IH]; intros k H.
  - rewrite firstn_nil in H; exact H.
  - destruct k as [|k]; simpl in H; [contradiction|].
    destruct H as [H|H]; [left; exact H | right; apply (IH k); exact H].
Qed.

Lemma StronglySorted_filter {A : Type} (R : A -> A -> Prop) (f : A -> bool)
    (l : list A) :
  StronglySorted R l -> StronglySorted R (filter f l).
Proof.
  induction l as [|x l IH]; intros Hs; simpl; [constructor|].
  inversion Hs as [|? ? Hs' Hx]; subst.
  destruct (f x); [|apply IH; exact Hs'].
  constructor; [apply IH; exact Hs'|].
  apply Forall_forall; intros z Hz.
  apply filter_In in Hz; destruct Hz as [Hz _].
  rewrite Forall_forall in Hx; apply Hx; exact Hz.
Qed.

Lemma StronglySorted_map {A B : Type} (RA : A -> A -> Prop)
    (RB : B -> B -> Prop) (f : A -> B) (l : list A) :
  (forall a b, RA a b -> RB (f a) (f b)) ->
  StronglySorted RA l -> StronglySorted RB (map f l).
Proof.
  intros Hf; induction l as [|x l IH]; intros Hs; simpl; [constructor|].
  inversion Hs as [|? ? Hs' Hx]; subst.
  constructor; [apply IH; exact Hs'|].
  apply Forall_forall; intros z Hz.
  apply in_map_iff in Hz; destruct Hz as [a [<- Ha]].
  rewrite Forall_forall in Hx; apply Hf, Hx; exact Ha.
Qed.

Lemma slice_to_nonneg {A : Type} (n : Z) (l : list A) :
  0 <= n -> slice_to n l = firstn (Z.to_nat n) l.
Proof.
  intros H; unfold slice_to.
  destruct (n <? 0) eqn:E; [apply Z.ltb_lt in E; lia | reflexivity].
Qed.

Lemma slice_to_In {A : Type} (n : Z) (l : list A) (x : A) :
  In x (slice_to n l) -> In x l.
Proof. unfold slice_to; destruct (n <? 0); apply In_firstn. Qed.

Lemma enumerate_from_In {A : Type} (l : list A) (k i : nat) (x : A) :
  In (i, x) (enumerate_from k l) <->
  (k <= i)%nat /\ nth_error l (i - k) = Some x.
Proof.
  revert k; induction l as [|y l IH]; intros k; simpl.
  - split; [intros [] | intros [_ H]].
    destruct (i - k)%nat; discriminate.
  - rewrite IH; split.
    + intros [H|[Hk Hn]].
      * inversion H; subst; rewrite Nat.sub_diag; split; [lia | reflexivity].
      * split; [lia|].
        replace (i - k)%nat with (S (i - S k)) by lia; exact Hn.
    + intros [Hk Hn].
      destruct (Nat.eq_dec i k) as [->|Hne].
      * rewrite Nat.sub_diag in Hn; simpl in Hn; inversion Hn; left; reflexivity.
      * right; split; [lia|].
        replace (i - k)%nat with (S (i - S k)) in Hn by lia; exact Hn.
Qed.

Lemma enumerate_from_sorted {A : Type} (l : list A) (k : nat) :
  StronglySorted (fun a b : nat * A => (fst a < fst b)%nat)
                 (enumerate_from k l).
Proof.
  revert k; induction l as [|y l IH]; intros k; simpl; constructor.
  - apply IH.
  - apply Forall_forall; intros [i x] Hin.
    apply enumerate_from_In in Hin; simpl; lia.
Qed.

(** ** The content recommender in closed form *)

Lemma cosine_similarity_total (vec1 vec2 : dict string R) :
  cosine_similarity vec1 vec2 = Ok (cosine vec1 vec2).
Proof.
  destruct (cosine_similarity_ok vec1 vec2) as [c [Hc _]].
  unfold cosine; rewrite Hc; reflexivity.
Qed.

Lemma list_index_ok {A : Type} (l : list A) (i : nat) (d : A) :
  (i < List.length l)%nat -> list_index l i = Ok (nth i l d).
Proof.
  intros H; unfold list_index.
  rewrite (nth_error_nth' l d H); reflexivity.
Qed.

Lemma map_fst_enumerate_from {A : Type} (l : list A) (k : nat) :
  map fst (enumerate_from k l) = seq k (List.length l).
Proof.
  revert k; induction l as [|x l IH]; intros k; simpl; [reflexivity|].
  rewrite IH; reflexivity.
Qed.

Lemma map_fst_scored (vectors : list (dict string R)) (e : nat) :
  map fst (scored vectors e) = seq 0 (List.length vectors).
Proof.
  unfold scored; rewrite map_map.
  rewrite <- (map_fst_enumerate_from vectors 0).
  apply map_ext; intros [i vec]; reflexivity.
Qed.

Lemma scored_In (vectors : list (dict string R)) (e i : nat) (s : R) :
  In (i, s) (scored vectors e) ->
  exists vec, nth_error vectors i = Some vec /\
              s = cosine (nth e vectors []) vec.
Proof.
  unfold scored; rewrite in_map_iff; intros [[i' vec] [E Hin]].
  inversion E; subst.
  apply enumerate_from_In in Hin; rewrite Nat.sub_0_r in Hin.
  exists vec; split; [apply Hin | reflexivity].
Qed.

Lemma ranking_of_In (vectors : list (dict string R)) (e i : nat) (s : R) :
  In (i, s) (ranking_of vectors e) ->
  i <> e /\ In (i, s) (scored vectors e).
Proof.
  unfold ranking_of; intros H.
  apply (proj1 (sort_desc_In _ _ _)) in H.
  apply filter_In in H; destruct H as [H E]; split; [|exact H].
  apply negb_true_iff, Nat.eqb_neq in E; exact E.
Qed.

Lemma filter_map_fst {A B : Type} (f : A -> bool) (l : list (A * B)) :
  map fst (filter (fun '(i, _) => f i) l) = filter f (map fst l).
Proof.
  induction l as [|[i x] l IH]; simpl; [reflexivity|].
  destruct (f i); simpl; rewrite IH; reflexivity.
Qed.

Lemma ranking_of_indices (vectors : list (dict string R)) (e : nat) :
  Permutation (map fst (ranking_of vectors e))
              (filter (fun i => negb (Nat.eqb i e))
                      (seq 0 (List.length vectors))).
Proof.
  unfold ranking_of.
  apply Permutation_trans
    with (map fst (filter (fun '(i, _) => negb (Nat.eqb i e))
                          (scored vectors e))).
  - apply Permutation_map, sort_desc_perm.
  - rewrite (filter_map_fst (fun i => negb (Nat.eqb i e))), map_fst_scored.
    apply Permutation_refl.
Qed.

Lemma combine_map_fst {A B C : Type} (f : A -> C) (l : list (A * B)) :
  combine (map f (map fst l)) l = map (fun p => (f (fst p), p)) l.
Proof.
  induction l as [|p l IH]; simpl; [reflexivity|].
  rewrite IH; reflexivity.
Qed.

Lemma rank_similar_closed (catalog : list Movies.row)
    (vectors : list (dict string R)) (e : nat) (n : Z) :
  (e < List.length vectors)%nat ->
  List.length catalog = List.length vectors ->
  rank_similar catalog vectors e n
  = Ok (map (content_row catalog) (slice_to n (ranking_of vectors e))).
Proof.
  intros He Hlen; unfold rank_similar.
  rewrite (mapM_ok _ (fun '(i, vec) => (i, cosine (nth e vectors []) vec))).
  2:{ intros [i vec] _.
      rewrite (list_index_ok vectors e [] He); cbn [bind].
      rewrite cosine_similarity_total; reflexivity. }
  cbn [bind]; fold (scored vectors e); fold (ranking_of vectors e).
  rewrite (mapM_ok _ (fun i => nth i catalog no_movie)).
  2:{ intros i Hi; apply list_index_ok.
      apply in_map_iff in Hi; destruct Hi as [[i' s] [E Hin]].
      simpl in E; subst i'.
      apply slice_to_In, ranking_of_In in Hin; destruct Hin as [_ Hin].
      apply scored_In in Hin; destruct Hin as [vec [Hn _]].
      rewrite Hlen; apply nth_error_Some; congruence. }
  cbn [bind].
  rewrite combine_map_fst, map_map; f_equal.
  apply map_ext; intros [i s]; reflexivity.
Qed.

(** The whole call, once the vectors are known to be computed. *)
Lemma content_based_unfold (movies_df : MoviesDF) (movie_title : string)
    (n : Z) :
  content_based_recommendations movies_df movie_title n =
  let text := genres_text_of movies_df in
  let table := {| rows := rows movies_df; genres_text := Some text |} in
  match find_movie (map Movies.title (rows movies_df)) movie_title with
  | (None, out) =>
      {| tables := table;
         stdout := out ++ [("Movie '" ++ movie_title ++ "' not found")%string];
         value := Ok [] |}
  | (Some movie_idx, out) =>
      {| tables := table;
         stdout := out;
         value := rank_similar (rows movies_df)
                               (map (vector_of text) text) movie_idx n |}
  end.
Proof.
  unfold content_based_recommendations; fold (genres_text_of movies_df).
  rewrite compute_tfidf_closed; cbn [rows].
  destruct (find_movie (map Movies.title (rows movies_df)) movie_title)
    as [[i|] out]; reflexivity.
Qed.

Lemma first_at_lt {A : Type} (P : A -> Prop) (l : list A) (i : nat) :
  first_at P l i -> (i < List.length l)%nat.
Proof.
  intros [[x [Hx _]] _]; apply nth_error_Some; congruence.
Qed.

Lemma spec_resolve_lt (titles : list string) (query : string)
    (r : resolution) (e : nat) :
  spec_resolve titles query r -> resolved r = Some e ->
  (e < List.length titles)%nat.
Proof.
  intros H E; destruct H as [i Hi | i _ Hi | _ _]; simpl in E;
    inversion E; subst; apply (first_at_lt _ _ _ Hi).
Qed.

Lemma content_based_value (movies_df : MoviesDF) (movie_title : string)
    (n : Z) (r : resolution) :
  spec_resolve (map Movies.title (rows movies_df)) movie_title r ->
  let out := content_based_recommendations movies_df movie_title n in
  let text := genres_text_of movies_df in
  stdout out
  = snd (found_by (map Movies.title (rows movies_df)) r)
    ++ match resolved r with
       | Some _ => []
       | None => [("Movie '" ++ movie_title ++ "' not found")%string]
       end
  /\ value out
     = match resolved r with
       | Some e =>
           rank_similar (rows movies_df) (map (vector_of text) text) e n
       | None => Ok []
       end.
Proof.
  intros H; cbv zeta.
  rewrite content_based_unfold; cbv zeta.
  rewrite (find_movie_spec _ _ _ H).
  destruct r; simpl; split; reflexivity.
Qed.

(** ** Neighbour selection in closed form *)

Lemma sum_perm (l l' : list R) : Permutation l l' -> sum l = sum l'.
Proof.
  induction 1 as [|x l l' _ IH|x y l|l l' l'' _ IH1 _ IH2].
  - reflexivity.
  - rewrite !sum_cons, IH; reflexivity.
  - rewrite !sum_cons; lra.
  - rewrite IH1; exact IH2.
Qed.

Lemma filter_filter {A : Type} (p q : A -> bool) (l : list A) :
  filter p (filter q l) = filter (fun x => q x && p x) l.
Proof.
  induction l as [|x l IH]; simpl; [reflexivity|].
  destruct (q x); simpl; [destruct (p x)|]; rewrite IH; reflexivity.
Qed.

Lemma rated_movies_In (ratings_df : RatingsDF) (u m : Z) :
  In m (rated_movies ratings_df u) <-> rated_by ratings_df u m.
Proof.
  unfold rated_movies, user_rows, rated_by.
  rewrite (set_of_In Z.eqb_eq), in_map_iff; split.
  - intros [r [Hm Hr]]; apply filter_In in Hr; destruct Hr as [Hr Hu].
    exists r; repeat split; [exact Hr | apply Z.eqb_eq; exact Hu | exact Hm].
  - intros [r [Hr [Hu Hm]]]; exists r; split; [exact Hm|].
    apply filter_In; split; [exact Hr | apply Z.eqb_eq; exact Hu].
Qed.

Lemma common_movies_of_spec (ratings_df : RatingsDF) (target u : Z) :
  common_items ratings_df target u (common_movies_of ratings_df target u).
Proof.
  unfold common_items, common_movies_of; split.
  - unfold set_inter; apply NoDup_filter, set_of_NoDup; exact Z.eqb_eq.
  - intros m; rewrite (set_inter_In Z.eqb_eq), !rated_movies_In; tauto.
Qed.

(** [.values[0]] on the rows of one user restricted to a set of items. *)
Lemma first_rating_common (ratings_df : RatingsDF) (u m : Z)
    (common : list Z) :
  In m common ->
  rated_by ratings_df u m ->
  first_rating
    (filter (fun r => mem Z.eqb (Ratings.movieId r) common)
            (filter (fun r => Ratings.userId r =? u) ratings_df)) m
  = Ok (rating_of ratings_df u m).
Proof.
  intros Hm [r0 [Hr0 [Hu Hm0]]]; unfold first_rating, rating_of.
  rewrite !filter_filter.
  rewrite (filter_ext _
             (fun r => (Ratings.userId r =? u) && (Ratings.movieId r =? m))).
  2:{ intros r; cbv beta; destruct (Ratings.movieId r =? m) eqn:E;
        [|rewrite !andb_false_r; reflexivity].
      apply Z.eqb_eq in E; rewrite E.
      apply (mem_In Z.eqb_eq) in Hm; rewrite Hm, !andb_true_r; reflexivity. }
  destruct (filter _ ratings_df) as [|r l] eqn:E; [|reflexivity].
  exfalso.
  assert (H : In r0 (filter (fun r => (Ratings.userId r =? u)
                                      && (Ratings.movieId r =? m))
                            ratings_df)).
  { apply filter_In; split; [exact Hr0|].
    rewrite Hu, Hm0, !Z.eqb_refl; reflexivity. }
  rewrite E in H; exact H.
Qed.

Lemma paired_ratings_ok (uc oc : RatingsDF) (f g : Z -> R) (cm : list Z) :
  (forall m, In m cm ->
      first_rating uc m = Ok (f m) /\ first_rating oc m = Ok (g m)) ->
  paired_ratings uc oc cm = Ok (map f cm, map g cm).
Proof.
  induction cm as [|m cm IH]; intros H; simpl; [reflexivity|].
  destruct (H m (or_introl eq_refl)) as [H1 H2].
  rewrite H1, H2; cbn [bind].
  rewrite IH by (intros m' Hm'; apply H; right; exact Hm').
  reflexivity.
Qed.

Lemma find_similar_users_closed (ratings_df : RatingsDF) (target : Z)
    (users : list Z) :
  find_similar_users ratings_df target (user_rows ratings_df target)
                     (rated_movies ratings_df target) users
  = Ok (neighbours_of ratings_df target users).
Proof.
  induction users as [|u users IH]; [reflexivity|].
  cbn [find_similar_users neighbours_of flat_map].
  fold (neighbours_of ratings_df target users).
  destruct (u =? target); [exact IH|].
  fold (user_rows ratings_df u); fold (rated_movies ratings_df u).
  fold (common_movies_of ratings_df target u).
  unfold similarity_of.
  destruct (Z.of_nat (List.length (common_movies_of ratings_df target u)) <? 5);
    [exact IH|].
  rewrite (paired_ratings_ok _ _ (rating_of ratings_df target)
                             (rating_of ratings_df u)).
  2:{ intros m Hm.
      destruct (common_movies_of_spec ratings_df target u) as [_ Hc].
      pose proof (proj1 (Hc m) Hm) as [Hu Ht].
      split; apply first_rating_common; assumption. }
  cbn [bind].
  destruct (corrcoef _ _) as [s|]; [|exact IH].
  rewrite IH; reflexivity.
Qed.

Lemma neighbours_of_In (ratings_df : RatingsDF) (target : Z)
    (users : list Z) (u : Z) (s : R) :
  In (u, s) (neighbours_of ratings_df target users) <->
  In u users /\ u <> target /\ similarity_of ratings_df target u = Some s.
Proof.
  unfold neighbours_of; rewrite in_flat_map; split.
  - intros [u' [Hu' Hin]].
    destruct (u' =? target) eqn:E; [contradiction|].
    apply Z.eqb_neq in E.
    destruct (similarity_of ratings_df target u') as [s'|] eqn:Es;
      [|contradiction].
    destruct Hin as [Hin|[]]; inversion Hin; subst; auto.
  - intros [Hu [Hne Hs]]; exists u; split; [exact Hu|].
    apply Z.eqb_neq in Hne; rewrite Hne, Hs; left; reflexivity.
Qed.

(** ** Aggregation in closed form *)

Lemma fold_left_flat_map {A B C : Type} (f : A -> C -> A) (g : B -> list C)
    (l : list B) (a : A) :
  fold_left f (flat_map g l) a = fold_left (fun a x => fold_left f (g x) a) l a.
Proof.
  revert a; induction l as [|x l IH]; intros a; simpl; [reflexivity|].
  rewrite fold_left_app, IH; reflexivity.
Qed.

Lemma fold_left_map {A B C : Type} (f : A -> C -> A) (h : B -> C)
    (l : list B) (a : A) :
  fold_left f (map h l) a = fold_left (fun a x => f a (h x)) l a.
Proof.
  revert a; induction l as [|x l IH]; intros a; simpl; [reflexivity|].
  apply IH.
Qed.

Lemma accumulate_get (d : dict Z candidate) (m m' : Z) (x s : R) :
  dict_get Z.eqb (accumulate d m x s) m' =
  if m =? m'
  then Some {| score := score_of d m + s;
               weighted_sum := weighted_sum_of d m + x * s |}
  else dict_get Z.eqb d m'.
Proof.
  unfold accumulate, dict_mem, score_of, weighted_sum_of.
  destruct (dict_get Z.eqb d m) as [c|] eqn:E.
  - rewrite E, (dict_get_set Z.eqb_eq); reflexivity.
  - rewrite (dict_get_set Z.eqb_eq), Z.eqb_refl, !(dict_get_set Z.eqb_eq).
    simpl; destruct (m =? m'); reflexivity.
Qed.





(** The whole call for a user who has ratings. *)
Lemma collaborative_unfold (ratings_df : RatingsDF) (movies_df : MoviesDF)
    (target n : Z) :
  In target (map Ratings.userId ratings_df) ->
  collaborative_recommendations ratings_df movies_df target n =
  {| tables := (ratings_df, movies_df);
     stdout := [];
     value :=
       Ok (movie_details movies_df
             (slice_to n
                (sort_desc snd
                   (predict
                      (aggregate ratings_df (rated_movies ratings_df target)
                                 (top_neighbours ratings_df target)))))) |}.
Proof.
  intros H; unfold collaborative_recommendations.
  assert (E : mem Z.eqb target (set_of Z.eqb (map Ratings.userId ratings_df))
              = true)
    by (apply (mem_In Z.eqb_eq), (set_of_In Z.eqb_eq); exact H).
  rewrite E; cbn [negb].
  fold (user_rows ratings_df target); fold (rated_movies ratings_df target).
  rewrite find_similar_users_closed; reflexivity.
Qed.

Lemma collaborative_unknown_user (ratings_df : RatingsDF)
    (movies_df : MoviesDF) (target n : Z) :
  ~ In target (map Ratings.userId ratings_df) ->
  collaborative_recommendations ratings_df movies_df target n =
  {| tables := (ratings_df, movies_df);
     stdout := [("User " ++ str_of_int target ++ " not found")%string];
     value := Ok [] |}.
Proof.
  intros H; unfold collaborative_recommendations.
  assert (E : mem Z.eqb target (set_of Z.eqb (map Ratings.userId ratings_df))
              = false)
    by (apply (mem_not_In Z.eqb_eq); rewrite (set_of_In Z.eqb_eq); exact H).
  rewrite E; reflexivity.
Qed.

(** ** The caller's tables *)

(** C4, as the code has it.  The collaborative recommender leaves the
    rating log and the catalog as they were.  The content recommender, which
    is not handed the rating log, leaves every row of the catalog as it was
    and assigns the column ['genres_text'] of the caller's table: after the
    call the column holds the genres of each row with '|' replaced by a
    space. *)
Theorem recommenders_frame :
  (forall (ratings_df : RatingsDF) (movies_df : MoviesDF) (user_id n : Z),
      tables (collaborative_recommendations ratings_df movies_df user_id n)
      = (ratings_df, movies_df))
  /\
  (forall (movies_df : MoviesDF) (movie_title : string) (n : Z),
      let after :=
        tables (content_based_recommendations movies_df movie_title n) in
      rows after = rows movies_df /\
      genres_text after = Some (genres_text_of movies_df)).
Proof.
  split.
  - intros ratings_df movies_df user_id n.
    unfold collaborative_recommendations.
    destruct (negb _); reflexivity.
  - intros movies_df movie_title n after; unfold after.
    rewrite content_based_unfold; cbv zeta.
    destruct (find_movie _ _) as [[i|] out]; split; reflexivity.
Qed.

(** C4 fails for the content recommender: the caller's catalog has no
    column ['genres_text'] before the call and has it afterwards. *)
Lemma content_based_adds_column :
  genres_text sample_catalog = None /\
  genres_text (tables (content_based_recommendations sample_catalog "heat" 5))
  = Some [ "Adventure Animation Children";
           "Adventure Children Fantasy";
           "Action Crime Thriller" ] /\
  tables (content_based_recommendations sample_catalog "heat" 5)
  <> sample_catalog.
Proof.
  assert (E : genres_text
                (tables (content_based_recommendations sample_catalog "heat" 5))
              = Some [ "Adventure Animation Children";
                       "Adventure Children Fantasy";
                       "Action Crime Thriller" ]).
  { rewrite content_based_unfold; cbv zeta.
    destruct (find_movie _ _) as [[i|] out]; reflexivity. }
  split; [reflexivity|].
  split; [exact E|].
  intros H; rewrite H in E; discriminate.
Qed.

(** ** A run of the collaborative recommender

    In [sample_ratings] user 2 shares five items with user 1 and rates them
    alike (correlation 1); user 3 shares four and is skipped.  User 2 rates
    items 6 and 99 at 4.0 or more and item 1 below; item 99 is not in the
    catalog. *)

Lemma corrcoef_identical :
  corrcoef [1; 2; 3; 4; 5]%R [1; 2; 3; 4; 5]%R = Some 1%R.
Proof.
  unfold corrcoef.
  assert (C : cov [1; 2; 3; 4; 5]%R [1; 2; 3; 4; 5]%R = (5 / 2)%R)
    by (unfold cov, mean, sum; simpl; lra).
  rewrite C.
  assert (E : Reqb (5 / 2) 0 = false) by (apply Reqb_false; lra).
  rewrite E; simpl; f_equal.
  assert (P : (0 < sqrt (5 / 2))%R) by (apply sqrt_lt_R0; lra).
  assert (S : (sqrt (5 / 2) * sqrt (5 / 2) = 5 / 2)%R)
    by (apply sqrt_sqrt; lra).
  replace (5 / 2 / sqrt (5 / 2) / sqrt (5 / 2))%R with 1%R.
  - unfold clip, Rmax, Rmin.
    destruct (Rle_dec 1 1); [|lra].
    destruct (Rle_dec (-1) 1); lra.
  - set (s := sqrt (5 / 2)) in *; rewrite <- S; field; lra.
Qed.

Example sample_neighbours :
  neighbours_of sample_ratings 1 [1; 2; 3] = [(2, 1%R)].
Proof.
  unfold neighbours_of; cbn [flat_map Z.eqb Pos.eqb app].
  assert (S3 : similarity_of sample_ratings 1 3 = None) by reflexivity.
  assert (S2 : similarity_of sample_ratings 1 2 = Some 1%R).
  { unfold similarity_of.
    change (common_movies_of sample_ratings 1 2) with [11; 12; 13; 14; 15].
    change (map (rating_of sample_ratings 1) [11; 12; 13; 14; 15])
      with [1; 2; 3; 4; 5]%R.
    change (map (rating_of sample_ratings 2) [11; 12; 13; 14; 15])
      with [1; 2; 3; 4; 5]%R.
    apply corrcoef_identical. }
  rewrite S2, S3; reflexivity.
Qed.

Example collaborative_run :
  collaborative_recommendations sample_ratings sample_catalog 1 5 =
  {| tables := (sample_ratings, sample_catalog);
     stdout := [];
     value := Ok [ {| Collab.title := "Heat (1995)";
                      Collab.genres := "Action|Crime|Thriller";
                      Collab.predicted_rating := 5 |} ] |}.
Proof.
  rewrite collaborative_unfold by (simpl; auto).
  unfold top_neighbours.
  change (set_of Z.eqb (map Ratings.userId sample_ratings)) with [1; 2; 3].
  rewrite sample_neighbours.
  change (slice_to 10 (sort_desc snd [(2, 1%R)])) with [(2, 1%R)].
  unfold aggregate; cbn [fold_left].
  unfold high_rated.
  change (filter (fun r => (Ratings.userId r =? 2)
                           && negb (mem Z.eqb (Ratings.movieId r)
                                        (rated_movies sample_ratings 1)))
                 sample_ratings)
    with [rating_row 2 6 5; rating_row 2 99 4.5; rating_row 2 1 3].
  cbn [filter Ratings.rating rating_row].
  rewrite !(proj2 (Rleb_true _ _)) by lra.
  assert (E : Rleb 4 3 = false)
    by (unfold Rleb; destruct (Rle_dec 4 3); [lra | reflexivity]).
  rewrite E.
  cbn [fold_left accumulate dict_mem dict_get dict_set Z.eqb Pos.eqb
       Ratings.movieId Ratings.rating rating_row score weighted_sum].
  cbn [predict flat_map score weighted_sum app].
  rewrite !(proj2 (Rltb_true _ _)) by lra.
  cbn [sort_desc insert_desc snd app].
  rewrite (proj2 (Rltb_false _ _)) by lra.
  change (slice_to 5 ?l) with l.
  change (movie_details sample_catalog
            [(6, ((0 + 5 * 1) / (0 + 1))%R);
             (99, ((0 + 4.5 * 1) / (0 + 1))%R)])
    with [ {| Collab.title := "Heat (1995)";
              Collab.genres := "Action|Crime|Thriller";
              Collab.predicted_rating := ((0 + 5 * 1) / (0 + 1))%R |} ].
  do 4 f_equal; field.
Qed.

(** ** A run of the content recommender

    "heat" is no title of [sample_catalog] and is contained in the third
    one.  That entry shares no genre with the other two, so both have
    similarity 0 and keep their catalog order. *)

Example content_based_run :
  content_based_recommendations sample_catalog "heat" 5 =
  {| tables :=
       {| rows := rows sample_catalog;
          genres_text := Some [ "Adventure Animation Children";
                                "Adventure Children Fantasy";
                                "Action Crime Thriller" ] |};
     stdout := ["Using closest match: Heat (1995)"];
     value :=
       Ok [ {| Content.index := 0;
               Content.title := "Toy Story (1995)";
               Content.genres := "Adventure|Animation|Children";
               Content.similarity := 0 |};
            {| Content.index := 1;
               Content.title := "Jumanji (1995)";
               Content.genres := "Adventure|Children|Fantasy";
               Content.similarity := 0 |} ] |}.
Proof.
  rewrite content_based_unfold; cbv zeta.
  change (find_movie (map Movies.title (rows sample_catalog)) "heat")
    with (Some 2%nat, ["Using closest match: Heat (1995)"]).
  cbv iota beta.
  change (genres_text_of sample_catalog)
    with [ "Adventure Animation Children"; "Adventure Children Fantasy";
           "Action Crime Thriller" ].
  f_equal.
  rewrite rank_similar_closed by (simpl; lia).
  unfold ranking_of, scored.
  cbn [enumerate enumerate_from map filter Nat.eqb negb nth].
  set (D := [ "Adventure Animation Children"; "Adventure Children Fantasy";
              "Action Crime Thriller" ]).
  change (cosine (vector_of D "Action Crime Thriller")
                 (vector_of D "Adventure Animation Children")) with 0%R.
  change (cosine (vector_of D "Action Crime Thriller")
                 (vector_of D "Adventure Children Fantasy")) with 0%R.
  cbn [sort_desc insert_desc snd].
  rewrite (proj2 (Rltb_false _ _)) by lra.
  reflexivity.
Qed.

(* ================================================================== *)
(** * Further properties of the code *)

(** ** The vectorizer *)

Lemma spec_df_pos (documents : list string) (term doc : string) :
  In doc documents -> In term (split doc) -> 1 <= spec_df term documents.
Proof.
  intros Hdoc Hterm; unfold spec_df.
  assert (H : In doc (filter (fun d => mem String.eqb term (split d))
                             documents)).
  { apply filter_In; split; [exact Hdoc|].
    apply (mem_In String.eqb_eq); exact Hterm. }
  destruct (filter _ documents); [contradiction | simpl List.length; lia].
Qed.

Lemma ln_pos_gt1 (x : R) : (1 < x)%R -> (0 < ln x)%R.
Proof. intros H; rewrite <- ln_1; apply ln_increasing; lra. Qed.

Lemma spec_weight_sign (documents : list string) (term doc : string) :
  In doc documents ->
  In term (split doc) ->
  let N := Z.of_nat (List.length documents) in
  let df := spec_df term documents in
  let w := spec_weight documents term doc in
  (df + 1 < N -> (0 < w)%R) /\
  (df + 1 = N -> w = 0%R) /\
  (N < df + 1 -> (w < 0)%R).
Proof.
  intros Hdoc Hterm N df w.
  pose proof (spec_df_pos documents term doc Hdoc Hterm) as Hdf.
  fold df in Hdf.
  assert (Htf : (0 < IZR (spec_tf term doc))%R)
    by (apply IZR_lt, spec_tf_pos; exact Hterm).
  assert (HD : (0 < 1 + IZR df)%R) by (apply IZR_le in Hdf; lra).
  assert (Hq : forall a b : R, (0 < b)%R -> (a / b * b = a)%R)
    by (intros a b Hb; field; lra).
  unfold w, spec_weight; fold N; fold df.
  split; [|split].
  - intros H.
    apply Rmult_lt_0_compat; [exact Htf|].
    apply ln_pos_gt1.
    apply (Rmult_lt_reg_r (1 + IZR df)); [exact HD|].
    rewrite Hq by exact HD.
    apply IZR_lt in H; rewrite plus_IZR in H; lra.
  - intros H.
    apply (spec_weight_zero_iff documents term doc Hdoc Hterm).
    fold N; fold df; lia.
  - intros H.
    assert (HN : (0 < IZR N)%R).
    { apply IZR_lt; unfold N.
      destruct documents; [contradiction | simpl List.length; lia]. }
    assert (Hln : (ln (IZR N / (1 + IZR df)) < 0)%R).
    { apply ln_neg; split.
      - apply Rdiv_lt_0_compat; assumption.
      - apply (Rmult_lt_reg_r (1 + IZR df)); [exact HD|].
        rewrite Hq by exact HD.
        apply IZR_lt in H; rewrite plus_IZR in H; lra. }
    nra.
Qed.

(** X1. [compute_tfidf] never raises: the divisor 1 + df is never 0
    and [math.log] never receives a number <= 0.  It returns one vector per
    document, in order. *)
Theorem compute_tfidf_never_raises :
  forall documents : list string,
    exists vectors,
      compute_tfidf documents = Ok vectors /\
      List.length vectors = List.length documents.
Proof.
  intros documents.
  exists (map (vector_of documents) documents); split.
  - apply compute_tfidf_closed.
  - apply length_map.
Qed.

Lemma set_of_nil_iff {K : Type} (eqb : K -> K -> bool) (l : list K) :
  set_of eqb l = [] <-> l = [].
Proof.
  split; [|intros ->; reflexivity].
  destruct l as [|x l]; [reflexivity | discriminate].
Qed.

(** X2. A document without tokens, empty or made of whitespace only, gets
    the empty vector, and only such a document does. *)
Theorem compute_tfidf_empty_document :
  forall (documents : list string) (i : nat) (doc : string),
    nth_error documents i = Some doc ->
    exists vectors vector,
      compute_tfidf documents = Ok vectors /\
      nth_error vectors i = Some vector /\
      (vector = [] <-> split doc = []).
Proof.
  intros documents i doc Hdoc.
  exists (map (vector_of documents) documents), (vector_of documents doc).
  split; [apply compute_tfidf_closed|].
  split; [rewrite nth_error_map, Hdoc; reflexivity|].
  rewrite <- (set_of_nil_iff String.eqb (split doc)).
  rewrite <- (vector_of_keys documents doc); unfold keys; split.
  - intros ->; reflexivity.
  - apply map_eq_nil.
Qed.

Lemma compute_tfidf_empty_document_witness :
  exists vectors vector,
    compute_tfidf ["a b"; "   "] = Ok vectors /\
    nth_error vectors 1 = Some vector /\
    (vector = [] <-> split "   " = []).
Proof.
  apply (compute_tfidf_empty_document ["a b"; "   "] 1%nat "   ").
  reflexivity.
Defined.

(** X3. The sign of a stored weight is decided by the document frequency
    alone: positive exactly when the term is missing from at least two
    documents, zero when it is missing from exactly one, negative when it
    occurs in all of them.  With one or two documents no weight is
    positive. *)
Theorem compute_tfidf_weight_sign :
  forall (documents : list string) (i : nat) (doc term : string),
    nth_error documents i = Some doc ->
    In term (split doc) ->
    exists vectors vector w,
      compute_tfidf documents = Ok vectors /\
      nth_error vectors i = Some vector /\
      dict_get String.eqb vector term = Some w /\
      let N := Z.of_nat (List.length documents) in
      let df := spec_df term documents in
      1 <= df <= N /\
      ((0 < w)%R <-> df <= N - 2) /\
      (w = 0%R <-> df = N - 1) /\
      ((w < 0)%R <-> df = N) /\
      (N <= 2 -> (w <= 0)%R).
Proof.
  intros documents i doc term Hdoc Hterm.
  pose proof (nth_error_In _ _ Hdoc) as Hin.
  exists (map (vector_of documents) documents), (vector_of documents doc),
         (spec_weight documents term doc).
  split; [apply compute_tfidf_closed|].
  split; [rewrite nth_error_map, Hdoc; reflexivity|].
  split.
  { rewrite vector_of_get.
    apply (mem_In String.eqb_eq) in Hterm; rewrite Hterm; reflexivity. }
  intros N df.
  pose proof (spec_df_pos documents term doc Hin Hterm) as Hlo.
  pose proof (spec_df_bounds term documents) as [_ Hhi].
  fold df in Hlo, Hhi; fold N in Hhi.
  destruct (spec_weight_sign documents term doc Hin Hterm) as [Hp [Hz Hn]].
  fold N in Hp, Hz, Hn; fold df in Hp, Hz, Hn.
  set (w := spec_weight documents term doc) in *.
  split; [lia|].
  assert (Hcases : df + 1 < N \/ df + 1 = N \/ N < df + 1) by lia.
  repeat split.
  - intros Hw; destruct Hcases as [H|[H|H]]; [lia | | ].
    + rewrite (Hz H) in Hw; lra.
    + specialize (Hn H); lra.
  - intros H; apply Hp; lia.
  - intros Hw; destruct Hcases as [H|[H|H]]; [ | lia | ].
    + specialize (Hp H); lra.
    + specialize (Hn H); lra.
  - intros H; apply Hz; lia.
  - intros Hw; destruct Hcases as [H|[H|H]]; [ | | lia].
    + specialize (Hp H); lra.
    + rewrite (Hz H) in Hw; lra.
  - intros H; apply Hn; lia.
  - intros HN; destruct Hcases as [H|[H|H]]; [lia | | ].
    + rewrite (Hz H); lra.
    + specialize (Hn H); lra.
Qed.

Lemma compute_tfidf_weight_sign_witness :
  exists vectors vector w,
    compute_tfidf ["a b"; "a c"; "a"] = Ok vectors /\
    nth_error vectors 0 = Some vector /\
    dict_get String.eqb vector "b" = Some w /\
    let N := Z.of_nat (List.length ["a b"; "a c"; "a"]) in
    let df := spec_df "b" ["a b"; "a c"; "a"] in
    1 <= df <= N /\
    ((0 < w)%R <-> df <= N - 2) /\
    (w = 0%R <-> df = N - 1) /\
    ((w < 0)%R <-> df = N) /\
    (N <= 2 -> (w <= 0)%R).
Proof.
  apply (compute_tfidf_weight_sign ["a b"; "a c"; "a"] 0%nat "a b" "b").
  - reflexivity.
  - simpl; auto.
Defined.

(** X4. Every term of every vector is a key of [term_doc_freq], with a count
    between 1 and the number of documents: the lookup on the [defaultdict]
    in the second loop never meets a missing key. *)
Theorem compute_tfidf_vocabulary :
  forall (documents : list string) (i : nat) (doc : string),
    nth_error documents i = Some doc ->
    exists vectors vector,
      compute_tfidf documents = Ok vectors /\
      nth_error vectors i = Some vector /\
      forall term,
        In term (keys vector) ->
        exists c,
          dict_get String.eqb (doc_freq (map split documents)) term = Some c /\
          1 <= c <= Z.of_nat (List.length documents).
Proof.
  intros documents i doc Hdoc.
  pose proof (nth_error_In _ _ Hdoc) as Hin.
  exists (map (vector_of documents) documents), (vector_of documents doc).
  split; [apply compute_tfidf_closed|].
  split; [rewrite nth_error_map, Hdoc; reflexivity|].
  intros term Hterm.
  rewrite vector_of_keys, (set_of_In String.eqb_eq) in Hterm.
  pose proof (spec_df_pos documents term doc Hin Hterm) as Hlo.
  pose proof (spec_df_bounds term documents) as [_ Hhi].
  pose proof (freq_of_doc_freq documents term) as Hf.
  unfold freq_of in Hf.
  destruct (dict_get String.eqb (doc_freq (map split documents)) term)
    as [c|]; [|lia].
  exists c; split; [reflexivity | lia].
Qed.

Lemma compute_tfidf_vocabulary_witness :
  exists vectors vector,
    compute_tfidf ["a b"; "a"] = Ok vectors /\
    nth_error vectors 0 = Some vector /\
    forall term,
      In term (keys vector) ->
      exists c,
        dict_get String.eqb (doc_freq (map split ["a b"; "a"])) term = Some c /\
        1 <= c <= Z.of_nat (List.length ["a b"; "a"]).
Proof.
  apply (compute_tfidf_vocabulary ["a b"; "a"] 0%nat "a b").
  reflexivity.
Defined.

(** ** Cosine similarity *)

Lemma common_terms_In (vec1 vec2 : dict string R) (t : string) :
  In t (common_terms vec1 vec2) <-> In t (keys vec1) /\ In t (keys vec2).
Proof.
  unfold common_terms.
  rewrite (set_inter_In String.eqb_eq), !(set_of_In String.eqb_eq); tauto.
Qed.

Lemma common_terms_NoDup (vec1 vec2 : dict string R) :
  NoDup (common_terms vec1 vec2).
Proof.
  unfold common_terms, set_inter.
  apply NoDup_filter, set_of_NoDup; exact String.eqb_eq.
Qed.

Lemma common_terms_perm (vec1 vec2 : dict string R) :
  Permutation (common_terms vec1 vec2) (common_terms vec2 vec1).
Proof.
  apply NoDup_Permutation; try apply common_terms_NoDup.
  intros t; rewrite !common_terms_In; tauto.
Qed.

Lemma magnitude_nonneg (vec : dict string R) : (0 <= magnitude vec)%R.
Proof. apply sqrt_pos. Qed.

Lemma cosine_similarity_closed (vec1 vec2 : dict string R) :
  cosine_similarity vec1 vec2 = Ok (cosine_closed vec1 vec2).
Proof.
  unfold cosine_similarity, cosine_closed, dot_product.
  fold (common_terms vec1 vec2).
  destruct (common_terms vec1 vec2) as [|t0 rest] eqn:Ecommon; [reflexivity|].
  rewrite (mapM_ok _ (fun t => (get_or_zero vec1 t * get_or_zero vec2 t)%R)).
  2:{ intros t Ht; rewrite <- Ecommon in Ht.
      apply common_terms_In in Ht; destruct Ht as [H1 H2].
      apply (In_keys_get String.eqb_eq) in H1; destruct H1 as [a Ha].
      apply (In_keys_get String.eqb_eq) in H2; destruct H2 as [b Hb].
      unfold dict_index, get_or_zero; rewrite Ha, Hb; reflexivity. }
  cbn [bind].
  rewrite !math_sqrt_ok by apply sum_squares_nonneg; cbn [bind].
  fold (magnitude vec1); fold (magnitude vec2).
  destruct (Reqb (magnitude vec1) 0 || Reqb (magnitude vec2) 0) eqn:Ez;
    [reflexivity|].
  apply orb_false_iff in Ez; destruct Ez as [Ez1 Ez2].
  apply Reqb_false in Ez1; apply Reqb_false in Ez2.
  pose proof (magnitude_nonneg vec1); pose proof (magnitude_nonneg vec2).
  apply py_div_ok, Rgt_not_eq, Rmult_lt_0_compat; lra.
Qed.

Lemma sum_filter_le {A : Type} (f : A -> R) (p : A -> bool) (l : list A) :
  (forall x, In x l -> (0 <= f x)%R) ->
  (sum (map f (filter p l)) <= sum (map f l))%R.
Proof.
  induction l as [|x l IH]; intros H; simpl; [lra|].
  assert (0 <= f x)%R by (apply H; left; reflexivity).
  assert (sum (map f (filter p l)) <= sum (map f l))%R
    by (apply IH; intros y Hy; apply H; right; exact Hy).
  destruct (p x); simpl; rewrite ?sum_cons; lra.
Qed.

(** Cauchy-Schwarz on two families indexed by a list. *)
Lemma cauchy_schwarz {A : Type} (f g : A -> R) (l : list A) :
  ((sum (map (fun a => f a * g a) l)) ^ 2
   <= sum (map (fun a => f a ^ 2) l) * sum (map (fun a => g a ^ 2) l))%R.
Proof.
  induction l as [|a l IH]; cbn [map].
  - unfold sum; simpl; lra.
  - rewrite !sum_cons.
    set (C := sum (map (fun a => f a * g a)%R l)) in *.
    set (P := sum (map (fun a => f a ^ 2)%R l)) in *.
    set (Q := sum (map (fun a => g a ^ 2)%R l)) in *.
    assert (HP : (0 <= P)%R).
    { apply sum_nonneg; intros x Hx; apply in_map_iff in Hx.
      destruct Hx as [y [<- _]]; apply pow2_ge_0. }
    assert (HQ : (0 <= Q)%R).
    { apply sum_nonneg; intros x Hx; apply in_map_iff in Hx.
      destruct Hx as [y [<- _]]; apply pow2_ge_0. }
    set (x := f a); set (y := g a).
    (* 2 C x y <= P y^2 + Q x^2 *)
    assert (Hmix : (2 * C * (x * y) <= P * y ^ 2 + Q * x ^ 2)%R).
    { assert (Hs : ((2 * C * (x * y)) ^ 2 <= (P * y ^ 2 + Q * x ^ 2) ^ 2)%R).
      { assert (H4 : (4 * (C ^ 2) * (x ^ 2 * y ^ 2)
                      <= 4 * (P * Q) * (x ^ 2 * y ^ 2))%R).
        { apply Rmult_le_compat_r.
          - apply Rmult_le_pos; apply pow2_ge_0.
          - lra. }
        assert (Hsq : (0 <= (P * y ^ 2 - Q * x ^ 2) ^ 2)%R)
          by apply pow2_ge_0.
        nra. }
      assert (Hnn : (0 <= P * y ^ 2 + Q * x ^ 2)%R).
      { assert (0 <= y ^ 2)%R by apply pow2_ge_0.
        assert (0 <= x ^ 2)%R by apply pow2_ge_0.
        nra. }
      destruct (Rle_or_lt (2 * C * (x * y)) (P * y ^ 2 + Q * x ^ 2))
        as [Hle|Hgt]; [exact Hle|].
      exfalso; nra. }
    nra.
Qed.

Lemma set_of_NoDup_id {K : Type} (eqb : K -> K -> bool)
    (eqb_eq : forall a b, eqb a b = true <-> a = b) (l : list K) :
  NoDup l -> set_of eqb l = l.
Proof.
  intros H; unfold set_of.
  assert (G : forall seen, (forall x, In x l -> ~ In x seen) ->
                           unique_from eqb seen l = l).
  { induction H as [|x l Hx Hnd IH]; intros seen Hs; simpl; [reflexivity|].
    assert (E : mem eqb x seen = false)
      by (apply (mem_not_In eqb_eq), Hs; left; reflexivity).
    rewrite E; f_equal; apply IH.
    intros y Hy [<-|Hin]; [contradiction|].
    apply (Hs y); [right; exact Hy | exact Hin]. }
  apply G; intros x _ [].
Qed.

Lemma get_or_zero_values (vec : dict string R) :
  NoDup (keys vec) -> map (get_or_zero vec) (keys vec) = values vec.
Proof.
  induction vec as [|[k x] vec IH]; intros H; simpl; [reflexivity|].
  inversion H as [|? ? Hk Hnd]; subst.
  unfold get_or_zero at 1; simpl; rewrite String.eqb_refl; f_equal.
  rewrite <- (IH Hnd).
  apply map_ext_in; intros t Ht.
  unfold get_or_zero; simpl.
  destruct (String.eqb k t) eqn:E; [|reflexivity].
  apply String.eqb_eq in E; subst; contradiction.
Qed.

Lemma common_squares_le (vec1 vec2 : dict string R) :
  NoDup (keys vec1) ->
  (sum (map (fun t => get_or_zero vec1 t ^ 2) (common_terms vec1 vec2))
   <= sum (map (fun val => val ^ 2) (values vec1)))%R.
Proof.
  intros H.
  rewrite <- (get_or_zero_values vec1 H), map_map.
  unfold common_terms, set_inter.
  rewrite (set_of_NoDup_id String.eqb String.eqb_eq _ H).
  apply sum_filter_le; intros t _; apply pow2_ge_0.
Qed.

Lemma dot_product_bound (vec1 vec2 : dict string R) :
  NoDup (keys vec1) -> NoDup (keys vec2) ->
  (Rabs (dot_product vec1 vec2) <= magnitude vec1 * magnitude vec2)%R.
Proof.
  intros H1 H2.
  set (S1 := sum (map (fun val => val ^ 2)%R (values vec1))).
  set (S2 := sum (map (fun val => val ^ 2)%R (values vec2))).
  assert (P1 : (0 <= S1)%R) by apply sum_squares_nonneg.
  assert (P2 : (0 <= S2)%R) by apply sum_squares_nonneg.
  assert (Hcs : ((dot_product vec1 vec2) ^ 2 <= S1 * S2)%R).
  { unfold dot_product.
    eapply Rle_trans; [apply cauchy_schwarz|].
    apply Rmult_le_compat.
    - apply sum_nonneg; intros x Hx; apply in_map_iff in Hx.
      destruct Hx as [y [<- _]]; apply pow2_ge_0.
    - apply sum_nonneg; intros x Hx; apply in_map_iff in Hx.
      destruct Hx as [y [<- _]]; apply pow2_ge_0.
    - apply common_squares_le; exact H1.
    - rewrite (sum_perm _ _ (Permutation_map _ (common_terms_perm vec1 vec2))).
      apply common_squares_le; exact H2. }
  assert (Hm : ((magnitude vec1 * magnitude vec2) ^ 2 = S1 * S2)%R).
  { unfold magnitude; fold S1; fold S2.
    replace ((sqrt S1 * sqrt S2) ^ 2)%R
      with ((sqrt S1 * sqrt S1) * (sqrt S2 * sqrt S2))%R by ring.
    rewrite !sqrt_sqrt by assumption; reflexivity. }
  pose proof (magnitude_nonneg vec1); pose proof (magnitude_nonneg vec2).
  set (M := (magnitude vec1 * magnitude vec2)%R) in *.
  assert (HM : (0 <= M)%R) by (apply Rmult_le_pos; assumption).
  set (d := dot_product vec1 vec2) in *.
  unfold Rabs; destruct (Rcase_abs d); nra.
Qed.

Lemma cosine_closed_range (vec1 vec2 : dict string R) :
  NoDup (keys vec1) -> NoDup (keys vec2) ->
  (-1 <= cosine_closed vec1 vec2 <= 1)%R.
Proof.
  intros H1 H2; unfold cosine_closed.
  destruct (common_terms vec1 vec2); [lra|].
  destruct (Reqb (magnitude vec1) 0 || Reqb (magnitude vec2) 0) eqn:Ez; [lra|].
  apply orb_false_iff in Ez; destruct Ez as [Ez1 Ez2].
  apply Reqb_false in Ez1; apply Reqb_false in Ez2.
  pose proof (magnitude_nonneg vec1); pose proof (magnitude_nonneg vec2).
  pose proof (dot_product_bound vec1 vec2 H1 H2) as Hb.
  set (M := (magnitude vec1 * magnitude vec2)%R) in *.
  assert (HM : (0 < M)%R) by (apply Rmult_lt_0_compat; lra).
  set (d := dot_product vec1 vec2) in *.
  assert (Hd : (- M <= d <= M)%R)
    by (unfold Rabs in Hb; destruct (Rcase_abs d); lra).
  split.
  - apply (Rmult_le_reg_r M); [exact HM|].
    unfold Rdiv; rewrite Rmult_assoc, Rinv_l by lra; lra.
  - apply (Rmult_le_reg_r M); [exact HM|].
    unfold Rdiv; rewrite Rmult_assoc, Rinv_l by lra; lra.
Qed.

Lemma sum_ge_term (l : list R) (x : R) :
  (forall y, In y l -> (0 <= y)%R) -> In x l -> (x <= sum l)%R.
Proof.
  induction l as [|a l IH]; intros Hnn Hin; [contradiction|].
  rewrite sum_cons.
  assert (0 <= a)%R by (apply Hnn; left; reflexivity).
  assert (0 <= sum l)%R
    by (apply sum_nonneg; intros y Hy; apply Hnn; right; exact Hy).
  destruct Hin as [->|Hin]; [lra|].
  assert (x <= sum l)%R
    by (apply IH; [intros y Hy; apply Hnn; right; exact Hy | exact Hin]).
  lra.
Qed.

(** ** The content recommender *)

Lemma cosine_is_closed (vec1 vec2 : dict string R) :
  cosine vec1 vec2 = cosine_closed vec1 vec2.
Proof.
  pose proof (cosine_similarity_total vec1 vec2) as H.
  rewrite cosine_similarity_closed in H; inversion H; reflexivity.
Qed.

Lemma vector_of_NoDup (documents : list string) (doc : string) :
  NoDup (keys (vector_of documents doc)).
Proof. rewrite vector_of_keys; apply set_of_NoDup; exact String.eqb_eq. Qed.

(** Two vectors of one corpus: the similarity is between 0 and 1. *)
Lemma corpus_cosine_range (documents : list string) (d1 d2 : string) :
  (0 <= cosine (vector_of documents d1) (vector_of documents d2) <= 1)%R.
Proof.
  split.
  - destruct (cosine_similarity_ok (vector_of documents d1)
                                   (vector_of documents d2)) as [c [Hc Hs]].
    unfold cosine; rewrite Hc; apply Hs.
    intros t a b Ha Hb.
    rewrite vector_of_get in Ha, Hb.
    destruct (mem String.eqb t (split d1)); [|discriminate].
    destruct (mem String.eqb t (split d2)); [|discriminate].
    inversion Ha; inversion Hb; subst; unfold spec_weight.
    set (L := ln _).
    assert (T1 : (0 <= IZR (spec_tf t d1))%R)
      by (apply IZR_le; unfold spec_tf; lia).
    assert (T2 : (0 <= IZR (spec_tf t d2))%R)
      by (apply IZR_le; unfold spec_tf; lia).
    replace (IZR (spec_tf t d1) * L * (IZR (spec_tf t d2) * L))%R
      with ((IZR (spec_tf t d1) * IZR (spec_tf t d2)) * (L * L))%R by ring.
    apply Rmult_le_pos; [apply Rmult_le_pos; assumption | nra].
  - rewrite cosine_is_closed.
    apply cosine_closed_range; apply vector_of_NoDup.
Qed.

Lemma filter_neq_seq_length (e a n : nat) :
  List.length (filter (fun i => negb (Nat.eqb i e)) (seq a n))
  = if ((a <=? e) && (e <? a + n))%nat then (n - 1)%nat else n.
Proof.
  revert a; induction n as [|n IH]; intros a; simpl.
  - destruct ((a <=? e)%nat && (e <? a + 0)%nat) eqn:E; [|reflexivity].
    apply andb_true_iff in E; destruct E as [E1 E2].
    apply Nat.leb_le in E1; apply Nat.ltb_lt in E2; lia.
  - rewrite Nat.sub_0_r.
    destruct (Nat.eqb a e) eqn:Ea; simpl; rewrite IH.
    + apply Nat.eqb_eq in Ea; subst a.
      assert (E1 : ((S e <=? e) && (e <? S e + n))%nat = false).
      { apply andb_false_iff; left; apply Nat.leb_gt; lia. }
      assert (E2 : ((e <=? e) && (e <? e + S n))%nat = true).
      { apply andb_true_iff; split;
          [apply Nat.leb_le | apply Nat.ltb_lt]; lia. }
      rewrite E1, E2; reflexivity.
    + apply Nat.eqb_neq in Ea.
      destruct ((S a <=? e) && (e <? S a + n))%nat eqn:E1.
      * apply andb_true_iff in E1; destruct E1 as [E1 E2].
        apply Nat.leb_le in E1; apply Nat.ltb_lt in E2.
        assert (E3 : ((a <=? e) && (e <? a + S n))%nat = true).
        { apply andb_true_iff; split;
            [apply Nat.leb_le | apply Nat.ltb_lt]; lia. }
        rewrite E3; lia.
      * assert (E3 : ((a <=? e) && (e <? a + S n))%nat = false).
        { apply andb_false_iff in E1; apply andb_false_iff.
          destruct E1 as [E1|E1].
          - apply Nat.leb_gt in E1; left; apply Nat.leb_gt; lia.
          - apply Nat.ltb_ge in E1; right; apply Nat.ltb_ge; lia. }
        rewrite E3; reflexivity.
Qed.

Lemma ranking_of_length (vectors : list (dict string R)) (e : nat) :
  (e < List.length vectors)%nat ->
  List.length (ranking_of vectors e) = (List.length vectors - 1)%nat.
Proof.
  intros He.
  rewrite <- (length_map fst).
  rewrite (Permutation_length (ranking_of_indices vectors e)).
  rewrite filter_neq_seq_length.
  assert (E : ((0 <=? e) && (e <? 0 + List.length vectors))%nat = true).
  { apply andb_true_iff; split; [apply Nat.leb_le | apply Nat.ltb_lt]; lia. }
  rewrite E; reflexivity.
Qed.




(** The value of the call for any input: the rows of a slice of the ranking
    against the entry that was found, or the empty frame. *)
Lemma content_based_rows (movies_df : MoviesDF) (movie_title : string)
    (n : Z) :
  let text := genres_text_of movies_df in
  let vectors := map (vector_of text) text in
  match fst (find_movie (map Movies.title (rows movies_df)) movie_title) with
  | Some e =>
      (e < List.length vectors)%nat /\
      value (content_based_recommendations movies_df movie_title n)
      = Ok (map (content_row (rows movies_df))
                (slice_to n (ranking_of vectors e)))
  | None =>
      value (content_based_recommendations movies_df movie_title n) = Ok []
  end.
Proof.
  intros text vectors.
  destruct (spec_resolve_total (map Movies.title (rows movies_df)) movie_title)
    as [r Hr].
  destruct (content_based_value movies_df movie_title n r Hr) as [_ Hv].
  assert (Hlen : List.length (rows movies_df) = List.length vectors).
  { unfold vectors, text, genres_text_of; rewrite !length_map; reflexivity. }
  rewrite (find_movie_spec _ _ _ Hr).
  replace (fst (found_by (map Movies.title (rows movies_df)) r))
    with (resolved r) by (destruct r; reflexivity).
  destruct (resolved r) as [e|] eqn:Er; [|exact Hv].
  assert (He : (e < List.length vectors)%nat).
  { rewrite <- Hlen, <- (length_map Movies.title).
    apply (spec_resolve_lt _ _ _ _ Hr Er). }
  split; [exact He|].
  rewrite Hv; fold text; fold vectors.
  apply rank_similar_closed; assumption.
Qed.



(** X10. When the title is found, the frame has min(n, N - 1) rows for
    n >= 0, N being the size of the catalog; for n < 0 the slice [[:n]]
    drops the last -n rows of the ranking instead, which leaves
    max(0, N - 1 + n) rows. *)
Theorem content_based_row_count :
  forall (movies_df : MoviesDF) (movie_title : string) (n : Z) (e : nat),
    fst (find_movie (map Movies.title (rows movies_df)) movie_title)
      = Some e ->
    exists recs,
      value (content_based_recommendations movies_df movie_title n)
        = Ok recs /\
      let N := Z.of_nat (List.length (rows movies_df)) in
      (0 <= n -> Z.of_nat (List.length recs) = Z.min n (N - 1)) /\
      (n < 0 -> Z.of_nat (List.length recs) = Z.max 0 (N - 1 + n)).
Proof.
  intros movies_df movie_title n e Hfound.
  pose proof (content_based_rows movies_df movie_title n) as H.
  cbv zeta in H; rewrite Hfound in H; destruct H as [He Hv].
  set (text := genres_text_of movies_df) in *.
  set (vectors := map (vector_of text) text) in *.
  assert (Hlen : List.length (rows movies_df) = List.length vectors).
  { unfold vectors, text, genres_text_of; rewrite !length_map; reflexivity. }
  eexists; split; [exact Hv|].
  intros N; rewrite length_map.
  pose proof (ranking_of_length vectors e He) as Hr.
  unfold slice_to; split; intros Hn.
  - destruct (n <? 0) eqn:E; [apply Z.ltb_lt in E; lia|].
    rewrite length_firstn, Hr; unfold N; rewrite Hlen; lia.
  - destruct (n <? 0) eqn:E; [|apply Z.ltb_ge in E; lia].
    rewrite length_firstn, Hr; unfold N; rewrite Hlen; lia.
Qed.

Lemma content_based_row_count_witness :
  exists recs,
    value (content_based_recommendations sample_catalog "heat" (-1))
      = Ok recs /\
    let N := Z.of_nat (List.length (rows sample_catalog)) in
    (0 <= -1 -> Z.of_nat (List.length recs) = Z.min (-1) (N - 1)) /\
    (-1 < 0 -> Z.of_nat (List.length recs) = Z.max 0 (N - 1 + -1)).
Proof.
  apply (content_based_row_count sample_catalog "heat" (-1) 2%nat).
  reflexivity.
Defined.

Lemma lower_nil_iff (s : string) : lower s = "" <-> s = "".
Proof.
  destruct s; simpl; split; intros H; try reflexivity; discriminate.
Qed.

(** X13. An empty title is no "not found": [""] is a substring of every
    title, so on a catalog that is not empty and has no empty title the
    second pass stops at the first entry, and the call reports it as the
    closest match and ranks against it. *)
Theorem content_based_empty_title :
  forall (movies_df : MoviesDF) (n : Z) (m : Movies.row)
         (others : list Movies.row),
    rows movies_df = m :: others ->
    (forall x, In x (rows movies_df) -> Movies.title x <> "") ->
    let out := content_based_recommendations movies_df "" n in
    fst (find_movie (map Movies.title (rows movies_df)) "") = Some 0%nat /\
    stdout out = [("Using closest match: " ++ Movies.title m)%string] /\
    exists vectors,
      compute_tfidf (genres_text_of movies_df) = Ok vectors /\
      value out = rank_similar (rows movies_df) vectors 0 n.
Proof.
  intros movies_df n m others Hrows Hne out.
  assert (Hfm : find_movie (map Movies.title (rows movies_df)) ""
                = (Some 0%nat,
                   [("Using closest match: " ++ Movies.title m)%string])).
  { unfold find_movie.
    assert (E : find_first (fun t => String.eqb (lower t) (lower "")) 0
                           (map Movies.title (rows movies_df)) = None).
    { apply find_first_None; intros t Ht.
      apply in_map_iff in Ht; destruct Ht as [x [<- Hx]].
      destruct (String.eqb (lower (Movies.title x)) (lower "")) eqn:Eq;
        [|reflexivity].
      apply String.eqb_eq in Eq; simpl in Eq.
      apply (proj1 (lower_nil_iff _)) in Eq; exfalso; apply (Hne x Hx Eq). }
    rewrite E, Hrows; simpl.
    destruct (lower (Movies.title m)); reflexivity. }
  split; [rewrite Hfm; reflexivity|].
  unfold out; rewrite content_based_unfold; cbv zeta; rewrite Hfm.
  split; [reflexivity|].
  eexists; split; [apply compute_tfidf_closed | reflexivity].
Qed.

Lemma content_based_empty_title_witness :
  let out := content_based_recommendations sample_catalog "" 5 in
  fst (find_movie (map Movies.title (rows sample_catalog)) "") = Some 0%nat /\
  stdout out = ["Using closest match: Toy Story (1995)"] /\
  exists vectors,
    compute_tfidf (genres_text_of sample_catalog) = Ok vectors /\
    value out = rank_similar (rows sample_catalog) vectors 0 5.
Proof.
  apply (content_based_empty_title sample_catalog 5
           {| Movies.movieId := 1; Movies.title := "Toy Story (1995)";
              Movies.genres := "Adventure|Animation|Children" |}
           [ {| Movies.movieId := 2; Movies.title := "Jumanji (1995)";
                Movies.genres := "Adventure|Children|Fantasy" |};
             {| Movies.movieId := 6; Movies.title := "Heat (1995)";
                Movies.genres := "Action|Crime|Thriller" |} ]).
  - reflexivity.
  - intros x Hx; simpl in Hx.
    destruct Hx as [<-|[<-|[<-|[]]]]; discriminate.
Defined.

(** ** The collaborative recommender *)

Lemma movie_details_length (movies_df : MoviesDF) (top : list (Z * R)) :
  (List.length (movie_details movies_df top) <= List.length top)%nat.
Proof.
  induction top as [|[m p] top IH]; [simpl; lia|].
  unfold movie_details; cbn [flat_map]; fold (movie_details movies_df top).
  rewrite length_app.
  destruct (filter _ (rows movies_df)); simpl List.length; lia.
Qed.

Lemma movie_details_In (movies_df : MoviesDF) (top : list (Z * R))
    (row : Collab.row) :
  In row (movie_details movies_df top) ->
  exists m p movie,
    In (m, p) top /\ In movie (rows movies_df) /\
    Movies.movieId movie = m /\
    Collab.title row = Movies.title movie /\
    Collab.genres row = Movies.genres movie /\
    Collab.predicted_rating row = p.
Proof.
  unfold movie_details; rewrite in_flat_map.
  intros [[m p] [Hin Hrow]].
  destruct (filter (fun x => Movies.movieId x =? m) (rows movies_df))
    as [|movie rest] eqn:E; [contradiction|].
  destruct Hrow as [<-|[]].
  assert (Hm : In movie (filter (fun x => Movies.movieId x =? m)
                                (rows movies_df)))
    by (rewrite E; left; reflexivity).
  apply filter_In in Hm; destruct Hm as [Hm Hid]; apply Z.eqb_eq in Hid.
  exists m, p, movie; repeat split; assumption.
Qed.

(** The value of the call for any input. *)
Lemma collaborative_value (ratings_df : RatingsDF) (movies_df : MoviesDF)
    (target n : Z) :
  value (collaborative_recommendations ratings_df movies_df target n) = Ok []
  \/
  (In target (map Ratings.userId ratings_df) /\
   value (collaborative_recommendations ratings_df movies_df target n)
   = Ok (movie_details movies_df
           (slice_to n
              (sort_desc snd
                 (predict
                    (aggregate ratings_df (rated_movies ratings_df target)
                               (top_neighbours ratings_df target))))))).
Proof.
  destruct (in_dec Z.eq_dec target (map Ratings.userId ratings_df)) as [H|H].
  - right; split; [exact H|].
    rewrite (collaborative_unfold _ _ _ _ H); reflexivity.
  - left; rewrite (collaborative_unknown_user _ _ _ _ H); reflexivity.
Qed.

(** X14. Whatever the rating log, the catalog, the user id and [n], the
    collaborative recommender returns a frame and raises nothing (the
    lookups [.values[0]] always find a row).  For n >= 0 the frame has at
    most n rows, and every row carries the title and genres of a catalog
    row. *)
Theorem collaborative_never_raises :
  forall (ratings_df : RatingsDF) (movies_df : MoviesDF) (user_id n : Z),
    exists result,
      value (collaborative_recommendations ratings_df movies_df user_id n)
        = Ok result /\
      (0 <= n -> (List.length result <= Z.to_nat n)%nat) /\
      forall row, In row result ->
        exists movie,
          In movie (rows movies_df) /\
          Collab.title row = Movies.title movie /\
          Collab.genres row = Movies.genres movie.
Proof.
  intros ratings_df movies_df user_id n.
  destruct (collaborative_value ratings_df movies_df user_id n)
    as [Hv | [_ Hv]].
  - exists []; split; [exact Hv|]; split; [simpl; lia | intros row []].
  - eexists; split; [exact Hv|]; split.
    + intros Hn.
      eapply Nat.le_trans; [apply movie_details_length|].
      rewrite (slice_to_nonneg _ _ Hn); apply firstn_le_length.
    + intros row Hrow; apply movie_details_In in Hrow.
      destruct Hrow as [m [p [movie [_ [Hm [_ [Ht [Hg _]]]]]]]].
      exists movie; auto.
Qed.

Lemma neighbours_of_users (ratings_df : RatingsDF) (target : Z)
    (users : list Z) (u : Z) :
  In u (map fst (neighbours_of ratings_df target users)) ->
  In u users /\ u <> target.
Proof.
  intros H; apply in_map_iff in H; destruct H as [[u' s] [E Hin]].
  simpl in E; subst u'.
  apply neighbours_of_In in Hin; tauto.
Qed.

Lemma neighbours_of_NoDup (ratings_df : RatingsDF) (target : Z)
    (users : list Z) :
  NoDup users -> NoDup (map fst (neighbours_of ratings_df target users)).
Proof.
  induction 1 as [|u users Hu Hnd IH]; [constructor|].
  cbn [neighbours_of flat_map]; fold (neighbours_of ratings_df target users).
  destruct (u =? target); [exact IH|].
  destruct (similarity_of ratings_df target u) as [s|]; [|exact IH].
  simpl; constructor; [|exact IH].
  intros Hin; apply neighbours_of_users in Hin; tauto.
Qed.

(** X16. A user is a candidate neighbour at most once, however many rows it
    has in the log, and the target is never its own neighbour: the loop
    runs over [unique()] and skips the target. *)
Theorem neighbours_distinct :
  forall (ratings_df : RatingsDF) (user_id : Z),
    exists similar_users,
      find_similar_users ratings_df user_id (user_rows ratings_df user_id)
        (rated_movies ratings_df user_id)
        (set_of Z.eqb (map Ratings.userId ratings_df))
        = Ok similar_users /\
      NoDup (map fst similar_users) /\
      ~ In user_id (map fst similar_users).
Proof.
  intros ratings_df user_id.
  eexists; split; [apply find_similar_users_closed|]; split.
  - apply neighbours_of_NoDup, set_of_NoDup; exact Z.eqb_eq.
  - intros H; apply neighbours_of_users in H; tauto.
Qed.

Lemma slice_to_nil {A : Type} (n : Z) : slice_to n (@nil A) = [].
Proof. unfold slice_to; destruct (n <? 0); apply firstn_nil. Qed.

Lemma common_movies_of_length (ratings_df : RatingsDF) (target u : Z) :
  (List.length (common_movies_of ratings_df target u)
   <= List.length (rated_movies ratings_df target))%nat.
Proof.
  apply NoDup_incl_length.
  - apply common_movies_of_spec.
  - intros m Hm; unfold common_movies_of in Hm.
    apply (set_inter_In Z.eqb_eq) in Hm; tauto.
Qed.

(** X17. A target user who has rated fewer than 5 distinct items gets no
    recommendation at all: no other user can share 5 items with it, so no
    neighbour is kept and the frame is empty. *)
Theorem collaborative_needs_five_ratings :
  forall (ratings_df : RatingsDF) (movies_df : MoviesDF) (user_id n : Z),
    (List.length (rated_movies ratings_df user_id) < 5)%nat ->
    find_similar_users ratings_df user_id (user_rows ratings_df user_id)
      (rated_movies ratings_df user_id)
      (set_of Z.eqb (map Ratings.userId ratings_df))
      = Ok [] /\
    value (collaborative_recommendations ratings_df movies_df user_id n)
      = Ok [].
Proof.
  intros ratings_df movies_df user_id n Hfew.
  assert (Hnone : forall users,
             neighbours_of ratings_df user_id users = []).
  { induction users as [|u users IH]; [reflexivity|].
    cbn [neighbours_of flat_map]; fold (neighbours_of ratings_df user_id users).
    rewrite IH.
    destruct (u =? user_id); [reflexivity|].
    unfold similarity_of.
    pose proof (common_movies_of_length ratings_df user_id u) as Hle.
    destruct (Z.of_nat (List.length (common_movies_of ratings_df user_id u))
              <? 5) eqn:E; [reflexivity|].
    apply Z.ltb_ge in E; lia. }
  split.
  - rewrite find_similar_users_closed, Hnone; reflexivity.
  - destruct (collaborative_value ratings_df movies_df user_id n)
      as [Hv | [_ Hv]]; [exact Hv|].
    rewrite Hv; unfold top_neighbours; rewrite Hnone.
    cbn [sort_desc]; rewrite slice_to_nil.
    unfold aggregate; cbn [fold_left predict flat_map sort_desc].
    rewrite slice_to_nil; reflexivity.
Qed.

Lemma collaborative_needs_five_ratings_witness :
  find_similar_users (rating_row 9 11 4 :: sample_ratings) 9
    (user_rows (rating_row 9 11 4 :: sample_ratings) 9)
    (rated_movies (rating_row 9 11 4 :: sample_ratings) 9)
    (set_of Z.eqb (map Ratings.userId (rating_row 9 11 4 :: sample_ratings)))
    = Ok [] /\
  value (collaborative_recommendations
           (rating_row 9 11 4 :: sample_ratings) sample_catalog 9 5)
    = Ok [].
Proof.
  apply (collaborative_needs_five_ratings
           (rating_row 9 11 4 :: sample_ratings) sample_catalog 9 5).
  simpl; lia.
Defined.

Lemma before_in_sorted {A : Type} (pre l : list A) :
  StronglySorted (before_in (pre ++ l)) l.
Proof.
  revert pre; induction l as [|x l IH]; intros pre; constructor.
  - replace (pre ++ x :: l) with ((pre ++ [x]) ++ l)
      by (rewrite <- app_assoc; reflexivity).
    apply IH.
  - apply Forall_forall; intros y Hy.
    apply in_split in Hy; destruct Hy as [l2 [l3 ->]].
    exists pre, l2, l3; reflexivity.
Qed.

(** ** Lookup, similarity and corpus order *)

Lemma string_app_nil_r (s : string) : (s ++ "")%string = s.
Proof. induction s as [|c s IH]; simpl; [|rewrite IH]; reflexivity. Qed.

Lemma sum_pos_exists (l : list R) :
  (forall x, In x l -> (0 <= x)%R) -> (0 < sum l)%R ->
  exists x, In x l /\ (0 < x)%R.
Proof.
  induction l as [|a l IH]; intros Hnn Hpos.
  - unfold sum in Hpos; simpl in Hpos; lra.
  - rewrite sum_cons in Hpos.
    destruct (Rlt_dec 0 a) as [Ha|Ha].
    + exists a; split; [left; reflexivity | exact Ha].
    + assert (0 <= a)%R by (apply Hnn; left; reflexivity).
      destruct IH as [x [Hx Hx0]].
      * intros y Hy; apply Hnn; right; exact Hy.
      * lra.
      * exists x; split; [right; exact Hx | exact Hx0].
Qed.

Lemma vector_of_get_or_zero (documents : list string) (doc t : string) :
  In t (split doc) ->
  get_or_zero (vector_of documents doc) t = spec_weight documents t doc.
Proof.
  intros H; unfold get_or_zero; rewrite vector_of_get.
  apply (mem_In String.eqb_eq) in H; rewrite H; reflexivity.
Qed.

Lemma vector_of_common (documents : list string) (d1 d2 t : string) :
  In t (common_terms (vector_of documents d1) (vector_of documents d2)) <->
  In t (split d1) /\ In t (split d2).
Proof.
  rewrite common_terms_In, !vector_of_keys, !(set_of_In String.eqb_eq).
  tauto.
Qed.

Lemma spec_weight_product (documents : list string) (d1 d2 t : string) :
  (spec_weight documents t d1 * spec_weight documents t d2
   = IZR (spec_tf t d1) * IZR (spec_tf t d2)
     * (idf documents t * idf documents t))%R.
Proof. unfold spec_weight, idf; ring. Qed.

Lemma magnitude_pos (vec : dict string R) (t : string) (w : R) :
  In (t, w) vec -> w <> 0%R -> (0 < magnitude vec)%R.
Proof.
  intros Hin Hw; unfold magnitude; apply sqrt_lt_R0.
  assert (Hle : (w ^ 2 <= sum (map (fun val => val ^ 2) (values vec)))%R).
  { apply sum_ge_term.
    - intros y Hy; apply in_map_iff in Hy.
      destruct Hy as [z [<- _]]; apply pow2_ge_0.
    - apply in_map_iff; exists w; split; [reflexivity|].
      unfold values; change w with (snd (t, w)); apply in_map; exact Hin. }
  assert (0 < w ^ 2)%R by (destruct (Rdichotomy _ _ Hw); nra).
  lra.
Qed.

Lemma cosine_closed_pos_iff (vec1 vec2 : dict string R) :
  (0 < cosine_closed vec1 vec2)%R <->
  (0 < dot_product vec1 vec2)%R /\
  magnitude vec1 <> 0%R /\ magnitude vec2 <> 0%R.
Proof.
  pose proof (magnitude_nonneg vec1); pose proof (magnitude_nonneg vec2).
  unfold cosine_closed, dot_product.
  destruct (common_terms vec1 vec2) as [|t0 rest].
  - unfold sum; simpl; split; [lra | intros [Hd _]; lra].
  - fold (dot_product vec1 vec2).
    set (d := sum _).
    destruct (Reqb (magnitude vec1) 0) eqn:E1; simpl.
    { apply Reqb_true in E1; split; [lra | intros [_ [Hm _]]; contradiction]. }
    destruct (Reqb (magnitude vec2) 0) eqn:E2.
    { apply Reqb_true in E2; split; [lra | intros [_ [_ Hm]]; contradiction]. }
    apply Reqb_false in E1; apply Reqb_false in E2.
    assert (HM : (0 < magnitude vec1 * magnitude vec2)%R)
      by (apply Rmult_lt_0_compat; lra).
    assert (Hinv : (0 < / (magnitude vec1 * magnitude vec2))%R)
      by (apply Rinv_0_lt_compat; exact HM).
    split.
    + intros Hpos; split; [|split; assumption].
      destruct (Rlt_dec 0 d) as [Hd|Hd]; [exact Hd|].
      exfalso; unfold Rdiv in Hpos; nra.
    + intros [Hd _]; apply Rdiv_lt_0_compat; assumption.
Qed.

(** X20. Two documents of a corpus have a similarity > 0 exactly when they
    share a term whose weight is not 0, that is a term that does not occur
    in exactly N - 1 of the N documents; otherwise the similarity is 0. *)
Theorem cosine_similarity_positive_iff :
  forall (documents : list string) (i j : nat) (d1 d2 : string),
    nth_error documents i = Some d1 ->
    nth_error documents j = Some d2 ->
    exists vectors v1 v2 c,
      compute_tfidf documents = Ok vectors /\
      nth_error vectors i = Some v1 /\
      nth_error vectors j = Some v2 /\
      cosine_similarity v1 v2 = Ok c /\
      ((0 < c)%R <->
       exists t, In t (split d1) /\ In t (split d2) /\
                 spec_df t documents
                 <> Z.of_nat (List.length documents) - 1) /\
      (c = 0%R \/ (0 < c)%R).
Proof.
  intros documents i j d1 d2 H1 H2.
  pose proof (nth_error_In _ _ H1) as Hin1.
  pose proof (nth_error_In _ _ H2) as Hin2.
  set (v1 := vector_of documents d1); set (v2 := vector_of documents d2).
  exists (map (vector_of documents) documents), v1, v2, (cosine_closed v1 v2).
  split; [apply compute_tfidf_closed|].
  split; [rewrite nth_error_map, H1; reflexivity|].
  split; [rewrite nth_error_map, H2; reflexivity|].
  split; [apply cosine_similarity_closed|].
  pose proof (corpus_cosine_range documents d1 d2) as [Hge _].
  rewrite cosine_is_closed in Hge; fold v1 in Hge; fold v2 in Hge.
  split; [|lra].
  assert (Hterm : forall t, In t (common_terms v1 v2) ->
            (0 <= get_or_zero v1 t * get_or_zero v2 t)%R /\
            ((0 < get_or_zero v1 t * get_or_zero v2 t)%R <->
             spec_df t documents <> Z.of_nat (List.length documents) - 1)).
  { intros t Ht; apply vector_of_common in Ht; destruct Ht as [T1 T2].
    unfold v1, v2; rewrite !vector_of_get_or_zero by assumption.
    pose proof (spec_weight_zero_iff documents t d1 Hin1 T1) as Z1.
    pose proof (spec_weight_zero_iff documents t d2 Hin2 T2) as Z2.
    rewrite spec_weight_product.
    assert (P1 : (0 < IZR (spec_tf t d1))%R)
      by (apply IZR_lt, spec_tf_pos; exact T1).
    assert (P2 : (0 < IZR (spec_tf t d2))%R)
      by (apply IZR_lt, spec_tf_pos; exact T2).
    assert (E1 : spec_weight documents t d1
                 = (IZR (spec_tf t d1) * idf documents t)%R) by reflexivity.
    set (L := idf documents t) in *.
    assert (Hsq : (0 <= L * L)%R) by nra.
    assert (Hpp : (0 < IZR (spec_tf t d1) * IZR (spec_tf t d2))%R)
      by (apply Rmult_lt_0_compat; assumption).
    split; [apply Rmult_le_pos; lra|].
    split.
    - intros Hpos Hdf; apply Z1 in Hdf.
      rewrite E1 in Hdf.
      assert (L = 0%R) by (apply Rmult_integral in Hdf; destruct Hdf; lra).
      subst L; rewrite H in Hpos; lra.
    - intros Hdf.
      assert (HL : L <> 0%R).
      { intros HL0; apply Hdf, Z1; rewrite E1, HL0; ring. }
      assert (0 < L * L)%R by (destruct (Rdichotomy _ _ HL); nra).
      apply Rmult_lt_0_compat; assumption. }
  assert (Hdotnn : forall x,
             In x (map (fun t => (get_or_zero v1 t * get_or_zero v2 t)%R)
                       (common_terms v1 v2)) -> (0 <= x)%R).
  { intros x Hx; apply in_map_iff in Hx; destruct Hx as [t [<- Ht]].
    apply (Hterm t Ht). }
  rewrite cosine_closed_pos_iff; split.
  - intros [Hdot _].
    destruct (sum_pos_exists _ Hdotnn Hdot) as [x [Hx Hx0]].
    apply in_map_iff in Hx; destruct Hx as [t [<- Ht]].
    exists t.
    pose proof (proj1 (vector_of_common documents d1 d2 t) Ht) as [T1 T2].
    split; [exact T1|]; split; [exact T2|].
    apply (Hterm t Ht); exact Hx0.
  - intros [t [T1 [T2 Hdf]]].
    assert (Ht : In t (common_terms v1 v2))
      by (apply vector_of_common; split; assumption).
    destruct (Hterm t Ht) as [_ Hiff].
    pose proof (proj2 Hiff Hdf) as Hprod.
    assert (Hw1 : get_or_zero v1 t <> 0%R)
      by (intros E; rewrite E in Hprod; lra).
    assert (Hw2 : get_or_zero v2 t <> 0%R)
      by (intros E; rewrite E in Hprod; lra).
    assert (G1 : In (t, get_or_zero v1 t) v1).
    { apply (dict_get_Some_In String.eqb_eq).
      unfold get_or_zero, v1; rewrite vector_of_get.
      apply (mem_In String.eqb_eq) in T1; rewrite T1; reflexivity. }
    assert (G2 : In (t, get_or_zero v2 t) v2).
    { apply (dict_get_Some_In String.eqb_eq).
      unfold get_or_zero, v2; rewrite vector_of_get.
      apply (mem_In String.eqb_eq) in T2; rewrite T2; reflexivity. }
    pose proof (magnitude_pos v1 t _ G1 Hw1) as M1.
    pose proof (magnitude_pos v2 t _ G2 Hw2) as M2.
    split; [|split; lra].
    unfold dot_product.
    eapply Rlt_le_trans; [exact Hprod|].
    apply sum_ge_term; [exact Hdotnn|].
    apply in_map_iff; exists t; split; [reflexivity | exact Ht].
Qed.

Lemma cosine_similarity_positive_iff_witness :
  exists vectors v1 v2 c,
    compute_tfidf ["a b"; "b c"; "c"; "d"] = Ok vectors /\
    nth_error vectors 0 = Some v1 /\
    nth_error vectors 1 = Some v2 /\
    cosine_similarity v1 v2 = Ok c /\
    ((0 < c)%R <->
     exists t, In t (split "a b") /\ In t (split "b c") /\
               spec_df t ["a b"; "b c"; "c"; "d"]
               <> Z.of_nat (List.length ["a b"; "b c"; "c"; "d"]) - 1) /\
    (c = 0%R \/ (0 < c)%R).
Proof.
  apply (cosine_similarity_positive_iff
           ["a b"; "b c"; "c"; "d"] 0%nat 1%nat "a b" "b c"); reflexivity.
Defined.

Lemma filter_length_perm {A : Type} (f : A -> bool) (l l' : list A) :
  Permutation l l' ->
  List.length (filter f l) = List.length (filter f l').
Proof.
  induction 1 as [|x l l' _ IH|x y l|l l' l'' _ IH1 _ IH2]; simpl.
  - reflexivity.
  - destruct (f x); simpl; rewrite IH; reflexivity.
  - destruct (f x), (f y); reflexivity.
  - rewrite IH1; exact IH2.
Qed.

Lemma vector_of_perm (documents documents' : list string) (doc : string) :
  Permutation documents documents' ->
  vector_of documents doc = vector_of documents' doc.
Proof.
  intros H; unfold vector_of, idf, spec_df.
  rewrite (Permutation_length H).
  apply map_ext; intros t.
  rewrite (filter_length_perm _ _ _ H); reflexivity.
Qed.

(** X21. The vector of a document does not depend on the order of the
    corpus nor on the position of the document in it: after any
    reordering of the documents each document gets the same vector. *)
Theorem compute_tfidf_order_independent :
  forall (documents documents' : list string) (i j : nat) (doc : string),
    Permutation documents documents' ->
    nth_error documents i = Some doc ->
    nth_error documents' j = Some doc ->
    exists vectors vectors' vector,
      compute_tfidf documents = Ok vectors /\
      compute_tfidf documents' = Ok vectors' /\
      nth_error vectors i = Some vector /\
      nth_error vectors' j = Some vector.
Proof.
  intros documents documents' i j doc Hperm Hi Hj.
  exists (map (vector_of documents) documents),
         (map (vector_of documents') documents'),
         (vector_of documents doc).
  split; [apply compute_tfidf_closed|].
  split; [apply compute_tfidf_closed|].
  split; [rewrite nth_error_map, Hi; reflexivity|].
  rewrite nth_error_map, Hj; simpl.
  rewrite (vector_of_perm _ _ doc Hperm); reflexivity.
Qed.

Lemma compute_tfidf_order_independent_witness :
  exists vectors vectors' vector,
    compute_tfidf ["a b"; "b c"; "c"] = Ok vectors /\
    compute_tfidf ["c"; "a b"; "b c"] = Ok vectors' /\
    nth_error vectors 0 = Some vector /\
    nth_error vectors' 1 = Some vector.
Proof.
  apply (compute_tfidf_order_independent
           ["a b"; "b c"; "c"] ["c"; "a b"; "b c"] 0%nat 1%nat "a b").
  - apply Permutation_sym.
    apply (Permutation_cons_append ["a b"; "b c"] "c").
  - reflexivity.
  - reflexivity.
Defined.

(* ================================================================== *)
(** * The program over the arithmetic of the interpreter: properties *)

(** ** Sorting by a comparison of floats *)

Section RuntimeSortFacts.
Context {F A : Type} (lt : F -> F -> bool) (isnan : F -> bool) (key : A -> F).

Lemma rt_insert_desc_perm (x : A) (l : list A) :
  Permutation (Runtime.insert_desc lt key x l) (x :: l).
Proof.
  induction l as [|y l IH]; simpl; [apply Permutation_refl|].
  destruct (lt (key x) (key y)).
  - apply Permutation_trans with (y :: x :: l).
    + apply perm_skip; exact IH.
    + apply perm_swap.
  - apply Permutation_refl.
Qed.

Lemma rt_sort_desc_perm (l : list A) :
  Permutation (Runtime.sort_desc lt key l) l.
Proof.
  induction l as [|x l IH]; simpl; [apply perm_nil|].
  apply Permutation_trans with (x :: Runtime.sort_desc lt key l).
  - apply rt_insert_desc_perm.
  - apply perm_skip; exact IH.
Qed.

Lemma rt_sort_desc_In (l : list A) (x : A) :
  In x (Runtime.sort_desc lt key l) <-> In x l.
Proof.
  split; apply Permutation_in;
    [apply rt_sort_desc_perm | apply Permutation_sym, rt_sort_desc_perm].
Qed.

Hypothesis lt_trans :
  forall x y z, lt x y = true -> lt y z = true -> lt x z = true.
Hypothesis lt_cotrans :
  forall x y z, isnan y = false -> lt x z = true ->
                lt x y = true \/ lt y z = true.

Variable before : A -> A -> Prop.

Lemma rt_insert_desc_sorted (x : A) (l : list A) :
  Forall (fun y => isnan (key y) = false) l ->
  StronglySorted (Runtime.ranks_before lt key before) l ->
  Forall (before x) l ->
  StronglySorted (Runtime.ranks_before lt key before)
                 (Runtime.insert_desc lt key x l).
Proof.
  induction l as [|y l IH]; intros Hnan Hs Hb; simpl.
  - constructor; constructor.
  - inversion Hs as [|? ? Hs' Hy]; subst.
    inversion Hb as [|? ? Hxy Hb']; subst.
    inversion Hnan as [|? ? Hny Hnan']; subst.
    destruct (lt (key x) (key y)) eqn:E.
    + constructor; [apply IH; assumption|].
      apply Forall_forall; intros z Hz.
      apply (Permutation_in _ (rt_insert_desc_perm x l)) in Hz.
      destruct Hz as [<-|Hz]; [left; exact E|].
      rewrite Forall_forall in Hy; apply Hy; exact Hz.
    + constructor; [exact Hs|].
      constructor.
      * destruct (lt (key y) (key x)) eqn:E'; [left; exact E'|].
        right; repeat split; assumption.
      * apply Forall_forall; intros z Hz.
        rewrite Forall_forall in Hy, Hb'.
        destruct (lt (key z) (key x)) eqn:Ezx; [left; exact Ezx|].
        right; split; [|split; [exact Ezx | apply Hb'; exact Hz]].
        destruct (lt (key x) (key z)) eqn:Exz; [|reflexivity].
        exfalso.
        destruct (Hy z Hz) as [Hzy | [Hyz [Hzy _]]].
        -- pose proof (lt_trans _ _ _ Exz Hzy) as Hxy'; congruence.
        -- destruct (lt_cotrans _ _ _ Hny Exz) as [H|H]; congruence.
Qed.

(** Stability: what was in the order [before] stays so among keys none of
    which is below the other. *)
Lemma rt_sort_desc_sorted (l : list A) :
  Forall (fun y => isnan (key y) = false) l ->
  StronglySorted before l ->
  StronglySorted (Runtime.ranks_before lt key before)
                 (Runtime.sort_desc lt key l).
Proof.
  induction l as [|x l IH]; intros Hnan Hs; simpl; [constructor|].
  inversion Hs as [|? ? Hs' Hx]; subst.
  inversion Hnan as [|? ? Hnx Hnan']; subst.
  apply rt_insert_desc_sorted.
  - apply Forall_forall; intros z Hz.
    apply (proj1 (rt_sort_desc_In l z)) in Hz.
    rewrite Forall_forall in Hnan'; apply Hnan'; exact Hz.
  - apply IH; assumption.
  - apply Forall_forall; intros z Hz.
    apply (proj1 (rt_sort_desc_In l z)) in Hz.
    rewrite Forall_forall in Hx; apply Hx; exact Hz.
Qed.
End RuntimeSortFacts.

(** ** The vectorizer *)

Section RuntimeContentFacts.
Variable py : Runtime.python.
Hypothesis laws : Runtime.python_laws py.

Lemma rt_math_log_ok (a b : Z) :
  0 < a -> 0 < b <= a + 1 ->
  Runtime.math_log py (Runtime.int_div py a b)
  = Ok (Runtime.flog py (Runtime.int_div py a b)).
Proof.
  intros Ha Hb; unfold Runtime.math_log.
  rewrite (Runtime.int_div_pos py laws a b Ha Hb), orb_true_r; reflexivity.
Qed.

Lemma rt_tfidf_vector_closed (documents : list string)
    (items : list (string * Z)) (vector : dict string (Runtime.float py)) :
  documents <> [] ->
  NoDup (keys items) ->
  (forall t, In t (keys items) -> ~ In t (keys vector)) ->
  Runtime.tfidf_vector py (Z.of_nat (List.length documents))
                       (doc_freq (map split documents)) items vector
  = Ok (vector
        ++ map (fun '(t, f) =>
                  (t, Runtime.fmul py (Runtime.of_int py f)
                        (Runtime.flog py
                           (Runtime.int_div py
                              (Z.of_nat (List.length documents))
                              (1 + spec_df t documents)))))
               items).
Proof.
  intros Hne; revert vector.
  induction items as [|[t f] items IH]; intros vector Hnd Hfresh;
    cbn [Runtime.tfidf_vector].
  - cbn [map]; rewrite app_nil_r; reflexivity.
  - rewrite freq_of_doc_freq.
    pose proof (spec_df_bounds t documents) as [Hlo Hhi].
    assert (Hlen : 0 < Z.of_nat (List.length documents))
      by (destruct documents; [contradiction | simpl List.length; lia]).
    unfold Runtime.int_truediv.
    destruct (1 + spec_df t documents =? 0) eqn:E;
      [apply Z.eqb_eq in E; lia|].
    cbn [bind].
    rewrite rt_math_log_ok by lia; cbn [bind].
    inversion Hnd as [|? ? Hnot Hnd']; subst.
    rewrite (dict_set_fresh String.eqb_eq)
      by (apply Hfresh; left; reflexivity).
    rewrite IH.
    + rewrite <- app_assoc; reflexivity.
    + exact Hnd'.
    + intros t' Hin; unfold keys; rewrite map_app, in_app_iff; simpl.
      intros [H|[H|[]]].
      * apply (Hfresh t'); [right; exact Hin | exact H].
      * subst; contradiction.
Qed.

(** The vectors the code computes are the TfIdfVectors of the
    specification, and the computation raises nothing. *)
Lemma rt_compute_tfidf_closed (documents : list string) :
  Runtime.compute_tfidf py documents
  = Ok (map (Runtime.spec_vector py documents) documents).
Proof.
  unfold Runtime.compute_tfidf; rewrite mapM_map.
  apply mapM_ok; intros doc Hin.
  rewrite rt_tfidf_vector_closed.
  - simpl; rewrite Counter_closed, map_map; reflexivity.
  - intros ->; contradiction.
  - rewrite Counter_keys; apply set_of_NoDup; exact String.eqb_eq.
  - intros t _ [].
Qed.

(** ** Cosine similarity *)

Lemma rt_common_terms_In (vec1 vec2 : dict string (Runtime.float py))
    (t : string) :
  In t (Runtime.set_and py (set_of String.eqb (keys vec1))
                        (set_of String.eqb (keys vec2)))
  <-> In t (keys vec1) /\ In t (keys vec2).
Proof.
  pose proof (Runtime.set_and_perm py laws (set_of String.eqb (keys vec1))
                                   (set_of String.eqb (keys vec2))) as Hp.
  split.
  - intros H; apply (Permutation_in _ Hp) in H.
    apply (set_inter_In String.eqb_eq) in H.
    rewrite !(set_of_In String.eqb_eq) in H; exact H.
  - intros H; apply (Permutation_in _ (Permutation_sym Hp)).
    apply (set_inter_In String.eqb_eq).
    rewrite !(set_of_In String.eqb_eq); exact H.
Qed.

Lemma rt_products_ok (vec1 vec2 : dict string (Runtime.float py))
    (terms : list string) :
  (forall t, In t terms -> In t (keys vec1) /\ In t (keys vec2)) ->
  mapM (fun term =>
          a <- dict_index String.eqb vec1 term ;;
          b <- dict_index String.eqb vec2 term ;;
          Ok (Runtime.fmul py a b))
       terms
  = Ok (map (fun t => Runtime.fmul py (Runtime.coordinate py vec1 t)
                                   (Runtime.coordinate py vec2 t))
            terms).
Proof.
  intros H; apply mapM_ok; intros t Ht.
  destruct (H t Ht) as [H1 H2].
  apply (In_keys_get String.eqb_eq) in H1; destruct H1 as [a Ha].
  apply (In_keys_get String.eqb_eq) in H2; destruct H2 as [b Hb].
  unfold dict_index, Runtime.coordinate; rewrite Ha, Hb; reflexivity.
Qed.

Lemma rt_magnitude_ok (vec : dict string (Runtime.float py))
    (squares : list (Runtime.float py)) :
  mapM (Runtime.fpow2 py) (values vec) = Ok squares ->
  Runtime.flt py (Runtime.fsum py squares) (Runtime.of_int py 0) = false ->
  Runtime.math_sqrt py (Runtime.fsum py squares)
  = Ok (Runtime.fsqrt py (Runtime.fsum py squares)).
Proof. intros _ H; unfold Runtime.math_sqrt; rewrite H; reflexivity. Qed.

(** [cosine_similarity] returns a number exactly when the specification
    gives the two vectors that cosine similarity. *)
Lemma rt_cosine_similarity_spec (vec1 vec2 : dict string (Runtime.float py))
    (s : Runtime.float py) :
  Runtime.cosine_similarity py vec1 vec2 = Ok s <->
  Runtime.spec_cosine py vec1 vec2 s.
Proof.
  unfold Runtime.cosine_similarity.
  set (common := Runtime.set_and py (set_of String.eqb (keys vec1))
                                 (set_of String.eqb (keys vec2))).
  assert (Hcommon : forall t, In t common <->
                              In t (keys vec1) /\ In t (keys vec2))
    by (intros t; apply rt_common_terms_In).
  split.
  - destruct common as [|t0 rest] eqn:Ec.
    + intros H; inversion H; subst.
      apply Runtime.cosine_disjoint; intros t H1 H2.
      apply (proj2 (Hcommon t)); split; assumption.
    + assert (Ht0 : In t0 (keys vec1) /\ In t0 (keys vec2))
        by (apply Hcommon; left; reflexivity).
      destruct Ht0 as [K1 K2].
      rewrite rt_products_ok by (intros t Ht; apply Hcommon; exact Ht).
      cbn [bind].
      destruct (mapM (Runtime.fpow2 py) (values vec1)) as [sq1|e1] eqn:E1;
        [|discriminate].
      cbn [bind]; unfold Runtime.math_sqrt at 1.
      destruct (Runtime.flt py (Runtime.fsum py sq1) (Runtime.of_int py 0))
        eqn:F1; [discriminate|].
      cbn [bind].
      destruct (mapM (Runtime.fpow2 py) (values vec2)) as [sq2|e2] eqn:E2;
        [|discriminate].
      cbn [bind]; unfold Runtime.math_sqrt.
      destruct (Runtime.flt py (Runtime.fsum py sq2) (Runtime.of_int py 0))
        eqn:F2; [discriminate|].
      cbn [bind].
      pose proof (@Runtime.magnitude_of py vec1 sq1 E1 F1) as M1.
      pose proof (@Runtime.magnitude_of py vec2 sq2 E2 F2) as M2.
      destruct (Runtime.feq py _ _ || Runtime.feq py _ _) eqn:Ez.
      * intros H; inversion H; subst.
        eapply Runtime.cosine_no_magnitude;
          [exact K1 | exact K2 | exact M1 | exact M2 | exact Ez].
      * unfold Runtime.py_div.
        destruct (Runtime.feq py (Runtime.fmul py _ _) _) eqn:Ed;
          [discriminate|].
        intros H; inversion H; subst.
        replace (Runtime.fsum py _)
          with (Runtime.dot_product py vec1 vec2)
          by (unfold Runtime.dot_product; fold common; rewrite Ec;
              reflexivity).
        eapply Runtime.cosine_quotient;
          [exact K1 | exact K2 | exact M1 | exact M2 | exact Ez | exact Ed].
  - intros H; destruct H as [Hdis | t mA mB K1 K2 M1 M2 Ez
                                  | t mA mB K1 K2 M1 M2 Ez Ed].
    + destruct common as [|t0 rest] eqn:Ec; [reflexivity|].
      exfalso.
      assert (Ht0 : In t0 (keys vec1) /\ In t0 (keys vec2))
        by (apply Hcommon; left; reflexivity).
      apply (Hdis t0); apply Ht0.
    + assert (Ht : In t common) by (apply Hcommon; split; assumption).
      destruct common as [|t0 rest] eqn:Ec; [contradiction|].
      rewrite rt_products_ok by (intros t' Ht'; apply Hcommon; exact Ht').
      cbn [bind].
      destruct M1 as [sq1 E1 F1]; destruct M2 as [sq2 E2 F2].
      rewrite E1; cbn [bind].
      rewrite (rt_magnitude_ok vec1 sq1 E1 F1); cbn [bind].
      rewrite E2; cbn [bind].
      rewrite (rt_magnitude_ok vec2 sq2 E2 F2); cbn [bind].
      rewrite Ez; reflexivity.
    + assert (Ht : In t common) by (apply Hcommon; split; assumption).
      destruct common as [|t0 rest] eqn:Ec; [contradiction|].
      rewrite rt_products_ok by (intros t' Ht'; apply Hcommon; exact Ht').
      cbn [bind].
      destruct M1 as [sq1 E1 F1]; destruct M2 as [sq2 E2 F2].
      rewrite E1; cbn [bind].
      rewrite (rt_magnitude_ok vec1 sq1 E1 F1); cbn [bind].
      rewrite E2; cbn [bind].
      rewrite (rt_magnitude_ok vec2 sq2 E2 F2); cbn [bind].
      rewrite Ez; unfold Runtime.py_div; rewrite Ed.
      unfold Runtime.dot_product; fold common; rewrite Ec; reflexivity.
Qed.

(** ** Title lookup *)

Lemma rt_exact_match_dec (query title : string) :
  String.eqb (Runtime.str_lower py title) (Runtime.str_lower py query) = true
  <-> Runtime.exact_match py query title.
Proof. apply String.eqb_eq. Qed.

Lemma rt_substring_match_dec (query title : string) :
  str_in (Runtime.str_lower py query) (Runtime.str_lower py title) = true
  <-> Runtime.substring_match py query title.
Proof. apply str_in_spec. Qed.

Lemma rt_find_movie_spec (titles : list string) (movie_title : string)
    (r : resolution) :
  Runtime.spec_resolve py titles movie_title r ->
  Runtime.find_movie py titles movie_title = found_by titles r.
Proof.
  intros H; unfold Runtime.find_movie;
    destruct H as [i Hi | i Hno Hi | Hno1 Hno2].
  - destruct (find_first_first_at _ _ titles i
                (rt_exact_match_dec movie_title) Hi) as [t [E _]].
    rewrite E; reflexivity.
  - assert (E1 : find_first
                   (fun title =>
                      String.eqb (Runtime.str_lower py title)
                                 (Runtime.str_lower py movie_title))
                   0 titles = None).
    { apply find_first_None; intros t Ht.
      apply (not_true_false _ _ (rt_exact_match_dec movie_title t)), Hno, Ht. }
    rewrite E1.
    destruct (find_first_first_at _ _ titles i
                (rt_substring_match_dec movie_title) Hi) as [t [E Hn]].
    rewrite E; simpl.
    rewrite (nth_error_nth _ _ _ Hn); reflexivity.
  - assert (E1 : find_first
                   (fun title =>
                      String.eqb (Runtime.str_lower py title)
                                 (Runtime.str_lower py movie_title))
                   0 titles = None).
    { apply find_first_None; intros t Ht.
      apply (not_true_false _ _ (rt_exact_match_dec movie_title t)), Hno1, Ht. }
    assert (E2 : find_first
                   (fun title =>
                      str_in (Runtime.str_lower py movie_title)
                             (Runtime.str_lower py title))
                   0 titles = None).
    { apply find_first_None; intros t Ht.
      apply (not_true_false _ _ (rt_substring_match_dec movie_title t)),
        Hno2, Ht. }
    rewrite E1, E2; reflexivity.
Qed.

(** Some outcome always applies: the resolution is total. *)
Lemma rt_spec_resolve_total (titles : list string) (query : string) :
  exists r, Runtime.spec_resolve py titles query r.
Proof.
  assert (Hfirst : forall (p : string -> bool) (P : string -> Prop),
             (forall t, p t = true <-> P t) ->
             (exists i, first_at P titles i) \/
             (forall t, In t titles -> ~ P t)).
  { intros p P Hp.
    destruct (find_first p 0 titles) as [[i t]|] eqn:E.
    - left; exists i.
      apply find_first_Some in E; destruct E as [_ [Hn [Hpt Hmin]]].
      rewrite Nat.sub_0_r in Hn, Hmin; split.
      + exists t; split; [exact Hn | apply Hp; exact Hpt].
      + intros j y Hj Hy HP; apply Hp in HP.
        rewrite (Hmin j y Hj Hy) in HP; discriminate.
    - right; intros t Ht HP; apply Hp in HP.
      rewrite find_first_None in E; rewrite (E t Ht) in HP; discriminate. }
  destruct (Hfirst _ _ (rt_exact_match_dec query)) as [[i Hi]|Hno1].
  - exists (Exact i); constructor; exact Hi.
  - destruct (Hfirst _ _ (rt_substring_match_dec query)) as [[i Hi]|Hno2].
    + exists (Closest i); constructor; assumption.
    + exists NotFound; constructor; assumption.
Qed.

Lemma rt_spec_resolve_lt (titles : list string) (query : string)
    (r : resolution) (e : nat) :
  Runtime.spec_resolve py titles query r -> resolved r = Some e ->
  (e < List.length titles)%nat.
Proof.
  intros H E; destruct H as [i Hi | i _ Hi | _ _]; simpl in E;
    inversion E; subst; apply (first_at_lt _ _ _ Hi).
Qed.
End RuntimeContentFacts.

(** ** The content recommender in closed form *)

Lemma mapM_length {A B : Type} (f : A -> result B) (l : list A)
    (l' : list B) :
  mapM f l = Ok l' -> List.length l' = List.length l.
Proof.
  revert l'; induction l as [|x l IH]; intros l' H; simpl in H.
  - inversion H; reflexivity.
  - destruct (f x) as [y|e]; [|discriminate]; cbn [bind] in H.
    destruct (mapM f l) as [ys|e]; [|discriminate]; cbn [bind] in H.
    inversion H; subst; simpl; rewrite (IH ys eq_refl); reflexivity.
Qed.

Lemma mapM_nth_error {A B : Type} (f : A -> result B) (l : list A)
    (l' : list B) (i : nat) (y : B) :
  mapM f l = Ok l' -> nth_error l' i = Some y ->
  exists x, nth_error l i = Some x /\ f x = Ok y.
Proof.
  revert l' i; induction l as [|x l IH]; intros l' i H Hy; simpl in H.
  - inversion H; subst; destruct i; discriminate.
  - destruct (f x) as [y0|e] eqn:E; [|discriminate]; cbn [bind] in H.
    destruct (mapM f l) as [ys|e]; [|discriminate]; cbn [bind] in H.
    inversion H; subst.
    destruct i as [|i]; simpl in Hy.
    + inversion Hy; subst; exists x; split; [reflexivity | exact E].
    + apply (IH ys i eq_refl Hy).
Qed.

Lemma mapM_exists {A B : Type} (f : A -> result B) (P : B -> Prop)
    (l : list A) :
  (forall x, In x l -> exists y, f x = Ok y /\ P y) ->
  exists l', mapM f l = Ok l' /\ Forall P l'.
Proof.
  induction l as [|x l IH]; intros H.
  - exists []; split; [reflexivity | constructor].
  - destruct (H x (or_introl eq_refl)) as [y [Hy Py]].
    destruct IH as [l' [Hl' Pl']];
      [intros z Hz; apply H; right; exact Hz|].
    exists (y :: l'); split.
    + simpl; rewrite Hy; cbn [bind]; rewrite Hl'; reflexivity.
    + constructor; assumption.
Qed.

Section RuntimeRankingFacts.
Variable py : Runtime.python.
Hypothesis laws : Runtime.python_laws py.

Lemma rt_ranking_of_In (sims : list (Runtime.float py)) (e i : nat)
    (s : Runtime.float py) :
  In (i, s) (Runtime.ranking_of py sims e) ->
  i <> e /\ nth_error sims i = Some s.
Proof.
  unfold Runtime.ranking_of; intros H.
  apply (proj1 (rt_sort_desc_In _ _ _ _)) in H.
  apply filter_In in H; destruct H as [H E]; split.
  - apply negb_true_iff, Nat.eqb_neq in E; exact E.
  - apply enumerate_from_In in H; rewrite Nat.sub_0_r in H; apply H.
Qed.

Lemma rt_ranking_of_indices (sims : list (Runtime.float py)) (e : nat) :
  Permutation (map fst (Runtime.ranking_of py sims e))
              (filter (fun i => negb (Nat.eqb i e))
                      (seq 0 (List.length sims))).
Proof.
  unfold Runtime.ranking_of.
  apply Permutation_trans
    with (map fst (filter (fun '(i, _) => negb (Nat.eqb i e))
                          (enumerate sims))).
  - apply Permutation_map, rt_sort_desc_perm.
  - rewrite (filter_map_fst (fun i => negb (Nat.eqb i e))).
    unfold enumerate; rewrite map_fst_enumerate_from.
    apply Permutation_refl.
Qed.

(** Descending, and in catalog order where no score is below the other. *)
Lemma rt_ranking_of_sorted (sims : list (Runtime.float py)) (e : nat) :
  Forall (fun s => Runtime.isnan py s = false) sims ->
  StronglySorted
    (Runtime.ranks_before (Runtime.flt py) snd
       (fun a b : nat * Runtime.float py => (fst a < fst b)%nat))
    (Runtime.ranking_of py sims e).
Proof.
  intros Hnan; unfold Runtime.ranking_of.
  apply (rt_sort_desc_sorted _ (Runtime.isnan py)).
  - apply (Runtime.flt_trans py laws).
  - apply (Runtime.flt_cotrans py laws).
  - apply Forall_forall; intros [i s] Hin; simpl.
    apply filter_In in Hin; destruct Hin as [Hin _].
    apply enumerate_from_In in Hin; destruct Hin as [_ Hin].
    rewrite Forall_forall in Hnan; apply Hnan.
    apply (nth_error_In _ _ Hin).
  - apply StronglySorted_filter, enumerate_from_sorted.
Qed.

Lemma rt_scores_ok (vectors l : list (dict string (Runtime.float py)))
    (e : nat) (ve : dict string (Runtime.float py))
    (sims : list (Runtime.float py)) (k : nat) :
  nth_error vectors e = Some ve ->
  mapM (Runtime.cosine_similarity py ve) l = Ok sims ->
  mapM (fun '(i, vec) =>
          v <- list_index vectors e ;;
          score <- Runtime.cosine_similarity py v vec ;;
          Ok (i, score))
       (enumerate_from k l)
  = Ok (enumerate_from k sims).
Proof.
  intros He; revert sims k.
  induction l as [|vec l IH]; intros sims k H; simpl in H.
  - inversion H; reflexivity.
  - destruct (Runtime.cosine_similarity py ve vec) as [s|x] eqn:E;
      [|discriminate]; cbn [bind] in H.
    destruct (mapM (Runtime.cosine_similarity py ve) l) as [ss|x];
      [|discriminate]; cbn [bind] in H.
    inversion H; subst; cbn [enumerate_from mapM].
    unfold list_index at 1; rewrite He; cbn [bind].
    rewrite E; cbn [bind].
    rewrite (IH ss (S k) eq_refl); reflexivity.
Qed.

Lemma rt_rank_similar_closed (catalog : list Movies.row)
    (vectors : list (dict string (Runtime.float py))) (e : nat) (n : Z)
    (ve : dict string (Runtime.float py)) (sims : list (Runtime.float py)) :
  nth_error vectors e = Some ve ->
  List.length catalog = List.length vectors ->
  mapM (Runtime.cosine_similarity py ve) vectors = Ok sims ->
  Runtime.rank_similar py catalog vectors e n
  = Ok (map (Runtime.content_row py catalog)
            (slice_to n (Runtime.ranking_of py sims e))).
Proof.
  intros He Hlen Hs; unfold Runtime.rank_similar.
  unfold enumerate; rewrite (rt_scores_ok _ _ _ _ _ 0 He Hs).
  cbn [bind]; fold (enumerate sims); fold (Runtime.ranking_of py sims e).
  rewrite (mapM_ok _ (fun i => nth i catalog no_movie)).
  2:{ intros i Hi; apply list_index_ok.
      apply in_map_iff in Hi; destruct Hi as [[i' s] [E Hin]].
      simpl in E; subst i'.
      apply slice_to_In, rt_ranking_of_In in Hin; destruct Hin as [_ Hin].
      rewrite Hlen, <- (mapM_length _ _ _ Hs).
      apply nth_error_Some; congruence. }
  cbn [bind].
  rewrite combine_map_fst, map_map; f_equal.
  apply map_ext; intros [i s]; reflexivity.
Qed.

(** The whole call: the vectors are always computed. *)
Lemma rt_content_based_unfold (movies_df : MoviesDF) (movie_title : string)
    (n : Z) :
  Runtime.content_based_recommendations py movies_df movie_title n =
  let text := genres_text_of movies_df in
  let table := {| rows := rows movies_df; genres_text := Some text |} in
  match Runtime.find_movie py (map Movies.title (rows movies_df))
                           movie_title with
  | (None, out) =>
      {| tables := table;
         stdout := out ++ [("Movie '" ++ movie_title ++ "' not found")%string];
         value := Ok [] |}
  | (Some movie_idx, out) =>
      {| tables := table;
         stdout := out;
         value := Runtime.rank_similar py (rows movies_df)
                    (map (Runtime.spec_vector py text) text) movie_idx n |}
  end.
Proof.
  unfold Runtime.content_based_recommendations;
    fold (genres_text_of movies_df).
  rewrite (rt_compute_tfidf_closed py laws); cbn [rows].
  destruct (Runtime.find_movie py (map Movies.title (rows movies_df))
                               movie_title)
    as [[i|] out]; reflexivity.
Qed.

Lemma rt_content_based_value (movies_df : MoviesDF) (movie_title : string)
    (n : Z) (r : resolution) :
  Runtime.spec_resolve py (map Movies.title (rows movies_df)) movie_title r ->
  let out := Runtime.content_based_recommendations py movies_df movie_title n in
  let text := genres_text_of movies_df in
  stdout out
  = snd (found_by (map Movies.title (rows movies_df)) r)
    ++ match resolved r with
       | Some _ => []
       | None => [("Movie '" ++ movie_title ++ "' not found")%string]
       end
  /\ value out
     = match resolved r with
       | Some e =>
           Runtime.rank_similar py (rows movies_df)
             (map (Runtime.spec_vector py text) text) e n
       | None => Ok []
       end.
Proof.
  intros H; cbv zeta.
  rewrite rt_content_based_unfold; cbv zeta.
  rewrite (rt_find_movie_spec py _ _ _ H).
  destruct r; simpl; split; reflexivity.
Qed.
End RuntimeRankingFacts.

(** ** The content recommender: the claims *)

(** C8. The query title is resolved case-insensitively, by the
    interpreter's [str.lower], in two passes over the whole catalog.  When
    some title equals the query, the first such entry is the one ranked
    against and nothing is printed; when none does and some title contains
    the query, the first such entry is ranked against and its title is
    reported; when neither pass finds an entry the call reports that the
    movie was not found and returns the empty frame. *)
Theorem content_based_resolution :
  forall (py : Runtime.python) (movies_df : MoviesDF) (movie_title : string)
         (n : Z) (r : resolution),
    Runtime.python_laws py ->
    Runtime.spec_resolve py (map Movies.title (rows movies_df)) movie_title r ->
    let out := Runtime.content_based_recommendations py movies_df movie_title n in
    let titles := map Movies.title (rows movies_df) in
    exists vectors,
      Runtime.compute_tfidf py (genres_text_of movies_df) = Ok vectors /\
      match r with
      | Exact i =>
          stdout out = [] /\
          value out = Runtime.rank_similar py (rows movies_df) vectors i n
      | Closest i =>
          stdout out = [("Using closest match: " ++ nth i titles "")%string] /\
          value out = Runtime.rank_similar py (rows movies_df) vectors i n
      | NotFound =>
          stdout out = [("Movie '" ++ movie_title ++ "' not found")%string] /\
          value out = Ok []
      end.
Proof.
  intros py movies_df movie_title n r laws H out titles.
  exists (map (Runtime.spec_vector py (genres_text_of movies_df))
              (genres_text_of movies_df)).
  split; [apply (rt_compute_tfidf_closed py laws)|].
  destruct (rt_content_based_value py laws movies_df movie_title n r H)
    as [Hs Hv].
  fold out in Hs, Hv.
  destruct r; simpl in Hs, Hv; split; assumption.
Qed.

(** C3. When the query resolves to the catalog entry at position [e] and
    the similarity of every entry to that entry is a number, the call
    returns the first [n] entries of a ranking of all the other entries: at
    most [n] rows, none of them [e], each carrying the cosine similarity of
    its TF-IDF vector against the vector of [e], in descending order of
    that similarity, entries none of which is below the other in catalog
    order. *)
Theorem content_based_ranking :
  forall (py : Runtime.python) (movies_df : MoviesDF) (movie_title : string)
         (n : Z) (r : resolution) (e : nat),
    Runtime.python_laws py ->
    Runtime.spec_resolve py (map Movies.title (rows movies_df)) movie_title r ->
    resolved r = Some e ->
    0 <= n ->
    let text := genres_text_of movies_df in
    (forall d1 d2, nth_error text e = Some d1 -> In d2 text ->
       exists s,
         Runtime.spec_cosine py (Runtime.spec_vector py text d1)
                             (Runtime.spec_vector py text d2) s /\
         Runtime.isnan py s = false) ->
    exists ranking recs,
      value (Runtime.content_based_recommendations py movies_df movie_title n)
        = Ok recs /\
      recs = firstn (Z.to_nat n) ranking /\
      (List.length recs <= Z.to_nat n)%nat /\
      (forall rec, In rec recs -> Runtime.Content.index rec <> e) /\
      Permutation (map (@Runtime.Content.index _) ranking)
                  (filter (fun i => negb (Nat.eqb i e))
                          (seq 0 (List.length (rows movies_df)))) /\
      (forall rec, In rec ranking ->
         exists m d1 d2,
           nth_error (rows movies_df) (Runtime.Content.index rec) = Some m /\
           Runtime.Content.title rec = Movies.title m /\
           Runtime.Content.genres rec = Movies.genres m /\
           nth_error text e = Some d1 /\
           nth_error text (Runtime.Content.index rec) = Some d2 /\
           Runtime.spec_cosine py (Runtime.spec_vector py text d1)
                               (Runtime.spec_vector py text d2)
                               (Runtime.Content.similarity rec)) /\
      StronglySorted
        (Runtime.ranks_before (Runtime.flt py) (@Runtime.Content.similarity _)
           (fun a b =>
              (Runtime.Content.index a < Runtime.Content.index b)%nat))
        ranking.
Proof.
  intros py movies_df movie_title n r e laws H Hr Hn text Hsim.
  set (vectors := map (Runtime.spec_vector py text) text).
  assert (Hlen : List.length (rows movies_df) = List.length vectors).
  { unfold vectors, text, genres_text_of; rewrite !length_map; reflexivity. }
  assert (Htext : List.length text = List.length (rows movies_df)).
  { unfold text, genres_text_of; rewrite length_map; reflexivity. }
  assert (He : (e < List.length text)%nat).
  { rewrite Htext, <- (length_map Movies.title).
    apply (rt_spec_resolve_lt py _ _ _ _ H Hr). }
  destruct (nth_error text e) as [d1|] eqn:Ed1;
    [|apply nth_error_None in Ed1; lia].
  assert (Hve : nth_error vectors e = Some (Runtime.spec_vector py text d1)).
  { unfold vectors; rewrite nth_error_map, Ed1; reflexivity. }
  destruct (mapM_exists
              (Runtime.cosine_similarity py (Runtime.spec_vector py text d1))
              (fun s => Runtime.isnan py s = false) vectors)
    as [sims [Hsims Hnan]].
  { intros vec Hvec; unfold vectors in Hvec; apply in_map_iff in Hvec.
    destruct Hvec as [d2 [<- Hd2]].
    destruct (Hsim d1 d2 eq_refl Hd2) as [s [Hs Hn']].
    exists s; split; [apply (rt_cosine_similarity_spec py laws); exact Hs|].
    exact Hn'. }
  set (ranking := map (Runtime.content_row py (rows movies_df))
                      (Runtime.ranking_of py sims e)).
  exists ranking, (firstn (Z.to_nat n) ranking).
  split.
  { destruct (rt_content_based_value py laws movies_df movie_title n r H)
      as [_ Hv].
    rewrite Hv, Hr; fold text; fold vectors.
    rewrite (rt_rank_similar_closed py _ _ _ _ _ _ Hve Hlen Hsims).
    rewrite (slice_to_nonneg _ _ Hn); unfold ranking.
    rewrite firstn_map; reflexivity. }
  split; [reflexivity|].
  split; [apply firstn_le_length|].
  split.
  { intros rec Hrec; apply In_firstn in Hrec.
    unfold ranking in Hrec; apply in_map_iff in Hrec.
    destruct Hrec as [[i s] [<- Hin]]; simpl.
    apply rt_ranking_of_In in Hin; apply Hin. }
  split.
  { unfold ranking; rewrite map_map; simpl.
    rewrite Hlen; unfold vectors; rewrite length_map.
    rewrite <- (length_map (Runtime.spec_vector py text)); fold vectors.
    rewrite <- (mapM_length _ _ _ Hsims).
    change (map (fun x : nat * Runtime.float py => fst x)
                (Runtime.ranking_of py sims e))
      with (map fst (Runtime.ranking_of py sims e)).
    apply rt_ranking_of_indices. }
  split.
  { intros rec Hrec.
    unfold ranking in Hrec; apply in_map_iff in Hrec.
    destruct Hrec as [[i s] [<- Hin]]; simpl.
    apply rt_ranking_of_In in Hin; destruct Hin as [_ Hin].
    destruct (mapM_nth_error _ _ _ _ _ Hsims Hin) as [vec [Hvec Hcos]].
    unfold vectors in Hvec; rewrite nth_error_map in Hvec.
    destruct (nth_error text i) as [d2|] eqn:Ed2; [|discriminate].
    simpl in Hvec; inversion Hvec; subst vec.
    assert (Hi : (i < List.length (rows movies_df))%nat).
    { rewrite <- Htext; apply nth_error_Some; congruence. }
    exists (nth i (rows movies_df) no_movie), d1, d2.
    split; [apply nth_error_nth'; exact Hi|].
    split; [reflexivity|].
    split; [reflexivity|].
    split; [reflexivity|].
    split; [reflexivity|].
    apply (rt_cosine_similarity_spec py laws); exact Hcos. }
  unfold ranking.
  apply (StronglySorted_map
           (Runtime.ranks_before (Runtime.flt py) snd
              (fun a b : nat * Runtime.float py => (fst a < fst b)%nat))).
  - intros a b Hab; exact Hab.
  - apply (rt_ranking_of_sorted py laws); exact Hnan.
Qed.

(** ** Neighbour selection in closed form *)

Section RuntimeCollaborativeFacts.
Variable np : Runtime.numpy.
Hypothesis laws : Runtime.numpy_laws np.

Lemma rt_rated_movies_In (ratings_df : Runtime.RatingsDF (Runtime.float64 np))
    (u m : Z) :
  In m (Runtime.rated_movies np ratings_df u)
  <-> Runtime.rated_by np ratings_df u m.
Proof.
  unfold Runtime.rated_movies, Runtime.user_rows, Runtime.rated_by.
  rewrite (set_of_In Z.eqb_eq), in_map_iff; split.
  - intros [r [Hm Hr]]; apply filter_In in Hr; destruct Hr as [Hr Hu].
    exists r; repeat split; [exact Hr | apply Z.eqb_eq; exact Hu | exact Hm].
  - intros [r [Hr [Hu Hm]]]; exists r; split; [exact Hm|].
    apply filter_In; split; [exact Hr | apply Z.eqb_eq; exact Hu].
Qed.

Lemma rt_common_movies_of_spec
    (ratings_df : Runtime.RatingsDF (Runtime.float64 np)) (target u : Z) :
  Runtime.common_items np ratings_df target u
                       (Runtime.common_movies_of np ratings_df target u).
Proof.
  unfold Runtime.common_items, Runtime.common_movies_of.
  pose proof (Runtime.np_set_and_perm np laws
                (Runtime.rated_movies np ratings_df u)
                (Runtime.rated_movies np ratings_df target)) as Hp.
  split.
  - apply (Permutation_NoDup (Permutation_sym Hp)).
    unfold set_inter; apply NoDup_filter.
    unfold Runtime.rated_movies; apply set_of_NoDup; exact Z.eqb_eq.
  - intros m; rewrite <- !rt_rated_movies_In.
    rewrite <- (set_inter_In Z.eqb_eq); split.
    + apply (Permutation_in _ Hp).
    + apply (Permutation_in _ (Permutation_sym Hp)).
Qed.


(** [.values[0]] on the rows of one user restricted to a set of items. *)
Lemma rt_first_rating_common
    (ratings_df : Runtime.RatingsDF (Runtime.float64 np)) (u m : Z)
    (common : list Z) :
  In m common ->
  Runtime.rated_by np ratings_df u m ->
  Runtime.first_rating np
    (filter (fun r => mem Z.eqb (Runtime.Ratings.movieId r) common)
            (filter (fun r => Runtime.Ratings.userId r =? u) ratings_df)) m
  = Ok (Runtime.rating_of np ratings_df u m).
Proof.
  intros Hm [r0 [Hr0 [Hu Hm0]]];
    unfold Runtime.first_rating, Runtime.rating_of.
  rewrite !filter_filter.
  rewrite (filter_ext _
             (fun r => (Runtime.Ratings.userId r =? u)
                       && (Runtime.Ratings.movieId r =? m))).
  2:{ intros r; cbv beta; destruct (Runtime.Ratings.movieId r =? m) eqn:E;
        [|rewrite !andb_false_r; reflexivity].
      apply Z.eqb_eq in E; rewrite E.
      apply (mem_In Z.eqb_eq) in Hm; rewrite Hm, !andb_true_r; reflexivity. }
  destruct (filter _ ratings_df) as [|r l] eqn:E; [|reflexivity].
  exfalso.
  assert (H : In r0 (filter (fun r => (Runtime.Ratings.userId r =? u)
                                      && (Runtime.Ratings.movieId r =? m))
                            ratings_df)).
  { apply filter_In; split; [exact Hr0|].
    rewrite Hu, Hm0, !Z.eqb_refl; reflexivity. }
  rewrite E in H; exact H.
Qed.

Lemma rt_paired_ratings_ok
    (uc oc : Runtime.RatingsDF (Runtime.float64 np))
    (f g : Z -> Runtime.float64 np) (cm : list Z) :
  (forall m, In m cm ->
      Runtime.first_rating np uc m = Ok (f m) /\
      Runtime.first_rating np oc m = Ok (g m)) ->
  Runtime.paired_ratings np uc oc cm = Ok (map f cm, map g cm).
Proof.
  induction cm as [|m cm IH]; intros H; simpl; [reflexivity|].
  destruct (H m (or_introl eq_refl)) as [H1 H2].
  rewrite H1, H2; cbn [bind].
  rewrite IH by (intros m' Hm'; apply H; right; exact Hm').
  reflexivity.
Qed.

(** The loop over the other users raises nothing: every lookup
    [.values[0]] finds a row. *)
Lemma rt_find_similar_users_closed
    (ratings_df : Runtime.RatingsDF (Runtime.float64 np)) (target : Z)
    (users : list Z) :
  Runtime.find_similar_users np ratings_df target
    (Runtime.user_rows np ratings_df target)
    (Runtime.rated_movies np ratings_df target) users
  = Ok (Runtime.neighbours_of np ratings_df target users).
Proof.
  induction users as [|u users IH]; [reflexivity|].
  cbn [Runtime.find_similar_users Runtime.neighbours_of flat_map].
  fold (Runtime.neighbours_of np ratings_df target users).
  destruct (u =? target); [exact IH|].
  fold (Runtime.user_rows np ratings_df u).
  fold (Runtime.rated_movies np ratings_df u).
  fold (Runtime.common_movies_of np ratings_df target u).
  unfold Runtime.similarity_of.
  destruct (Z.of_nat (List.length
                        (Runtime.common_movies_of np ratings_df target u))
            <? 5);
    [exact IH|].
  rewrite (rt_paired_ratings_ok _ _ (Runtime.rating_of np ratings_df target)
                                (Runtime.rating_of np ratings_df u)).
  2:{ intros m Hm.
      destruct (rt_common_movies_of_spec ratings_df target u) as [_ Hc].
      pose proof (proj1 (Hc m) Hm) as [Hu Ht].
      split; apply rt_first_rating_common; assumption. }
  cbn [bind].
  destruct (Runtime.np_corrcoef np _ _) as [s|]; [|exact IH].
  rewrite IH; reflexivity.
Qed.




(** ** Aggregation in closed form *)

Lemma rt_aggregate_events
    (ratings_df : Runtime.RatingsDF (Runtime.float64 np)) (rated : list Z)
    (neighbours : list (Z * Runtime.float64 np)) :
  Runtime.aggregate np ratings_df rated neighbours
  = fold_left (fun c '(m, x, s) => Runtime.accumulate np c m x s)
              (Runtime.events np ratings_df rated neighbours) [].
Proof.
  unfold Runtime.aggregate, Runtime.events; rewrite fold_left_flat_map.
  generalize (@nil (Z * Runtime.candidate (Runtime.float64 np))).
  induction neighbours as [|[u s] l IH]; intros d; simpl; [reflexivity|].
  rewrite fold_left_map; apply IH.
Qed.


Lemma rt_accumulate_keys
    (d : dict Z (Runtime.candidate (Runtime.float64 np))) (m : Z)
    (x s : Runtime.float64 np) :
  keys (Runtime.accumulate np d m x s) =
  if mem Z.eqb m (keys d) then keys d else keys d ++ [m].
Proof.
  unfold Runtime.accumulate.
  destruct (dict_mem Z.eqb d m) eqn:Em.
  - pose proof Em as Hin; apply (dict_mem_In Z.eqb_eq) in Hin.
    destruct (In_keys_get Z.eqb_eq d m Hin) as [c Hc]; rewrite Hc.
    rewrite (keys_set_present Z.eqb_eq) by exact Hin.
    apply (mem_In Z.eqb_eq) in Hin; rewrite Hin; reflexivity.
  - assert (Hnot : ~ In m (keys d)).
    { intros H; apply (dict_mem_In Z.eqb_eq) in H; congruence. }
    rewrite (dict_get_set Z.eqb_eq), Z.eqb_refl.
    rewrite (keys_set_present Z.eqb_eq).
    + rewrite (dict_set_fresh Z.eqb_eq) by exact Hnot.
      apply (mem_not_In Z.eqb_eq) in Hnot; rewrite Hnot.
      unfold keys; rewrite map_app; reflexivity.
    + rewrite (dict_set_fresh Z.eqb_eq) by exact Hnot.
      unfold keys; rewrite map_app, in_app_iff; right; left; reflexivity.
Qed.

Lemma rt_fold_accumulate_keys
    (evs : list (Z * Runtime.float64 np * Runtime.float64 np))
    (d : dict Z (Runtime.candidate (Runtime.float64 np))) :
  keys (fold_left (fun c '(m, x, s) => Runtime.accumulate np c m x s) evs d)
  = keys d ++ unique_from Z.eqb (keys d) (map (fun e => fst (fst e)) evs).
Proof.
  revert d; induction evs as [|[[m x] s] evs IH]; intros d; simpl.
  - rewrite app_nil_r; reflexivity.
  - rewrite IH, rt_accumulate_keys.
    destruct (mem Z.eqb m (keys d)) eqn:E; [reflexivity|].
    rewrite <- app_assoc; simpl; do 2 f_equal.
    apply (unique_from_ext Z.eqb_eq).
    intros y; rewrite in_app_iff; simpl; tauto.
Qed.


End RuntimeCollaborativeFacts.

Section RuntimeAggregationFacts.
Variable np : Runtime.numpy.
Hypothesis laws : Runtime.numpy_laws np.









(** The whole call for a user who has ratings. *)
Lemma rt_collaborative_unfold
    (ratings_df : Runtime.RatingsDF (Runtime.float64 np))
    (movies_df : MoviesDF) (target n : Z) :
  In target (map (@Runtime.Ratings.userId _) ratings_df) ->
  Runtime.collaborative_recommendations np ratings_df movies_df target n =
  {| tables := (ratings_df, movies_df);
     stdout := [];
     value :=
       Ok (Runtime.movie_details np movies_df
             (slice_to n
                (Runtime.sort_desc (Runtime.np_lt np) snd
                   (Runtime.predict np
                      (Runtime.aggregate np ratings_df
                         (Runtime.rated_movies np ratings_df target)
                         (Runtime.top_neighbours np ratings_df target)))))) |}.
Proof.
  intros H; unfold Runtime.collaborative_recommendations.
  assert (E : mem Z.eqb target
                  (set_of Z.eqb (map (@Runtime.Ratings.userId _) ratings_df))
              = true)
    by (apply (mem_In Z.eqb_eq), (set_of_In Z.eqb_eq); exact H).
  rewrite E; cbn [negb].
  fold (Runtime.user_rows np ratings_df target).
  fold (Runtime.rated_movies np ratings_df target).
  rewrite (rt_find_similar_users_closed np laws); reflexivity.
Qed.

Lemma rt_collaborative_unknown_user
    (ratings_df : Runtime.RatingsDF (Runtime.float64 np))
    (movies_df : MoviesDF) (target n : Z) :
  ~ In target (map (@Runtime.Ratings.userId _) ratings_df) ->
  Runtime.collaborative_recommendations np ratings_df movies_df target n =
  {| tables := (ratings_df, movies_df);
     stdout := [("User " ++ str_of_int target ++ " not found")%string];
     value := Ok [] |}.
Proof.
  intros H; unfold Runtime.collaborative_recommendations.
  assert (E : mem Z.eqb target
                  (set_of Z.eqb (map (@Runtime.Ratings.userId _) ratings_df))
              = false)
    by (apply (mem_not_In Z.eqb_eq); rewrite (set_of_In Z.eqb_eq); exact H).
  rewrite E; reflexivity.
Qed.
End RuntimeAggregationFacts.

(** ** The collaborative recommender: the claims *)



(** ** Failed lookups *)

(** C9. A query title that matches no catalog entry, neither exactly nor as
    a substring, makes the content recommender return the empty frame; a
    user id without ratings in the log makes the collaborative recommender
    return the empty frame; in both cases the call returns, it does not
    raise. *)
Theorem failed_lookups_return_empty :
  (forall (py : Runtime.python) (movies_df : MoviesDF)
          (movie_title : string) (n : Z),
      Runtime.python_laws py ->
      (forall t, In t (map Movies.title (rows movies_df)) ->
                 ~ Runtime.exact_match py movie_title t) ->
      (forall t, In t (map Movies.title (rows movies_df)) ->
                 ~ Runtime.substring_match py movie_title t) ->
      value (Runtime.content_based_recommendations py movies_df movie_title n)
        = Ok [])
  /\
  (forall (np : Runtime.numpy)
          (ratings_df : Runtime.RatingsDF (Runtime.float64 np))
          (movies_df : MoviesDF) (user_id n : Z),
      ~ In user_id (map (@Runtime.Ratings.userId _) ratings_df) ->
      value (Runtime.collaborative_recommendations np ratings_df movies_df
                                                    user_id n)
        = Ok []).
Proof.
  split.
  - intros py movies_df movie_title n laws H1 H2.
    destruct (rt_content_based_value py laws movies_df movie_title n NotFound
                (@Runtime.resolve_not_found py _ _ H1 H2)) as [_ Hv].
    exact Hv.
  - intros np ratings_df movies_df user_id n H.
    rewrite (rt_collaborative_unknown_user np _ _ _ _ H); reflexivity.
Qed.

(** ** The interpreters *)

Lemma real_python_laws : Runtime.python_laws Runtime.real_python.
Proof.
  constructor; simpl.
  - intros a b Ha Hb; apply Rltb_true.
    apply Rdiv_lt_0_compat; apply IZR_lt; lia.
  - intros x y z H1 H2; apply Rltb_true in H1, H2; apply Rltb_true; lra.
  - intros x y z _ H; apply Rltb_true in H.
    destruct (Rlt_le_dec x y); [left | right]; apply Rltb_true; lra.
  - intros a b; apply Permutation_refl.
Qed.

Lemma real_numpy_laws : Runtime.numpy_laws Runtime.real_numpy.
Proof.
  constructor; simpl.
  - intros x y z H1 H2; apply Rltb_true in H1, H2; apply Rltb_true; lra.
  - intros x y z _ H; apply Rltb_true in H.
    destruct (Rlt_le_dec x y); [left | right]; apply Rltb_true; lra.
  - reflexivity.
  - intros a b; apply Permutation_refl.
Qed.

(** On real numbers the second embedding of [cosine_similarity] is the
    first one. *)
Lemma real_cosine_similarity (vec1 vec2 : dict string R) :
  Runtime.cosine_similarity Runtime.real_python vec1 vec2
  = cosine_similarity vec1 vec2.
Proof.
  assert (Hsqrt : forall x, Runtime.math_sqrt Runtime.real_python x
                            = math_sqrt x).
  { intros x; unfold Runtime.math_sqrt, math_sqrt; simpl.
    unfold Rltb, Rleb.
    destruct (Rlt_dec x 0), (Rle_dec 0 x); try reflexivity; lra. }
  unfold Runtime.cosine_similarity, cosine_similarity, Runtime.py_div, py_div.
  cbn [Runtime.set_and Runtime.real_python Runtime.float Runtime.fmul
       Runtime.fpow2 Runtime.fsum Runtime.feq Runtime.of_int Runtime.fdiv].
  destruct (set_inter String.eqb (set_of String.eqb (keys vec1))
                      (set_of String.eqb (keys vec2))) as [|t common];
    [reflexivity|].
  destruct (mapM _ (t :: common)) as [products|e]; [|reflexivity].
  cbn [bind].
  rewrite !(mapM_ok _ (fun val => val ^ 2)%R) by reflexivity.
  cbn [bind]; rewrite !Hsqrt.
  reflexivity.
Qed.

Lemma real_spec_cosine (vec1 vec2 : dict string R) :
  exists s, Runtime.spec_cosine Runtime.real_python vec1 vec2 s /\
            Runtime.isnan Runtime.real_python s = false.
Proof.
  exists (cosine vec1 vec2); split; [|reflexivity].
  apply (rt_cosine_similarity_spec _ real_python_laws).
  rewrite real_cosine_similarity; apply cosine_similarity_total.
Qed.

(** Order on binary64: [<] is transitive, and a number that is neither
    above [x] nor below [z] leaves no room for [x < z]. *)
Ltac sf_cases :=
  repeat match goal with
         | s : bool |- _ => destruct s
         end;
  cbn; try congruence;
  repeat match goal with
         | |- context [(?a ?= ?b)%Z] =>
             destruct (Z.compare_spec a b); try lia; subst; cbn;
             try congruence
         | |- context [PosDef.Pos.compare_cont Eq ?a ?b] =>
             change (PosDef.Pos.compare_cont Eq a b) with (Pos.compare a b);
             destruct (Pos.compare_spec a b); try lia; subst; cbn;
             try congruence
         end.

Lemma SFltb_trans (x y z : SpecFloat.spec_float) :
  SpecFloat.SFltb x y = true -> SpecFloat.SFltb y z = true ->
  SpecFloat.SFltb x z = true.
Proof.
  unfold SpecFloat.SFltb, SpecFloat.SFcompare.
  destruct x as [sx|sx| |sx mx ex], y as [sy|sy| |sy my ey],
           z as [sz|sz| |sz mz ez]; sf_cases.
Qed.

Lemma SFltb_cotrans (x y z : SpecFloat.spec_float) :
  y <> SpecFloat.S754_nan -> SpecFloat.SFltb x z = true ->
  SpecFloat.SFltb x y = true \/ SpecFloat.SFltb y z = true.
Proof.
  unfold SpecFloat.SFltb, SpecFloat.SFcompare.
  destruct x as [sx|sx| |sx mx ex], y as [sy|sy| |sy my ey],
           z as [sz|sz| |sz mz ez]; intros Hy; try congruence; sf_cases;
    auto; try lia.
Qed.

Lemma is_nan_false (y : PrimFloat.float) :
  PrimFloat.is_nan y = false -> FloatOps.Prim2SF y <> SpecFloat.S754_nan.
Proof.
  unfold PrimFloat.is_nan; rewrite FloatAxioms.eqb_spec; intros H E.
  rewrite E in H; discriminate.
Qed.

Lemma binary64_laws : Runtime.numpy_laws Runtime.binary64.
Proof.
  constructor; simpl.
  - intros x y z; rewrite !FloatAxioms.ltb_spec; apply SFltb_trans.
  - intros x y z Hy; rewrite !FloatAxioms.ltb_spec.
    apply SFltb_cotrans, is_nan_false; exact Hy.
  - intros xs ys s; unfold Runtime.b64_corrcoef; cbv zeta.
    match goal with
    | |- (if PrimFloat.is_nan ?c then _ else _) = _ -> _ =>
        destruct (PrimFloat.is_nan c) eqn:E
    end; [discriminate|].
    intros H; inversion H; subst; exact E.
  - intros a b; apply Permutation_refl.
Qed.

(** ** Runs of the claims *)

Lemma genre_catalog_heat :
  Runtime.spec_resolve Runtime.real_python
    (map Movies.title (rows genre_catalog)) "heat" (Closest 2).
Proof.
  apply Runtime.resolve_closest.
  - intros t Ht H; apply rt_exact_match_dec in H.
    simpl in Ht; repeat destruct Ht as [<-|Ht]; try contradiction;
      vm_compute in H; discriminate.
  - split.
    + exists "Heat (1995)"; split; [reflexivity|].
      exists "", " (1995)"; reflexivity.
    + intros j y Hj Hy H; apply rt_substring_match_dec in H.
      destruct j as [|[|j]]; [| |lia]; simpl in Hy; inversion Hy; subst;
        vm_compute in H; discriminate.
Qed.

Lemma genre_catalog_no_match :
  (forall t, In t (map Movies.title (rows genre_catalog)) ->
             ~ Runtime.exact_match Runtime.real_python "Alien" t) /\
  (forall t, In t (map Movies.title (rows genre_catalog)) ->
             ~ Runtime.substring_match Runtime.real_python "Alien" t).
Proof.
  split; intros t Ht H.
  - apply rt_exact_match_dec in H.
    simpl in Ht; repeat destruct Ht as [<-|Ht]; try contradiction;
      vm_compute in H; discriminate.
  - apply rt_substring_match_dec in H.
    simpl in Ht; repeat destruct Ht as [<-|Ht]; try contradiction;
      vm_compute in H; discriminate.
Qed.

Lemma content_based_resolution_witness :
  let out :=
    Runtime.content_based_recommendations Runtime.real_python genre_catalog
                                          "heat" 3 in
  exists vectors,
    Runtime.compute_tfidf Runtime.real_python (genres_text_of genre_catalog)
      = Ok vectors /\
    stdout out = ["Using closest match: Heat (1995)"] /\
    value out
      = Runtime.rank_similar Runtime.real_python (rows genre_catalog)
                             vectors 2 3.
Proof.
  apply (content_based_resolution Runtime.real_python genre_catalog "heat" 3
           (Closest 2) real_python_laws genre_catalog_heat).
Defined.

Lemma content_based_ranking_witness :
  exists ranking recs,
    value (Runtime.content_based_recommendations Runtime.real_python
             genre_catalog "heat" 3)
      = Ok recs /\
    recs = firstn (Z.to_nat 3) ranking /\
    (List.length recs <= Z.to_nat 3)%nat /\
    (forall rec, In rec recs -> Runtime.Content.index rec <> 2%nat) /\
    Permutation (map (@Runtime.Content.index _) ranking)
                (filter (fun i => negb (Nat.eqb i 2))
                        (seq 0 (List.length (rows genre_catalog)))) /\
    (forall rec, In rec ranking ->
       exists m d1 d2,
         nth_error (rows genre_catalog) (Runtime.Content.index rec) = Some m /\
         Runtime.Content.title rec = Movies.title m /\
         Runtime.Content.genres rec = Movies.genres m /\
         nth_error (genres_text_of genre_catalog) 2 = Some d1 /\
         nth_error (genres_text_of genre_catalog) (Runtime.Content.index rec)
           = Some d2 /\
         Runtime.spec_cosine Runtime.real_python
           (Runtime.spec_vector Runtime.real_python
              (genres_text_of genre_catalog) d1)
           (Runtime.spec_vector Runtime.real_python
              (genres_text_of genre_catalog) d2)
           (Runtime.Content.similarity rec)) /\
    StronglySorted
      (Runtime.ranks_before (Runtime.flt Runtime.real_python)
         (@Runtime.Content.similarity _)
         (fun a b =>
            (Runtime.Content.index a < Runtime.Content.index b)%nat))
      ranking.
Proof.
  apply (content_based_ranking Runtime.real_python genre_catalog "heat" 3
           (Closest 2) 2%nat real_python_laws genre_catalog_heat).
  - reflexivity.
  - lia.
  - intros d1 d2 _ _; apply real_spec_cosine.
Defined.

Lemma failed_lookups_return_empty_witness :
  value (Runtime.content_based_recommendations Runtime.real_python
           genre_catalog "Alien" 5) = Ok [] /\
  value (Runtime.collaborative_recommendations Runtime.binary64
           (sample_log Runtime.binary64) sample_catalog 7 5) = Ok [].
Proof.
  split.
  - apply (proj1 failed_lookups_return_empty Runtime.real_python
             genre_catalog "Alien" 5 real_python_laws).
    + exact (proj1 genre_catalog_no_match).
    + exact (proj2 genre_catalog_no_match).
  - apply (proj2 failed_lookups_return_empty Runtime.binary64
             (sample_log Runtime.binary64) sample_catalog 7 5).
    apply (mem_not_In Z.eqb_eq); reflexivity.
Defined.







(** ** Where the claims as written fail *)

(** C2 as written.  "The Pearson correlation over the common items is
    defined" does not decide who becomes a neighbour: in [constant_log]
    user 1 gives the six common items the same rating, so the correlation
    with user 2 is undefined (the variance of a constant sequence is 0),
    and user 2 is a candidate neighbour all the same.  The mean of six
    times 0.7 is not 0.7 in binary64, the deviations are not 0, and
    [np.corrcoef] returns a number, not nan. *)
Lemma neighbour_selection_constant_ratings :
  Runtime.constant Runtime.binary64
    (map (Runtime.rating_of Runtime.binary64 constant_log 1)
         (Runtime.common_movies_of Runtime.binary64 constant_log 1 2)) /\
  (6 <= List.length
          (Runtime.common_movies_of Runtime.binary64 constant_log 1 2))%nat /\
  exists s,
    Runtime.find_similar_users Runtime.binary64 constant_log 1
      (Runtime.user_rows Runtime.binary64 constant_log 1)
      (Runtime.rated_movies Runtime.binary64 constant_log 1)
      (set_of Z.eqb (map (@Runtime.Ratings.userId _) constant_log))
    = Ok [(2, s)].
Proof.
  split; [|split].
  - intros x y Hx Hy.
    vm_compute in Hx, Hy.
    repeat destruct Hx as [<-|Hx]; try contradiction;
      repeat destruct Hy as [<-|Hy]; try contradiction; reflexivity.
  - vm_compute; lia.
  - eexists; vm_compute; reflexivity.
Qed.

(** C1 as written.  "The candidate set is exactly the items not rated by
    the target" fails on [big_id_log]: the loop reads the item id 2^53 + 1
    of user 2's row as the float 2^53, the candidate is keyed by 2^53, an
    item that user 1 has rated and that no other user has, and the join,
    which compares the catalog ids as floats too, returns the row of that
    item. *)
Lemma collaborative_aggregation_float_ids :
  let np := Runtime.binary64 in
  keys (Runtime.aggregate np big_id_log
          (Runtime.rated_movies np big_id_log 1)
          (Runtime.top_neighbours np big_id_log 1)) = [2 ^ 53] /\
  Runtime.rated_by np big_id_log 1 (2 ^ 53) /\
  (forall r, In r big_id_log -> Runtime.Ratings.movieId r = 2 ^ 53 ->
             Runtime.Ratings.userId r = 1) /\
  value (Runtime.collaborative_recommendations np big_id_log big_id_catalog
                                                1 5)
  = Ok [ {| Runtime.Collab.title := "Seen";
            Runtime.Collab.genres := "Drama";
            Runtime.Collab.predicted_rating := Runtime.np_of_int np 5 |} ].
Proof.
  cbv zeta; split; [|split; [|split]].
  - vm_compute; reflexivity.
  - eexists; split; [do 5 right; left; reflexivity|].
    split; reflexivity.
  - intros r Hr E; simpl in Hr.
    repeat destruct Hr as [<-|Hr]; try contradiction;
      solve [reflexivity | vm_compute in E; discriminate].
  - vm_compute; reflexivity.
Qed.

(** The guard [weight > 0] is a test on the rounded sum.  In
    [opposed_log] the correlations of users 2 and 3 with user 1 are 1 and
    -1 as real numbers, and 1 and -0.9999999999999999 in binary64: the
    weight of item 20 is 1.1e-16, not 0, and the item is predicted, with
    the score 8. *)
Example weight_guard_binary64 :
  Runtime.top_neighbours Runtime.binary64 opposed_log 1
  = [ (2, Runtime.b64_of_int 1);
      (3, PrimFloat.opp (PrimFloat.next_down (Runtime.b64_of_int 1))) ] /\
  Runtime.predict Runtime.binary64
    (Runtime.aggregate Runtime.binary64 opposed_log
       (Runtime.rated_movies Runtime.binary64 opposed_log 1)
       (Runtime.top_neighbours Runtime.binary64 opposed_log 1))
  = [(20, Runtime.b64_of_int 8)].
Proof. split; vm_compute; reflexivity. Qed.

(** A run on binary64: user 2 is the one neighbour of user 1, with
    correlation 1; items 6 and 99 are predicted, and item 99 has no catalog
    row. *)
Example collaborative_run_binary64 :
  Runtime.collaborative_recommendations Runtime.binary64
    (sample_log Runtime.binary64) sample_catalog 1 5 =
  {| tables := (sample_log Runtime.binary64, sample_catalog);
     stdout := [];
     value := Ok [ {| Runtime.Collab.title := "Heat (1995)";
                      Runtime.Collab.genres := "Action|Crime|Thriller";
                      Runtime.Collab.predicted_rating :=
                        Runtime.b64_of_int 5 |} ] |}.
Proof. vm_compute; reflexivity. Qed.

(** ** Further properties of the lookup and of the ranking *)

Lemma with_lower_laws (py : Runtime.python) (f : string -> string) :
  Runtime.python_laws py -> Runtime.python_laws (with_lower py f).
Proof.
  intros [H1 H2 H3 H4]; constructor; simpl; assumption.
Qed.

(** The lookup folds what [str.lower] folds: with the folding of the
    Latin-1 letters "école" is contained in the title "École (2012)", with
    the folding of A to Z only it is not. *)
Example find_movie_accented :
  Runtime.find_movie (with_lower Runtime.real_python lower_latin1)
                     ["Heat (1995)"; ecole_title] ecole_query
  = (Some 1%nat, [("Using closest match: " ++ ecole_title)%string]) /\
  Runtime.find_movie Runtime.real_python
                     ["Heat (1995)"; ecole_title] ecole_query
  = (None, []).
Proof. split; vm_compute; reflexivity. Qed.

(** X12. Looking a catalog title up finds it, whatever the letter case of
    the query: when [str.lower] maps the query and the title at position
    [i] to the same string, the first pass stops at the first position
    [j <= i] whose title it maps to that string, and nothing is printed;
    the second pass and the not-found branch are not reached. *)
Theorem find_movie_finds_titles :
  forall (py : Runtime.python) (titles : list string) (i : nat)
         (title movie_title : string),
    nth_error titles i = Some title ->
    Runtime.str_lower py movie_title = Runtime.str_lower py title ->
    exists j t,
      Runtime.find_movie py titles movie_title = (Some j, []) /\
      (j <= i)%nat /\
      nth_error titles j = Some t /\
      Runtime.str_lower py t = Runtime.str_lower py movie_title /\
      (forall k y, (k < j)%nat -> nth_error titles k = Some y ->
                   Runtime.str_lower py y <> Runtime.str_lower py movie_title).
Proof.
  intros py titles i title movie_title Hi Hq; unfold Runtime.find_movie.
  destruct (find_first
              (fun t => String.eqb (Runtime.str_lower py t)
                                   (Runtime.str_lower py movie_title))
              0 titles)
    as [[j t]|] eqn:E.
  - apply find_first_Some in E; destruct E as [_ [Hn [Hp Hmin]]].
    rewrite Nat.sub_0_r in Hn, Hmin.
    exists j, t; split; [reflexivity|].
    split.
    { destruct (Nat.le_gt_cases j i) as [H|H]; [exact H|].
      specialize (Hmin i title H Hi); cbv beta in Hmin.
      rewrite Hq, String.eqb_refl in Hmin; discriminate. }
    split; [exact Hn|].
    split; [apply String.eqb_eq; exact Hp|].
    intros k y Hk Hy Heq.
    specialize (Hmin k y Hk Hy); cbv beta in Hmin.
    rewrite Heq, String.eqb_refl in Hmin; discriminate.
  - exfalso.
    rewrite find_first_None in E.
    specialize (E title (nth_error_In _ _ Hi)); cbv beta in E.
    rewrite Hq, String.eqb_refl in E; discriminate.
Qed.

Lemma find_movie_finds_titles_witness :
  let py := with_lower Runtime.real_python lower_latin1 in
  let titles := ["Heat (1995)"; ecole_title; "HEAT (1995)"] in
  exists j t,
    Runtime.find_movie py titles "heat (1995)" = (Some j, []) /\
    (j <= 2)%nat /\
    nth_error titles j = Some t /\
    Runtime.str_lower py t = Runtime.str_lower py "heat (1995)" /\
    (forall k y, (k < j)%nat -> nth_error titles k = Some y ->
                 Runtime.str_lower py y <> Runtime.str_lower py "heat (1995)").
Proof.
  apply (find_movie_finds_titles
           (with_lower Runtime.real_python lower_latin1)
           ["Heat (1995)"; ecole_title; "HEAT (1995)"] 2%nat "HEAT (1995)"
           "heat (1995)"); reflexivity.
Defined.

Lemma rt_find_movie_None (py : Runtime.python) (titles : list string)
    (movie_title : string) :
  fst (Runtime.find_movie py titles movie_title) = None <->
  (forall t, In t titles -> ~ Runtime.substring_match py movie_title t).
Proof.
  destruct (rt_spec_resolve_total py titles movie_title) as [r Hr].
  rewrite (rt_find_movie_spec py _ _ _ Hr).
  destruct Hr as [i Hi | i Hno Hi | Hno1 Hno2]; simpl.
  - split; [discriminate|]; intros H; exfalso.
    destruct Hi as [[x [Hx HP]] _].
    apply (H x (nth_error_In _ _ Hx)).
    exists "", ""; unfold Runtime.exact_match in HP; rewrite HP.
    simpl; rewrite string_app_nil_r; reflexivity.
  - split; [discriminate|]; intros H; exfalso.
    destruct Hi as [[x [Hx HP]] _].
    apply (H x (nth_error_In _ _ Hx) HP).
  - split; [intros _; exact Hno2 | reflexivity].
Qed.

(** X19. The content recommender answers "not found" exactly when no
    catalog title contains the query as a substring, both taken through
    [str.lower]; in every other case it prints no such line. *)
Theorem content_based_not_found_iff :
  forall (py : Runtime.python) (movies_df : MoviesDF) (movie_title : string)
         (n : Z),
    Runtime.python_laws py ->
    let out := Runtime.content_based_recommendations py movies_df movie_title n in
    (In ("Movie '" ++ movie_title ++ "' not found")%string (stdout out) <->
     (forall x, In x (rows movies_df) ->
                ~ Runtime.substring_match py movie_title (Movies.title x))) /\
    ((forall x, In x (rows movies_df) ->
                ~ Runtime.substring_match py movie_title (Movies.title x)) ->
     value out = Ok []).
Proof.
  intros py movies_df movie_title n laws out.
  pose proof (rt_find_movie_None py (map Movies.title (rows movies_df))
                                 movie_title)
    as Hnone.
  assert (Htitles :
            (forall t, In t (map Movies.title (rows movies_df)) ->
                       ~ Runtime.substring_match py movie_title t) <->
            (forall x, In x (rows movies_df) ->
                       ~ Runtime.substring_match py movie_title
                                                 (Movies.title x))).
  { split.
    - intros H x Hx; apply H, in_map; exact Hx.
    - intros H t Ht; apply in_map_iff in Ht.
      destruct Ht as [x [<- Hx]]; apply H; exact Hx. }
  rewrite Htitles in Hnone.
  unfold out; rewrite (rt_content_based_unfold py laws); cbv zeta.
  destruct (rt_spec_resolve_total py (map Movies.title (rows movies_df))
                                  movie_title)
    as [r Hr].
  rewrite (rt_find_movie_spec py _ _ _ Hr) in *.
  destruct r as [i|i|]; simpl in *.
  - split.
    + split; [intros [] | intros H; apply Hnone in H; discriminate].
    + intros H; apply Hnone in H; discriminate.
  - split.
    + split; [|intros H; apply Hnone in H; discriminate].
      intros [H|[]]; discriminate.
    + intros H; apply Hnone in H; discriminate.
  - split.
    + split; [intros _; apply Hnone; reflexivity | intros _; left; reflexivity].
    + intros _; reflexivity.
Qed.

Lemma content_based_not_found_iff_witness :
  value (Runtime.content_based_recommendations Runtime.real_python
           genre_catalog "Alien" 5) = Ok [].
Proof.
  apply (proj2 (content_based_not_found_iff Runtime.real_python genre_catalog
                  "Alien" 5 real_python_laws)).
  intros x Hx; apply (proj2 genre_catalog_no_match), in_map; exact Hx.
Defined.

Lemma rt_predict_keys (np : Runtime.numpy)
    (candidate_movies : dict Z (Runtime.candidate (Runtime.float64 np))) :
  map fst (Runtime.predict np candidate_movies)
  = map fst (filter (fun e => Runtime.np_lt np (Runtime.np_of_int np 0)
                                            (Runtime.score (snd e)))
                    candidate_movies).
Proof.
  induction candidate_movies as [|[m c] d IH]; [reflexivity|].
  unfold Runtime.predict; cbn [flat_map filter snd];
    fold (Runtime.predict np d).
  destruct (Runtime.np_lt np (Runtime.np_of_int np 0) (Runtime.score c));
    simpl; rewrite IH; reflexivity.
Qed.

(** X18. Ties in the final ranking are broken by first appearance: the
    entries of [candidate_movies] stand in the order in which the float of
    their item id was first met by the aggregation loop, the predictions
    keep that order, and, no predicted rating being nan, the sort leaves
    predictions none of which is below the other in it. *)
Theorem collaborative_ties_first_seen :
  forall (np : Runtime.numpy)
         (ratings_df : Runtime.RatingsDF (Runtime.float64 np))
         (movies_df : MoviesDF) (user_id n : Z),
    Runtime.numpy_laws np ->
    In user_id (map (@Runtime.Ratings.userId _) ratings_df) ->
    let candidates :=
      Runtime.aggregate np ratings_df
        (Runtime.rated_movies np ratings_df user_id)
        (Runtime.top_neighbours np ratings_df user_id) in
    let predictions := Runtime.predict np candidates in
    Forall (fun p => Runtime.np_isnan np (snd p) = false) predictions ->
    exists ranked,
      keys candidates
        = set_of Z.eqb
            (map (fun e => fst (fst e))
                 (Runtime.events np ratings_df
                    (Runtime.rated_movies np ratings_df user_id)
                    (Runtime.top_neighbours np ratings_df user_id))) /\
      map fst predictions
        = map fst (filter (fun e => Runtime.np_lt np (Runtime.np_of_int np 0)
                                                  (Runtime.score (snd e)))
                          candidates) /\
      Permutation ranked predictions /\
      StronglySorted
        (Runtime.ranks_before (Runtime.np_lt np) snd (before_in predictions))
        ranked /\
      value (Runtime.collaborative_recommendations np ratings_df movies_df
                                                    user_id n)
        = Ok (Runtime.movie_details np movies_df (slice_to n ranked)).
Proof.
  intros np ratings_df movies_df user_id n laws Huser candidates predictions
         Hnumber.
  exists (Runtime.sort_desc (Runtime.np_lt np) snd predictions).
  split.
  { unfold candidates; rewrite rt_aggregate_events, rt_fold_accumulate_keys.
    reflexivity. }
  split; [apply rt_predict_keys|].
  split; [apply rt_sort_desc_perm|].
  split.
  - apply (rt_sort_desc_sorted _ (Runtime.np_isnan np)).
    + apply (Runtime.np_lt_trans np laws).
    + apply (Runtime.np_lt_cotrans np laws).
    + exact Hnumber.
    + apply (before_in_sorted []).
  - rewrite (rt_collaborative_unfold np laws _ _ _ _ Huser); reflexivity.
Qed.

Lemma collaborative_ties_first_seen_witness :
  let np := Runtime.binary64 in
  let candidates :=
    Runtime.aggregate np (sample_log np)
      (Runtime.rated_movies np (sample_log np) 1)
      (Runtime.top_neighbours np (sample_log np) 1) in
  let predictions := Runtime.predict np candidates in
  exists ranked,
    keys candidates
      = set_of Z.eqb
          (map (fun e => fst (fst e))
               (Runtime.events np (sample_log np)
                  (Runtime.rated_movies np (sample_log np) 1)
                  (Runtime.top_neighbours np (sample_log np) 1))) /\
    map fst predictions
      = map fst (filter (fun e => Runtime.np_lt np (Runtime.np_of_int np 0)
                                                (Runtime.score (snd e)))
                        candidates) /\
    Permutation ranked predictions /\
    StronglySorted
      (Runtime.ranks_before (Runtime.np_lt np) snd (before_in predictions))
      ranked /\
    value (Runtime.collaborative_recommendations np (sample_log np)
                                                  sample_catalog 1 5)
      = Ok (Runtime.movie_details np sample_catalog (slice_to 5 ranked)).
Proof.
  apply (collaborative_ties_first_seen Runtime.binary64
           (sample_log Runtime.binary64) sample_catalog 1 5 binary64_laws).
  - simpl; left; reflexivity.
  - vm_compute; repeat constructor.
Defined.
